(** * ContractIQ backend: scoring heuristic, merge policy and job state machine

    A shallow embedding of [backend/app/main.py].  Python floats are IEEE-754
    binary64 numbers and are embedded as Rocq's primitive floats, so that the
    arithmetic of the scoring code is the arithmetic of the program; JSON
    documents are embedded as a tagged union over finite maps keyed by
    strings; exceptions are explicit results; the in-memory job registry is
    threaded through a small state-and-exception monad. *)

From Stdlib Require Import ZArith QArith Qround Qpower Floats Lia Ascii String.
From stdpp Require Import gmap strings list fin_maps pretty.

#[local] Set Warnings "-register-all,-inexact-float".
#[local] Close Scope Q_scope.
#[local] Open Scope Z_scope.

(** ** Python values, as [json.loads] produces them *)

Inductive value : Type :=
  | VNone
  | VBool (b : bool)
  | VInt (z : Z)
  | VFloat (f : float)
  | VStr (s : string)
  | VList (l : list value)
  | VDict (d : gmap string value).

(** A Python [dict] with string keys. *)
Abbreviation pydict := (gmap string value).

(** ** Exceptions *)

Inductive exn_class : Type :=
  | ValidationError
  | TypeError
  | ValueError
  | OverflowError
  | KeyError
  | OtherException (cls : string).

(** An exception object: its class and what [str(e)] returns. *)
Record exn : Type := Exn { exn_cls : exn_class; exn_str : string }.

Inductive result (A : Type) : Type :=
  | Ok (a : A)
  | Raise (e : exn).
Arguments Ok {A} a.
Arguments Raise {A} e.

#[global] Instance result_ret : MRet result := λ A a, Ok a.
#[global] Instance result_bind : MBind result := λ A B k r,
  match r with
  | Ok a => k a
  | Raise e => Raise e
  end.

(** ** Builtins on values *)

(** [type(v).__name__], used in the interpreter's error messages. *)
Definition type_name (v : value) : string :=
  match v with
  | VNone => "NoneType"
  | VBool _ => "bool"
  | VInt _ => "int"
  | VFloat _ => "float"
  | VStr _ => "str"
  | VList _ => "list"
  | VDict _ => "dict"
  end.

(** [bool(v)]: the truth value of a JSON value.  A float is false only when
    it equals zero, so a NaN is true. *)
Definition truthy (v : value) : bool :=
  match v with
  | VNone => false
  | VBool b => b
  | VInt z => negb (z =? 0)
  | VFloat f => negb (PrimFloat.eqb f 0%float)
  | VStr s => negb (String.eqb s "")
  | VList l => match l with [] => false | _ => true end
  | VDict d => negb (Nat.eqb (size d) 0)
  end.

(** [dict.get(key)], with [None] for a missing key. *)
Definition dict_get (d : pydict) (key : string) : value :=
  default VNone (d !! key).

(** [dict.get(key, dflt)]. *)
Definition dict_get_default (d : pydict) (key : string) (dflt : value) : value :=
  default dflt (d !! key).

(** [{**a, **b}]: a fresh dict holding [a]'s entries, then updated with
    [b]'s, so [b] wins where both have the key. *)
Definition dict_merge (a b : pydict) : pydict := b ∪ a.

(** The operand of a [**] unpacking must be a mapping. *)
Definition as_mapping (v : value) : result pydict :=
  match v with
  | VDict d => Ok d
  | _ => Raise (Exn TypeError ("'" +:+ type_name v +:+ "' object is not a mapping"))
  end.

(** ** Strings *)

(** [str.isspace] on one code point, read from the front of the UTF-8 bytes
    of the string: the ASCII white space 09-0D, 1C-1F and 20, and U+0085,
    U+00A0, U+1680, U+2000-U+200A, U+2028, U+2029, U+202F, U+205F, U+3000.
    Returns the bytes after the code point. *)
Definition ascii_space (c : ascii) : bool :=
  let n := N_of_ascii c in
  ((9 <=? n) && (n <=? 13) || (28 <=? n) && (n <=? 32))%N.

Definition drop_space (s : string) : option string :=
  match s with
  | String c rest =>
    if ascii_space c then Some rest else
    match N_of_ascii c, rest with
    | 194%N, String c1 rest1 =>
      if ((N_of_ascii c1 =? 133) || (N_of_ascii c1 =? 160))%N
      then Some rest1 else None
    | 225%N, String c1 (String c2 rest2) =>
      if ((N_of_ascii c1 =? 154) && (N_of_ascii c2 =? 128))%N
      then Some rest2 else None
    | 226%N, String c1 (String c2 rest2) =>
      let n1 := N_of_ascii c1 in
      let n2 := N_of_ascii c2 in
      if ((n1 =? 128) && ((128 <=? n2) && (n2 <=? 138) || (n2 =? 168)
                          || (n2 =? 169) || (n2 =? 175))
          || (n1 =? 129) && (n2 =? 159))%N
      then Some rest2 else None
    | 227%N, String c1 (String c2 rest2) =>
      if ((N_of_ascii c1 =? 128) && (N_of_ascii c2 =? 128))%N
      then Some rest2 else None
    | _, _ => None
    end
  | EmptyString => None
  end.

(** [str.lstrip()]: white space is removed from the front, one code point
    at a time; the fuel is the number of bytes, which is always enough. *)
Fixpoint lstrip_fuel (fuel : nat) (s : string) : string :=
  match fuel with
  | O => s
  | S fuel' =>
    match drop_space s with
    | Some rest => lstrip_fuel fuel' rest
    | None => s
    end
  end.

Definition lstrip (s : string) : string := lstrip_fuel (String.length s) s.

(** [str.rstrip()]: the longest tail made of white space only is cut. *)
Fixpoint rstrip (s : string) : string :=
  match s with
  | EmptyString => EmptyString
  | String c rest =>
    if String.eqb (lstrip s) "" then EmptyString else String c (rstrip rest)
  end.

(** [str.strip()]. *)
Definition strip (s : string) : string := rstrip (lstrip s).

(** [str.lower()] on the ASCII letters; the bytes of every other code point
    are kept (no other code point lowers to an ASCII letter of ".pdf"). *)
Definition ascii_lower (c : ascii) : ascii :=
  let n := N_of_ascii c in
  if ((65 <=? n) && (n <=? 90))%N then ascii_of_N (n + 32) else c.

Fixpoint lower (s : string) : string :=
  match s with
  | EmptyString => EmptyString
  | String c rest => String (ascii_lower c) (lower rest)
  end.

(** [s.endswith(suffix)]: [s] itself or one of its tails is [suffix]. *)
Fixpoint endswith (s suffix : string) : bool :=
  String.eqb s suffix
  || match s with
     | EmptyString => false
     | String _ rest => endswith rest suffix
     end.

(** ** Floats

    [float] is binary64, as Python's.  The operations [+], [*] and the
    comparisons are the primitive ones; what Python adds (rounding to
    decimals, conversion from unbounded integers, true division of
    integers) is defined on the specification level [spec_float], whose
    operations round to nearest, ties to even. *)

(** An integer as an unrounded binary number with exponent 0. *)
Definition Z2SF (z : Z) : spec_float :=
  match z with
  | Z0 => S754_zero false
  | Zpos p => S754_finite false p 0
  | Zneg p => S754_finite true p 0
  end.

(** [float(z)] for an [int]: correctly rounded; [OverflowError] when the
    rounded value is not finite. *)
Definition float_of_int (z : Z) : result float :=
  match binary_normalize prec emax z 0 false with
  | S754_infinity _ =>
    Raise (Exn OverflowError "int too large to convert to float")
  | sf => Ok (SF2Prim sf)
  end.

(** [a / b] on two [int]s: the correctly rounded quotient.  The callers
    below divide by [max(1, _)], so the divisor is never zero. *)
Definition int_truediv (a b : Z) : float :=
  SF2Prim (SFdiv prec emax (Z2SF a) (Z2SF b)).

(** [min(a, b)] and [max(a, b)] on floats, as the builtins compute them:
    the first argument is kept unless the second compares strictly
    smaller (larger), so a NaN second argument is never selected. *)
Definition py_min (a b : float) : float :=
  if PrimFloat.ltb b a then b else a.

Definition py_max (a b : float) : float :=
  if PrimFloat.ltb a b then b else a.

(** The integer nearest to [m * 2^e * scale], ties to even. *)
Definition round_half_even_scaled (m : positive) (e : Z) (scale : Z) : Z :=
  if 0 <=? e then Zpos m * 2 ^ e * scale
  else
    let num := Zpos m * scale in
    let den := 2 ^ (- e) in
    let q := num / den in
    let r := num mod den in
    match 2 * r ?= den with
    | Lt => q
    | Gt => q + 1
    | Eq => if Z.even q then q else q + 1
    end.

(** [round(x, ndigits)] for a float [x] and [0 <= ndigits]: the exact value
    of [x] is rounded to [ndigits] decimals, ties to even, and the decimal
    result is converted back to the nearest float.  Zeros, infinities and
    NaN round to themselves. *)
Definition py_round (x : float) (ndigits : Z) : float :=
  match Prim2SF x with
  | S754_finite s m e =>
    let scale := 10 ^ ndigits in
    match round_half_even_scaled m e scale with
    | Zpos n =>
      SF2Prim (SFdiv prec emax (S754_finite s n 0) (Z2SF scale))
    | _ => SF2Prim (S754_zero s)
    end
  | _ => x
  end.

(** ** The scoring heuristic *)

Section Scoring.
(** [float(s)] on a [str] is the interpreter's decimal parser; [None]
    stands for its [ValueError]. *)
Variable float_of_str : string → option float.

(** [float(v)]; [None] when the call raises ([TypeError] for null, lists
    and mappings, [ValueError] for a string that is no number,
    [OverflowError] for an integer out of range).  The only caller
    swallows the exception. *)
Definition py_float (v : value) : option float :=
  match v with
  | VFloat f => Some f
  | VInt z =>
    match float_of_int z with
    | Ok f => Some f
    | Raise _ => None
    end
  | VBool b => Some (if b then 1%float else 0%float)
  | VStr s => float_of_str s
  | VNone | VList _ | VDict _ => None
  end.

(** The weights of [compute_contract_score], in the order in which the
    dict literal is iterated. *)
Definition weights : list (string * Z) :=
  [ ("financial_completeness"%string, 30);
    ("party_identification"%string, 25);
    ("payment_terms_clarity"%string, 20);
    ("sla_definition"%string, 15);
    ("contact_information"%string, 10) ].

(** [score += value * weight] with [score] a float and [weight] an int.
    A float is multiplied by the weight converted to a float; an int or
    bool is multiplied exactly and converted when it is added; a string
    or list is repeated by [*] and then refused by [+]; null and
    mappings are refused by [*]. *)
Definition add_weighted (score : float) (value : value) (weight : Z)
  : result float :=
  match value with
  | VFloat f => Ok (score + f * SF2Prim (binary_normalize prec emax weight 0 false))%float
  | VInt z => f ← float_of_int (z * weight); Ok (score + f)%float
  | VBool b => f ← float_of_int (Z.b2z b * weight); Ok (score + f)%float
  | VStr _ | VList _ =>
    Raise (Exn TypeError ("unsupported operand type(s) for +=: 'float' and '"
                          +:+ type_name value +:+ "'"))
  | VNone | VDict _ =>
    Raise (Exn TypeError ("unsupported operand type(s) for *: '"
                          +:+ type_name value +:+ "' and 'int'"))
  end.

Fixpoint weighted_sum (ws : list (string * Z)) (confidence_scores : pydict)
    (score : float) : result float :=
  match ws with
  | [] => Ok score
  | (key, weight) :: ws' =>
    let value := dict_get_default confidence_scores key (VInt 0) in
    score' ← add_weighted score value weight;
    weighted_sum ws' confidence_scores score'
  end.

Definition compute_contract_score (confidence_scores : pydict) : result float :=
  score ← weighted_sum weights confidence_scores 0%float;
  Ok (py_round score 2).

(** The scoring key of each category and the extraction field it reads. *)
Definition mapping : list (string * string) :=
  [ ("financial_completeness"%string, "financial_details"%string);
    ("party_identification"%string, "party_identification"%string);
    ("payment_terms_clarity"%string, "payment_structure"%string);
    ("sla_definition"%string, "service_level_agreements"%string);
    ("contact_information"%string, "account_information"%string) ].

(** [v not in (None, "", [], {})]. *)
Definition not_blank (v : value) : bool :=
  match v with
  | VNone => false
  | VStr s => negb (String.eqb s "")
  | VList l => match l with [] => false | _ => true end
  | VDict d => negb (Nat.eqb (size d) 0)
  | VBool _ | VInt _ | VFloat _ => true
  end.

(** [sum(1 for v in val.values() if v not in (None, "", [], {}))]. *)
Definition count_not_blank (val : pydict) : Z :=
  Z.of_nat (length (filter (λ kv, not_blank kv.2 = true) (map_to_list val))).

(** The branch of the loop body that sets [derived] and may append to
    [gaps]: the derived confidence and whether the field is a gap. *)
Definition field_confidence (val : value) : float * bool :=
  match val with
  | VNone => (0%float, true)
  | VStr s => (if truthy (VStr (strip s)) then 0.9%float else 0%float, false)
  | VDict d =>
    if negb (truthy val) then (0%float, true)
    else
      let non_empty := count_not_blank d in
      let total_keys := Z.max 1 (Z.of_nat (size d)) in
      (py_min 1 (int_truediv non_empty total_keys), false)
  | _ => (if truthy val then 0.8%float else 0%float, false)
  end.

(** [float(llm_conf.get(score_key)) if score_key in llm_conf else None]
    under its [try]: on a list or a string the membership test succeeds
    and [.get] raises, on a number or bool the membership test raises;
    every exception leaves [llm_val = None]. *)
Definition llm_value (llm_conf : value) (score_key : string) : option float :=
  match llm_conf with
  | VDict d =>
    match d !! score_key with
    | Some v => py_float v
    | None => None
    end
  | _ => None
  end.

(** The end of the loop body: combine, clamp and round. *)
Definition final_score (derived : float) (llm_val : option float) : float :=
  let final_score :=
    match llm_val with
    | None => derived
    | Some l => py_max derived l
    end in
  let final_score := py_max 0 (py_min 1 final_score) in
  py_round final_score 3.

(** One iteration of [for score_key, field_key in mapping.items()]. *)
Definition score_field (extracted : pydict) (llm_conf : value)
    (acc : gmap string float * list string) (entry : string * string)
  : gmap string float * list string :=
  let '(scores, gaps) := acc in
  let '(score_key, field_key) := entry in
  let val := dict_get extracted field_key in
  let '(derived, gap) := field_confidence val in
  let gaps := if gap then gaps ++ [field_key] else gaps in
  (<[score_key := final_score derived (llm_value llm_conf score_key)]> scores,
   gaps).

(** [x or {}]. *)
Definition or_empty_dict (x : value) : value :=
  if truthy x then x else VDict ∅.

Definition derive_confidence_and_gaps (extracted : pydict)
  : gmap string float * list string :=
  let llm_conf := or_empty_dict (dict_get extracted "confidence_scores") in
  foldl (score_field extracted llm_conf) (∅, []) mapping.

End Scoring.

(** ** The typed extraction model [ExtractedContract] *)

Record ExtractedContract : Type := {
  party_identification : option pydict;
  account_information : option pydict;
  financial_details : option pydict;
  payment_structure : option pydict;
  revenue_classification : option pydict;
  service_level_agreements : option pydict;
  confidence_scores : option (gmap string float);
  gaps : option (list string)
}.

(** The keys of the six extraction categories. *)
Definition category_keys : list string :=
  [ "party_identification"%string; "account_information"%string;
    "financial_details"%string; "payment_structure"%string;
    "revenue_classification"%string; "service_level_agreements"%string ].

(** What a validator of the schema library does with a value: it accepts
    it, perhaps coerced; it rejects it, which the library reports as a
    [ValidationError] once all fields have been looked at; or, where it
    converts with [float()] and catches [TypeError] and [ValueError] only
    (as version 1 of the library does), the [OverflowError] of an integer
    too large for a float escapes from it at once. *)
Inductive validation (T : Type) : Type :=
  | Valid (t : T)
  | Invalid
  | Overflow (msg : string).
Arguments Valid {T} t.
Arguments Invalid {T}.
Arguments Overflow {T} msg.

(** A validator that can only accept or reject. *)
Definition checked {T} (o : option T) : validation T :=
  match o with
  | Some t => Valid t
  | None => Invalid
  end.

Definition accepted {T} (r : validation T) : option T :=
  match r with
  | Valid t => Some t
  | Invalid | Overflow _ => None
  end.

Section Validation.
(** What the library does with an [Optional] field that is declared
    without a default when its key is missing: version 1 fills it with
    null ([true]), version 2 requires the key and rejects ([false]). *)
Variable implicit_null : bool.
(** The validators that the schema library attaches to the annotations
    [Dict[str, Any]], [Dict[str, float]] and [List[str]].  Which values
    they coerce is the library's business; only the one that converts to
    [float] can let an exception escape. *)
Variable validate_dict_any : value → option pydict.
Variable validate_dict_float : value → validation (gmap string float).
Variable validate_list_str : value → option (list string).

(** An [Optional[T]] field: [missing] is what a missing key gives (the
    declared default, or the library's rule for a field without one), null
    is accepted, any other value goes through the validator of [T]. *)
Definition optional_field {T} (validator : value → validation T)
    (missing : validation (option T)) (v : option value)
  : validation (option T) :=
  match v with
  | None => missing
  | Some VNone => Valid None
  | Some v =>
    match validator v with
    | Valid t => Valid (Some t)
    | Invalid => Invalid
    | Overflow msg => Overflow msg
    end
  end.

(** The constructor call on the unpacked [combined]: keys that are no
    field are ignored; the fields are validated in the order of their
    declaration, the rejections are collected and raised together as one
    [ValidationError] at the end, while an exception that escapes from a
    validator ends the call where it arises. *)
Definition ExtractedContract_init (combined : pydict) : result ExtractedContract :=
  let check :=
    optional_field (λ v, checked (validate_dict_any v))
      (if implicit_null then Valid None else Invalid) in
  match optional_field validate_dict_float (Valid (Some ∅))
          (combined !! "confidence_scores") with
  | Overflow msg => Raise (Exn OverflowError msg)
  | confidence =>
    match
      p ← accepted (check (combined !! "party_identification"));
      a ← accepted (check (combined !! "account_information"));
      f ← accepted (check (combined !! "financial_details"));
      s ← accepted (check (combined !! "payment_structure"));
      r ← accepted (check (combined !! "revenue_classification"));
      l ← accepted (check (combined !! "service_level_agreements"));
      c ← accepted confidence;
      g ← accepted (optional_field (λ v, checked (validate_list_str v))
                      (Valid (Some [])) (combined !! "gaps"));
      Some (Build_ExtractedContract p a f s r l c g)
    with
    | Some validated => Ok validated
    | None => Raise (Exn ValidationError "validation error for ExtractedContract")
    end
  end.

Definition opt_value {T} (inj : T → value) (o : option T) : value :=
  match o with
  | Some t => inj t
  | None => VNone
  end.

(** [validated.dict()]: every field of the model, in declaration order. *)
Definition ExtractedContract_dict (c : ExtractedContract) : pydict :=
  <["party_identification" := opt_value VDict (party_identification c)]>
  (<["account_information" := opt_value VDict (account_information c)]>
  (<["financial_details" := opt_value VDict (financial_details c)]>
  (<["payment_structure" := opt_value VDict (payment_structure c)]>
  (<["revenue_classification" := opt_value VDict (revenue_classification c)]>
  (<["service_level_agreements" := opt_value VDict (service_level_agreements c)]>
  (<["confidence_scores" :=
       opt_value (λ m, VDict (VFloat <$> m)) (confidence_scores c)]>
  (<["gaps" := opt_value (λ l, VList (VStr <$> l)) (gaps c)]> ∅))))))).

(** The [try ... except ValidationError] around the validation: only
    that class is caught, any other exception propagates. *)
Definition validate_or_raw (combined : pydict) : result pydict :=
  match ExtractedContract_init combined with
  | Ok validated => Ok (ExtractedContract_dict validated)
  | Raise ve =>
    match exn_cls ve with
    | ValidationError => Ok combined
    | _ => Raise ve
    end
  end.

(** [combined = {**extracted1, **extracted2}] and the validation. *)
Definition merge_and_validate (extracted1 extracted2 : value) : result pydict :=
  d1 ← as_mapping extracted1;
  d2 ← as_mapping extracted2;
  validate_or_raw (dict_merge d1 d2).

Variable float_of_str : string → option float.

(** Lines 264-273: derive, merge the confidences, pick the gaps, score. *)
Definition score_document (extracted : pydict) : result pydict :=
  let '(derived_scores, derived_gaps) :=
    derive_confidence_and_gaps float_of_str extracted in
  existing ← as_mapping (or_empty_dict (dict_get extracted "confidence_scores"));
  let merged_conf := dict_merge (VFloat <$> derived_scores) existing in
  let extracted := <["confidence_scores" := VDict merged_conf]> extracted in
  let gaps_value :=
    match derived_gaps with
    | [] => dict_get_default extracted "gaps" (VList [])
    | _ => VList (VStr <$> derived_gaps)
    end in
  let extracted := <["gaps" := gaps_value]> extracted in
  score ← compute_contract_score merged_conf;
  Ok (<["score" := VFloat score]> extracted).

End Validation.

(** ** The job registry and the orchestrator *)

Inductive job_status : Type := pending | processing | completed | failed.

(** One entry of [CONTRACTS]. *)
Record Job : Type := {
  status : job_status;
  progress : Z;
  data : option pydict;
  error : option string;
  created_at : string
}.

Abbreviation registry := (gmap string Job).

(** What the run leaves behind for the proofs: the registry after each
    assignment, and the registry at each [await], the only places where
    the event loop may run a request handler (whether or not the awaited
    call really suspends). *)
Inductive event : Type :=
  | Wrote (σ : registry)
  | Suspended (σ : registry).

(** Computations of the orchestrator: the registry is mutated in place,
    an exception leaves the mutations done so far.  A run is followed on
    its own: uploads and the runs of other jobs write other entries. *)
Definition M (A : Type) : Type :=
  registry * list event → result A * (registry * list event).

#[global] Instance M_ret : MRet M := λ A a s, (Ok a, s).
#[global] Instance M_bind : MBind M := λ A B k m s,
  match m s with
  | (Ok a, s') => k a s'
  | (Raise e, s') => (Raise e, s')
  end.

(** A call that does not touch the registry. *)
Definition call {A} (r : result A) : M A := λ s, (r, s).

(** [await] of a call that does not touch the registry. *)
Definition await {A} (r : result A) : M A :=
  λ '(σ, tr), (r, (σ, tr ++ [Suspended σ])).

(** [CONTRACTS[contract_id][...] = ...]; [KeyError] for an unknown id.
    The string of a [KeyError] is the [repr] of the key; [py_repr] is the
    interpreter's [repr] on strings, whose quoting and escaping follow
    its Unicode tables. *)
Definition set_item (py_repr : string → string) (contract_id : string)
    (f : Job → Job) : M unit :=
  λ '(σ, tr),
    match σ !! contract_id with
    | Some j =>
      let σ' := <[contract_id := f j]> σ in
      (Ok tt, (σ', tr ++ [Wrote σ']))
    | None => (Raise (Exn KeyError (py_repr contract_id)), (σ, tr))
    end.

(** [try: body except Exception as e: handler(e)]. *)
Definition try_except {A} (body : M A) (handler : exn → M A) : M A :=
  λ s,
    match body s with
    | (Ok a, s') => (Ok a, s')
    | (Raise e, s') => handler e s'
    end.

Definition set_status (s : job_status) (j : Job) : Job :=
  {| status := s; progress := progress j; data := data j;
     error := error j; created_at := created_at j |}.

Definition set_progress (p : Z) (j : Job) : Job :=
  {| status := status j; progress := p; data := data j;
     error := error j; created_at := created_at j |}.

Definition set_data (d : pydict) (j : Job) : Job :=
  {| status := status j; progress := progress j; data := Some d;
     error := error j; created_at := created_at j |}.

Definition set_error (msg : string) (j : Job) : Job :=
  {| status := status j; progress := progress j; data := data j;
     error := Some msg; created_at := created_at j |}.

Definition fields1 : string :=
  "party_identification, account_information, financial_details".
Definition fields2 : string :=
  "payment_structure, revenue_classification, service_level_agreements".

Section Orchestrator.
Variable py_repr : string → string.
Variable implicit_null : bool.
Variable validate_dict_any : value → option pydict.
Variable validate_dict_float : value → validation (gmap string float).
Variable validate_list_str : value → option (list string).
Variable float_of_str : string → option float.
(** The external collaborators: text extraction from the stored PDF and
    the model call, each with the exception it may raise. *)
Variable extract_text_from_pdf : string → result string.
Variable call_groq : string → string → result value.

#[local] Abbreviation set_item := (set_item py_repr).

(** Lines 253-273, between the second model call and the final writes. *)
Definition build_document (extracted1 extracted2 : value) : result pydict :=
  extracted ← merge_and_validate implicit_null validate_dict_any
                validate_dict_float validate_list_str extracted1 extracted2;
  score_document float_of_str extracted.

(** The body of the [try]. *)
Definition process_body (contract_id file_path : string) : M unit :=
  contract_text ← call (extract_text_from_pdf file_path);
  set_item contract_id (set_progress 40);;
  extracted1 ← await (call_groq contract_text fields1);
  extracted2 ← await (call_groq contract_text fields2);
  extracted ← call (build_document extracted1 extracted2);
  set_item contract_id (set_data extracted);;
  set_item contract_id (set_status completed);;
  set_item contract_id (set_progress 100).

Definition process_contract (contract_id file_path : string) : M unit :=
  set_item contract_id (set_status processing);;
  set_item contract_id (set_progress 10);;
  try_except (process_body contract_id file_path)
    (λ e,
      set_item contract_id (set_status failed);;
      set_item contract_id (set_error (exn_str e));;
      set_item contract_id (set_progress 100)).

End Orchestrator.

(** ** The upload endpoint *)

(** The state of the application: the two registries, the files written
    under [UPLOAD_DIR], and the background tasks handed to the framework. *)
Record app : Type := {
  CONTRACTS : registry;
  CONTRACT_FILES : gmap string string;
  uploaded : gmap string string;
  background_tasks : list (string * string)
}.

Inductive response : Type :=
  | Response200 (body : pydict)
  | HTTPException (status_code : Z) (detail : string).

Definition UPLOAD_DIR : string := "uploaded_contracts".

(** The record a new job starts with. *)
Definition new_job : Job :=
  {| status := pending; progress := 0; data := None; error := None;
     created_at := "2025-09-07T00:00:00Z" |}.

(** [upload_contract]: [filename] and [content] are the uploaded file,
    [contract_id] is the string that [uuid.uuid4()] returns. *)
Definition upload_contract (filename content contract_id : string) (a : app)
  : response * app :=
  if negb (endswith (lower filename) ".pdf") then
    (HTTPException 400 "Only PDF files are supported.", a)
  else
    let file_path := UPLOAD_DIR +:+ "/" +:+ contract_id +:+ ".pdf" in
    (Response200 {[ "contract_id" := VStr contract_id ]},
     {| CONTRACTS := <[contract_id := new_job]> (CONTRACTS a);
        CONTRACT_FILES := <[contract_id := file_path]> (CONTRACT_FILES a);
        uploaded := <[file_path := content]> (uploaded a);
        background_tasks := background_tasks a ++ [(contract_id, file_path)] |}).

(** ** Concrete instances of the collaborators

    The theorems below hold for every choice of the validators, of the
    string-to-float parser and of the external calls.  The instances here
    are used to run the embedding on concrete documents.  The strict
    validators accept exactly the JSON type that the annotation names (a
    [str] where a mapping is annotated is rejected) and never let an
    exception escape; the coercing validator of [Dict[str, float]]
    converts every value with [float()], as version 1 of the library
    does; the parser reads unsigned decimals such as "0.6", correctly
    rounded. *)

Definition strict_dict_any (v : value) : option pydict :=
  match v with
  | VDict d => Some d
  | _ => None
  end.

Definition number_as_float (v : value) : option float :=
  match v with
  | VFloat f => Some f
  | VInt z =>
    match float_of_int z with
    | Ok f => Some f
    | Raise _ => None
    end
  | _ => None
  end.

Definition strict_dict_float (v : value) : validation (gmap string float) :=
  match v with
  | VDict d =>
    let m := omap number_as_float d in
    if decide (size m = size d) then Valid m else Invalid
  | _ => Invalid
  end.

Definition strict_list_str (v : value) : option (list string) :=
  match v with
  | VList l => mapM (λ x, match x with VStr s => Some s | _ => None end) l
  | _ => None
  end.

(** The [repr] of a string of printable ASCII characters other than the
    quote and the backslash, such as the ids that [uuid4] produces. *)
Definition plain_repr (s : string) : string := "'" +:+ s +:+ "'".

Definition digit_of (c : ascii) : option Z :=
  let n := Z.of_N (N_of_ascii c) in
  if (48 <=? n) && (n <=? 57) then Some (n - 48) else None.

(** Reads digits with at most one point: the digits read so far as an
    integer, and the number of digits after the point. *)
Fixpoint read_decimal (s : string) (acc : Z) (frac : option Z) : option (Z * Z) :=
  match s with
  | EmptyString => Some (acc, default 0 frac)
  | String c rest =>
    if Ascii.eqb c "." then
      match frac with
      | None => read_decimal rest acc (Some 0)
      | Some _ => None
      end
    else
      d ← digit_of c;
      read_decimal rest (10 * acc + d) (Z.succ <$> frac)
  end.

Definition decimal_float_of_str (s : string) : option float :=
  match s with
  | EmptyString | String "." EmptyString => None
  | _ =>
    '(n, k) ← read_decimal s 0 None;
    Some (SF2Prim (SFdiv prec emax (Z2SF n) (Z2SF (10 ^ k))))
  end.

(** [float(v)], as version 1 of the library applies it to a value of a
    [Dict[str, float]]: a [TypeError] or [ValueError] is a rejection, the
    [OverflowError] of an integer too large escapes. *)
Definition coerce_float (v : value) : validation float :=
  match v with
  | VFloat f => Valid f
  | VInt z =>
    match float_of_int z with
    | Ok f => Valid f
    | Raise e => Overflow (exn_str e)
    end
  | VBool b => Valid (if b then 1%float else 0%float)
  | VStr s => checked (decimal_float_of_str s)
  | VNone | VList _ | VDict _ => Invalid
  end.

Definition coercing_dict_float (v : value) : validation (gmap string float) :=
  match v with
  | VDict d =>
    match omap (λ kv, match coerce_float kv.2 with
                      | Overflow msg => Some msg
                      | _ => None
                      end) (map_to_list d) with
    | msg :: _ => Overflow msg
    | [] =>
      let m := omap (λ v, accepted (coerce_float v)) d in
      if decide (size m = size d) then Valid m else Invalid
    end
  | _ => Invalid
  end.

(** ** Definitions used to state the properties *)

(** [0 <= x <= c] on floats; false when [x] is a NaN. *)
Definition in_range (x c : float) : bool :=
  (PrimFloat.leb 0 x && PrimFloat.leb x c)%bool.

(** A confidence value in [[0, 1]]: a float in that range, the integers 0
    and 1, or a bool. *)
Definition in_unit (v : value) : bool :=
  match v with
  | VFloat f => in_range f 1
  | VInt z => (0 <=? z) && (z <=? 1)
  | VBool _ => true
  | _ => false
  end.

(** The value [m * 2^e], scaled by [2^K] so that it is an integer. *)
Definition dyadic (K m e : Z) : Z := m * 2 ^ (e + K).
Arguments dyadic : simpl never.

(** The scaled value of a non-negative finite number. *)
Definition sfval (K : Z) (x : spec_float) : Z :=
  match x with
  | S754_finite false m e => dyadic K (Zpos m) e
  | _ => 0
  end.

Definition nonneg_finite (x : spec_float) : bool :=
  match x with
  | S754_zero _ | S754_finite false _ _ => true
  | _ => false
  end.

(** What [k] right shifts of the mantissa [m] have produced: the quotient,
    and flags that are raised only when bits were lost. *)
Definition shr_inv (m : Z) (k : Z) (mrs : shr_record) : Prop :=
  shr_m mrs = m / 2 ^ k ∧ (orb (shr_r mrs) (shr_s mrs) = true → m mod 2 ^ k ≠ 0).

(** The quotients [n / scale], for [1 <= n <= bound], all lie in [[0, c]]. *)
Definition decimal_table_ok (scale : Z) (bound : nat) (c : float) : bool :=
  forallb
    (λ n, in_range (SF2Prim (SFdiv prec emax (S754_finite false (Pos.of_nat n) 0)
                                   (Z2SF scale))) c)
    (seq 1 bound).

(** The values that do not count as filled: null, the empty string, the
    empty list and the empty mapping. *)
Definition blank (v : value) : Prop :=
  v = VNone ∨ v = VStr "" ∨ v = VList [] ∨ v = VDict ∅.

#[global] Instance blank_dec v : Decision (blank v).
Proof.
  unfold blank. destruct v as [| | | |s|l|d].
  - left; auto.
  - right; intros [|[|[|]]]; discriminate.
  - right; intros [|[|[|]]]; discriminate.
  - right; intros [|[|[|]]]; discriminate.
  - destruct (decide (s = ""%string)) as [->|Hs]; [left; auto|].
    right; intros [|[|[|]]]; congruence.
  - destruct l as [|x l]; [left; auto|].
    right; intros [|[|[|]]]; discriminate.
  - destruct (decide (d = ∅)) as [->|Hd]; [left; auto|].
    right; intros [|[|[|]]]; congruence.
Defined.

(** The derivation of the loop body as one function of the field value,
    still in terms of the builtins of the embedding; the rule of the
    specification itself is [derived_confidence] below. *)
Definition spec_derived (v : value) : float :=
  match v with
  | VNone => 0%float
  | VStr s => if decide (strip s = ""%string) then 0%float else 0.9%float
  | VDict d =>
    if decide (d = ∅) then 0%float
    else
      let filled := length (filter (λ kv, ¬ blank kv.2) (map_to_list d)) in
      py_min 1 (int_truediv (Z.of_nat filled) (Z.max 1 (Z.of_nat (size d))))
  | _ => if truthy v then 0.8%float else 0%float
  end.

(** A field is a gap when it is null (or missing) or an empty mapping. *)
Definition spec_gap (v : value) : Prop := v = VNone ∨ v = VDict ∅.

#[global] Instance spec_gap_dec v : Decision (spec_gap v).
Proof.
  unfold spec_gap. destruct v as [| | | |s|l|d]; try (right; intros [|]; discriminate).
  - left; auto.
  - destruct (decide (d = ∅)) as [->|Hd]; [left; auto|].
    right; intros [|]; congruence.
Defined.

(** The confidence that the loop body reads for a category, still in
    terms of the conversion of the embedding; the rule of the
    specification itself is [supplied_confidence] below. *)
Definition external_confidence (float_of_str : string → option float)
    (extracted : pydict) (score_key : string) : option float :=
  match extracted !! "confidence_scores" with
  | Some (VDict c) => c !! score_key ≫= py_float float_of_str
  | _ => None
  end.

(** Clamping to [[0, 1]], as the source writes it. *)
Definition clamp01 (x : float) : float := py_max 0 (py_min 1 x).

(** The successive records of one job in a trace, and the records that a
    request handler can see (those at an [await]). *)
Definition written (contract_id : string) (tr : list event) : list Job :=
  omap (λ ev, match ev with Wrote σ => σ !! contract_id | Suspended _ => None end) tr.

Definition observed (contract_id : string) (tr : list event) : list Job :=
  omap (λ ev, match ev with Suspended σ => σ !! contract_id | Wrote _ => None end) tr.

(** The transitions of the job state machine; a write that keeps the
    status is no transition. *)
Definition status_step (s s' : job_status) : Prop :=
  s = s'
  ∨ (s = pending ∧ s' = processing)
  ∨ (s = processing ∧ (s' = completed ∨ s' = failed)).

(** One assignment to the record moves the job forward. *)
Definition job_step (j j' : Job) : Prop :=
  status_step (status j) (status j') ∧ progress j ≤ progress j'.

(** Consecutive elements of a list are related. *)
Fixpoint chain {A} (R : A → A → Prop) (a : A) (l : list A) : Prop :=
  match l with
  | [] => True
  | b :: l' => R a b ∧ chain R b l'
  end.

(** The invariant of a job record at rest. *)
Definition job_consistent (j : Job) : Prop :=
  (data j ≠ None ↔ status j = completed)
  ∧ (error j ≠ None ↔ status j = failed).

(** What one iteration of the loop of [derive_confidence_and_gaps]
    contributes: the score of the category and whether its field is a gap. *)
Definition field_score (float_of_str : string → option float)
    (extracted : pydict) (llm_conf : value) (entry : string * string) : float :=
  final_score (field_confidence (dict_get extracted entry.2)).1
    (llm_value float_of_str llm_conf entry.1).

Definition field_is_gap (extracted : pydict) (field_key : string) : bool :=
  (field_confidence (dict_get extracted field_key)).2.

(** One step of the range proof of the weighted sum: [lem] bounds the next
    term, [Hs] bounds the score so far by [A], and [C] is the next bound. *)
Ltac weighted_step lem Hunit Hs A C :=
  lazymatch goal with
  | |- context [add_weighted ?s (dict_get_default ?d ?k ?v) ?w] =>
    let Hv := fresh "Hv" in
    assert (Hv : in_unit (dict_get_default d k v) = true)
      by (apply (Hunit k w); compute_done);
    let s' := fresh "score" in
    let Hs' := fresh "Hs" in
    let Heq := fresh "Heq" in
    destruct (lem s (dict_get_default d k v) w A C _ _ _ _
                eq_refl ltac:(done) eq_refl eq_refl eq_refl eq_refl
                ltac:(by vm_compute) Hv Hs) as (s' & Heq & Hs');
    rewrite Heq; cbn [mbind result_bind]
  end.

(** ** Concrete documents

    The document and the scores of the repository's unit test of the two
    helpers, and the two group results of its end-to-end test. *)
Definition sample_extracted : pydict :=
  {[ "financial_details" := VDict {[ "total" := VInt 200; "tax" := VInt 20 ]};
     "party_identification" := VDict {[ "name" := VStr "Foo" ]};
     "payment_structure" := VStr "Net 30";
     "service_level_agreements" := VDict ∅;
     "account_information" := VNone;
     "confidence_scores" := VDict {[ "payment_terms_clarity" := VFloat 0.6 ]} ]}.

Definition test_scores : pydict :=
  {[ "financial_completeness" := VFloat 0.5;
     "party_identification" := VFloat 1.0;
     "payment_terms_clarity" := VFloat 0.2;
     "sla_definition" := VFloat 0.0;
     "contact_information" := VFloat 0.0 ]}.

Definition group1_result : pydict :=
  {[ "party_identification" := VDict {[ "name" := VStr "ACME Corp" ]};
     "account_information" := VDict {[ "billing" := VStr "123 Main St" ]};
     "financial_details" := VDict {[ "total" := VInt 1000 ]};
     "confidence_scores" := VDict {[ "financial_completeness" := VFloat 0.8 ]} ]}.

Definition group2_result : pydict :=
  {[ "payment_structure" := VDict {[ "terms" := VStr "Net 30" ]};
     "revenue_classification" := VDict {[ "type" := VStr "recurring" ]};
     "service_level_agreements" := VDict {[ "uptime" := VStr "99.9" ]} ]}.

(** What the scoring step attaches to a document: its [score],
    [confidence_scores] and [gaps] entries. *)
Definition scoring_outcome (float_of_str : string → option float)
    (extracted : pydict) : result (option value * option value * option value) :=
  doc ← score_document float_of_str extracted;
  Ok (doc !! "score", doc !! "confidence_scores", doc !! "gaps").

(** The document that the pipeline builds from the two group results of
    the end-to-end test, under the concrete collaborators. *)
Definition test_document : pydict :=
  match build_document true strict_dict_any strict_dict_float strict_list_str
          decimal_float_of_str (VDict group1_result) (VDict group2_result) with
  | Ok doc => doc
  | Raise _ => ∅
  end.

(** ** The run of one job, seen from its own record

    [process_contract] touches one entry of the registry.  The definitions
    below replay the run on that entry alone; the registry-level run is
    shown to be this one, lifted. *)

Inductive job_event : Type :=
  | JWrote (j : Job)
  | JSuspended (j : Job).

Definition lift_event (σ : registry) (contract_id : string) (ev : job_event)
  : event :=
  match ev with
  | JWrote j => Wrote (<[contract_id := j]> σ)
  | JSuspended j => Suspended (<[contract_id := j]> σ)
  end.

(** The three assignments of the exception handler. *)
Definition failure_events (e : exn) (j : Job) : list job_event :=
  [ JWrote (set_status failed j);
    JWrote (set_error (exn_str e) (set_status failed j));
    JWrote (set_progress 100 (set_error (exn_str e) (set_status failed j))) ].

(** The three assignments that end a successful run. *)
Definition success_events (doc : pydict) (j : Job) : list job_event :=
  [ JWrote (set_data doc j);
    JWrote (set_status completed (set_data doc j));
    JWrote (set_progress 100 (set_status completed (set_data doc j))) ].

Section JobRun.
Variable implicit_null : bool.
Variable validate_dict_any : value → option pydict.
Variable validate_dict_float : value → validation (gmap string float).
Variable validate_list_str : value → option (list string).
Variable float_of_str : string → option float.
Variable extract_text_from_pdf : string → result string.
Variable call_groq : string → string → result value.

(** What the body of the [try] computes: the final document, or the
    exception that aborts the run. *)
Definition pipeline_result (file_path : string) : result pydict :=
  contract_text ← extract_text_from_pdf file_path;
  extracted1 ← call_groq contract_text fields1;
  extracted2 ← call_groq contract_text fields2;
  build_document implicit_null validate_dict_any validate_dict_float
    validate_list_str float_of_str extracted1 extracted2.

(** The events of the body of the [try], from the record [j] at its entry. *)
Definition body_events (file_path : string) (j : Job) : list job_event :=
  match extract_text_from_pdf file_path with
  | Raise e => failure_events e j
  | Ok contract_text =>
    let j := set_progress 40 j in
    JWrote j :: JSuspended j ::
    match call_groq contract_text fields1 with
    | Raise e => failure_events e j
    | Ok extracted1 =>
      JSuspended j ::
      match call_groq contract_text fields2 with
      | Raise e => failure_events e j
      | Ok extracted2 =>
        match build_document implicit_null validate_dict_any
                validate_dict_float validate_list_str float_of_str
                extracted1 extracted2 with
        | Raise e => failure_events e j
        | Ok doc => success_events doc j
        end
      end
    end
  end.

Definition job_events (file_path : string) (j : Job) : list job_event :=
  let j1 := set_status processing j in
  let j2 := set_progress 10 j1 in
  JWrote j1 :: JWrote j2 :: body_events file_path j2.

End JobRun.

(** The record after the last write of a list of events. *)
Definition last_written (j : Job) (evs : list job_event) : Job :=
  foldl (λ acc ev, match ev with JWrote j' => j' | JSuspended _ => acc end) j evs.

(** A job as the upload endpoint creates it. *)
Definition fresh_job (j : Job) : Prop :=
  status j = pending ∧ progress j = 0 ∧ data j = None ∧ error j = None.

Definition jwritten (evs : list job_event) : list Job :=
  omap (λ ev, match ev with JWrote j => Some j | JSuspended _ => None end) evs.

Definition jobserved (evs : list job_event) : list Job :=
  omap (λ ev, match ev with JSuspended j => Some j | JWrote _ => None end) evs.

(** Collaborators for concrete runs: a PDF that cannot be read, and a run
    in which the text is extracted and the model answers with the two
    group results of the end-to-end test. *)
Definition unreadable_pdf (file_path : string) : result string :=
  Raise (Exn (OtherException "PDFSyntaxError") "No /Root object! - Is this really a PDF?").

Definition readable_pdf (file_path : string) : result string :=
  Ok "This is a fake contract text describing parties and payment terms."%string.

Definition fake_call_groq (contract_text fields : string) : result value :=
  if String.eqb fields fields1 then Ok (VDict group1_result)
  else Ok (VDict group2_result).

Definition empty_app : app :=
  {| CONTRACTS := ∅; CONTRACT_FILES := ∅; uploaded := ∅; background_tasks := [] |}.

(** The registry after the upload of "sample.pdf" under the id "job-1". *)
Definition uploaded_registry : registry :=
  CONTRACTS (upload_contract "sample.pdf" "%PDF-1.4" "job-1" empty_app).2.

(** ** The read endpoints

    A handler either returns its body, raises an [HTTPException] (which
    the framework turns into that status and detail), or lets another
    exception escape (which the framework turns into a 500). *)

Inductive http (A : Type) : Type :=
  | Reply (a : A)
  | HTTPError (status_code : Z) (detail : string)
  | Unhandled (e : exn).
Arguments Reply {A} a.
Arguments HTTPError {A} status_code detail.
Arguments Unhandled {A} e.

(** The string stored under ["status"]. *)
Definition status_name (s : job_status) : string :=
  match s with
  | pending => "pending"
  | processing => "processing"
  | completed => "completed"
  | failed => "failed"
  end.

Module ContractStatus.
Record t : Type := {
  contract_id : string;
  status : string;
  progress : Z;
  error : option string
}.
End ContractStatus.

Module ContractData.
Record t : Type := {
  contract_id : string;
  data : pydict;
  confidence_scores : gmap string float;
  gaps : list string;
  score : float
}.
End ContractData.

Module ContractListItem.
Record t : Type := {
  contract_id : string;
  status : string;
  created_at : string;
  score : option float
}.
End ContractListItem.

Module FileResponse.
Record t : Type := {
  path : string;
  media_type : string;
  filename : string
}.
End FileResponse.

(** [get_contract_status]: a record of the registry is a non-empty dict,
    so [not contract] holds for an unknown id only. *)
Definition get_contract_status (σ : registry) (contract_id : string)
  : http ContractStatus.t :=
  match σ !! contract_id with
  | None => HTTPError 404 "Contract not found."
  | Some contract =>
    Reply {| ContractStatus.contract_id := contract_id;
             ContractStatus.status := status_name (status contract);
             ContractStatus.progress := progress contract;
             ContractStatus.error := error contract |}
  end.

(** [{k: data.get(k) for k in [...]}] over the six category keys. *)
Definition category_view (data : pydict) : pydict :=
  list_to_map ((λ k, (k, dict_get data k)) <$> category_keys).

Section ReadEndpoints.
(** The validators of the response models, as for [ExtractedContract];
    [validate_float] is the one of the annotation [float]. *)
Variable validate_dict_float : value → validation (gmap string float).
Variable validate_list_str : value → option (list string).
Variable validate_float : value → validation float.
(** The order in which [CONTRACTS.items()] yields the records. *)
Variable items : registry → list (string * Job).

(** A field that is not [Optional]: null is rejected. *)
Definition required_field {T} (validator : value → validation T) (v : value)
  : validation T :=
  match v with
  | VNone => Invalid
  | _ => validator v
  end.

(** The exception of a model constructor whose fields were validated in
    the order given: the first escaped exception, else the collected
    rejections. *)
Fixpoint validation_error (model : string) (escaped : list (option string))
  : exn :=
  match escaped with
  | Some msg :: _ => Exn OverflowError msg
  | None :: rest => validation_error model rest
  | [] => Exn ValidationError ("validation error for " +:+ model)
  end.

Definition escaped {T} (r : validation T) : option string :=
  match r with
  | Overflow msg => Some msg
  | Valid _ | Invalid => None
  end.

(** [get_contract_data].  The dict built for the field [data] has string
    keys, so it is a [Dict[str, Any]]; the three other fields are read
    from the stored document and validated. *)
Definition get_contract_data (σ : registry) (contract_id : string)
  : http ContractData.t :=
  match σ !! contract_id with
  | None => HTTPError 404 "Contract not found."
  | Some contract =>
    match status contract with
    | completed =>
      match data contract with
      | None =>
        Unhandled (Exn (OtherException "AttributeError")
                       "'NoneType' object has no attribute 'get'")
      | Some data =>
        let c := required_field validate_dict_float
                   (dict_get_default data "confidence_scores" (VDict ∅)) in
        let g := required_field (λ v, checked (validate_list_str v))
                   (dict_get_default data "gaps" (VList [])) in
        let s := required_field validate_float
                   (dict_get_default data "score" (VFloat 0)) in
        match
          c ← accepted c; g ← accepted g; s ← accepted s;
          Some {| ContractData.contract_id := contract_id;
                  ContractData.data := category_view data;
                  ContractData.confidence_scores := c;
                  ContractData.gaps := g;
                  ContractData.score := s |}
        with
        | Some body => Reply body
        | None =>
          Unhandled (validation_error "ContractData"
                       [escaped c; escaped g; escaped s])
        end
      end
    | _ => HTTPError 400 "Contract processing not complete."
    end
  end.

(** [status and c["status"] != status] is false: the record is listed. *)
Definition listed (status_filter : option string) (c : Job) : bool :=
  match status_filter with
  | None => true
  | Some s => String.eqb s "" || String.eqb (status_name (status c)) s
  end.

(** The [score] that the loop body passes to [ContractListItem]: null
    unless the record holds a non-empty document. *)
Definition listed_score (c : Job) : value :=
  match data c with
  | Some d => if truthy (VDict d) then dict_get d "score" else VNone
  | None => VNone
  end.

(** The construction of one [ContractListItem]; [score] is
    [Optional[float]]. *)
Definition list_item (entry : string * Job) : result ContractListItem.t :=
  let '(cid, c) := entry in
  let score := optional_field validate_float (Valid None)
                 (Some (listed_score c)) in
  match accepted score with
  | Some score =>
    Ok {| ContractListItem.contract_id := cid;
          ContractListItem.status := status_name (status c);
          ContractListItem.created_at := created_at c;
          ContractListItem.score := score |}
  | None => Raise (validation_error "ContractListItem" [escaped score])
  end.

(** The loop of [list_contracts] over the records still to visit. *)
Fixpoint list_loop (status_filter : option string) (entries : list (string * Job))
    (acc : list ContractListItem.t) : result (list ContractListItem.t) :=
  match entries with
  | [] => Ok acc
  | entry :: rest =>
    if negb (listed status_filter entry.2) then list_loop status_filter rest acc
    else
      item ← list_item entry;
      list_loop status_filter rest (acc ++ [item])
  end.

Definition list_contracts (status_filter : option string) (σ : registry)
  : http (list ContractListItem.t) :=
  match list_loop status_filter (items σ) [] with
  | Ok l => Reply l
  | Raise e => Unhandled e
  end.

End ReadEndpoints.

(** [download_contract]: [os.path.exists] holds for the files written by
    the uploads. *)
Definition download_contract (a : app) (contract_id : string)
  : http FileResponse.t :=
  match CONTRACT_FILES a !! contract_id with
  | Some file_path =>
    if negb (truthy (VStr file_path))
       || negb (bool_decide (is_Some (uploaded a !! file_path)))
    then HTTPError 404 "File not found."
    else Reply {| FileResponse.path := file_path;
                  FileResponse.media_type := "application/pdf";
                  FileResponse.filename := contract_id +:+ ".pdf" |}
  | None => HTTPError 404 "File not found."
  end.

(** ** Text extraction *)

Definition newline : string := String "010"%char EmptyString.

(** The loop of [extract_text_from_pdf]: each page yields its text, null
    when it has none, or raises; [null + "\n"] is a [TypeError]. *)
Fixpoint join_pages (pages : list (result (option string))) (text : string)
  : result string :=
  match pages with
  | [] => Ok text
  | page :: rest =>
    extracted ← page;
    match extracted with
    | Some s => join_pages rest (text +:+ (s +:+ newline))
    | None =>
      Raise (Exn TypeError "unsupported operand type(s) for +: 'NoneType' and 'str'")
    end
  end.

Section Pdf.
(** [pdfplumber.open(path).pages], each page with the outcome of its
    [extract_text()]; opening the file may raise. *)
Variable open_pdf : string → result (list (result (option string))).

Definition extract_text_from_pdf (pdf_path : string) : result string :=
  pages ← open_pdf pdf_path;
  join_pages pages "".

End Pdf.

(** ** The model call *)

Definition ensure_json_prompt (contract_text fields : string) : string :=
  newline
  +:+ "Extract the following fields from the contract text." +:+ newline
  +:+ "Return a JSON object with these keys:" +:+ newline
  +:+ fields +:+ "." +:+ newline
  +:+ "For each field, if data is missing, set its value to null or an empty list/object as appropriate."
  +:+ newline
  +:+ "Also include a 'confidence_scores' object (field: score 0-1), and a 'gaps' array listing missing critical fields."
  +:+ newline
  +:+ "Return ONLY valid JSON. No markdown, no explanations, no backticks."
  +:+ newline
  +:+ newline
  +:+ "Contract text:" +:+ newline
  +:+ contract_text +:+ newline.

(** The tail of [s] from its first opening brace. *)
Fixpoint from_first_brace (s : string) : option string :=
  match s with
  | EmptyString => None
  | String c rest =>
    if Ascii.eqb c "{" then Some s else from_first_brace rest
  end.

(** The head of [s] up to its last closing brace. *)
Fixpoint upto_last_brace (s : string) : option string :=
  match s with
  | EmptyString => None
  | String c rest =>
    match upto_last_brace rest with
    | Some head => Some (String c head)
    | None => if Ascii.eqb c "}" then Some (String c EmptyString) else None
    end
  end.

(** [re.search(r"\{.*\}", text, re.DOTALL)]: the leftmost match starts at
    the first opening brace, and the greedy [.*], which also matches line
    breaks, runs to the last closing brace after it; a later start cannot
    match when the first one does not. *)
Definition re_search_braces (text : string) : option string :=
  tail ← from_first_brace text;
  upto_last_brace tail.

(** [v.get(key, dflt)]: an [AttributeError] on anything but a dict. *)
Definition py_get (v : value) (key : string) (dflt : value) : result value :=
  match v with
  | VDict d => Ok (dict_get_default d key dflt)
  | _ =>
    Raise (Exn (OtherException "AttributeError")
               ("'" +:+ type_name v +:+ "' object has no attribute 'get'"))
  end.

(** The first code point of a string, read from its UTF-8 bytes. *)
Definition first_code_point (c : ascii) (rest : string) : string :=
  let n := N_of_ascii c in
  let more :=
    if (n <? 192)%N then 0%nat
    else if (n <? 224)%N then 1%nat
    else if (n <? 240)%N then 2%nat
    else 3%nat in
  String c (substring 0 more rest).

(** [v[0]]. *)
Definition py_index0 (v : value) : result value :=
  match v with
  | VList (x :: _) => Ok x
  | VList [] => Raise (Exn (OtherException "IndexError") "list index out of range")
  | VStr (String c rest) => Ok (VStr (first_code_point c rest))
  | VStr EmptyString =>
    Raise (Exn (OtherException "IndexError") "string index out of range")
  | VDict _ => Raise (Exn KeyError "0")
  | VNone | VBool _ | VInt _ | VFloat _ =>
    Raise (Exn TypeError ("'" +:+ type_name v +:+ "' object is not subscriptable"))
  end.

(** [data.get("choices", [])[0].get("message", {}).get("content")]. *)
Definition message_content (data : value) : result value :=
  choices ← py_get data "choices" (VList []);
  choice ← py_index0 choices;
  message ← py_get choice "message" (VDict ∅);
  py_get message "content" VNone.

(** The [try ... except Exception] that reads the text of the first
    choice: the chat shape first, the completion shape when that raises. *)
Definition choice_text (data : value) : result value :=
  match message_content data with
  | Ok text => Ok text
  | Raise _ =>
    choices ← py_get data "choices" VNone;
    if truthy choices then
      choices ← py_get data "choices" (VList []);
      choice ← py_index0 choices;
      py_get choice "text" VNone
    else Ok VNone
  end.

(** [data.get("response") or data.get("message") or data.get("content")]. *)
Definition fallback_text (data : value) : result value :=
  response ← py_get data "response" VNone;
  if truthy response then Ok response else
  message ← py_get data "message" VNone;
  if truthy message then Ok message else
  py_get data "content" VNone.

(** What [httpx] hands back: the status and the outcome of [resp.json()]. *)
Record httpx_response : Type := {
  status_code : Z;
  json : result value
}.

Section Groq.
(** [json.loads] and [repair_json], each with the exception it may raise,
    and the message of the [TypeError] that [re.search] raises on a
    value that is no string. *)
Variable json_loads : string → result value.
Variable repair_json : string → result string.
Variable search_type_error : value → string.
(** [os.environ.get("GROQ_API_KEY")], and the chat completion request
    with that key and the prompt as its only message; the URL, the model
    name and the temperature are constants of the code. *)
Variable api_key : option string.
Variable post : string → string → result httpx_response.

Definition _extract_json_from_text (text : value) : result value :=
  if negb (truthy text) then
    Raise (Exn ValueError "No response text to parse from LLM.")
  else
    match text with
    | VStr s =>
      let s := default s (re_search_braces s) in
      match json_loads s with
      | Ok v => Ok v
      | Raise _ =>
        fixed ← repair_json s;
        json_loads fixed
      end
    | _ => Raise (Exn TypeError (search_type_error text))
    end.

Definition call_groq (contract_text fields : string) : result value :=
  let prompt := ensure_json_prompt contract_text fields in
  match api_key with
  | Some key =>
    if negb (truthy (VStr key)) then
      Raise (Exn (OtherException "RuntimeError") "GROQ_API_KEY not configured")
    else
      resp ← post key prompt;
      if (status_code resp <? 200) || (300 <=? status_code resp) then
        Raise (Exn (OtherException "RuntimeError")
                   ("Groq API returned status " +:+ pretty (status_code resp)))
      else
        data ← json resp;
        text ← choice_text data;
        text ← (if negb (truthy text) then fallback_text data else Ok text);
        if negb (truthy text) then Raise (Exn ValueError "No response from LLM.")
        else _extract_json_from_text text
  | None =>
    Raise (Exn (OtherException "RuntimeError") "GROQ_API_KEY not configured")
  end.

End Groq.

(** ** Definitions used to state the properties of these functions *)

(** No character of [s] is [c]. *)
Fixpoint lacks (c : ascii) (s : string) : bool :=
  match s with
  | EmptyString => true
  | String c' rest => negb (Ascii.eqb c' c) && lacks c rest
  end.

(** The places of a response body where the text of the model is looked
    for: the content of the message of the first choice, the text of the
    first choice, and the entries response, message and content. *)
Definition body_entry (d : pydict) (key : string) : list value :=
  option_list (d !! key).

Definition body_texts (data : pydict) : list value :=
  match data !! "choices" with
  | Some (VList (VDict choice :: _)) =>
    match choice !! "message" with
    | Some (VDict message) => body_entry message "content"
    | _ => []
    end ++ body_entry choice "text"
  | _ => []
  end ++ body_entry data "response" ++ body_entry data "message"
      ++ body_entry data "content".

(** A stored document as the scoring step leaves it: a float score, a
    mapping of confidences and an entry for the gaps. *)
Definition scored (d : pydict) : Prop :=
  (∃ s, d !! "score" = Some (VFloat s))
  ∧ (∃ m, d !! "confidence_scores" = Some (VDict m))
  ∧ is_Some (d !! "gaps").

(** The path under which the upload of [contract_id] is stored. *)
Definition stored_path (contract_id : string) : string :=
  UPLOAD_DIR +:+ "/" +:+ contract_id +:+ ".pdf".

(** The values that [score += value * weight] accepts: numbers, and among
    them those that can never overflow. *)
Definition is_number (v : value) : bool :=
  match v with
  | VBool _ | VInt _ | VFloat _ => true
  | _ => false
  end.

Definition is_float_or_bool (v : value) : bool :=
  match v with
  | VBool _ | VFloat _ => true
  | _ => false
  end.

(** The keys that the scoring step writes into the document. *)
Definition scoring_keys : list string :=
  [ "confidence_scores"%string; "gaps"%string; "score"%string ].

(** The document of the unit test, after the scoring step. *)
Definition sample_scored : pydict :=
  match score_document decimal_float_of_str sample_extracted with
  | Ok doc => doc
  | Raise _ => ∅
  end.

(** Every document of the registry has been through the scoring step. *)
Definition registry_scored (σ : registry) : Prop :=
  map_Forall (λ _ c, ∀ d, data c = Some d → scored d) σ.

(** The registries that the run of a job shows at its [await]s. *)
Definition suspended (tr : list event) : list registry :=
  omap (λ ev, match ev with Suspended σ => Some σ | Wrote _ => None end) tr.

(** The validator of [float] on JSON numbers. *)
Definition strict_float (v : value) : validation float :=
  checked (number_as_float v).

(** The registry of the end-to-end test after the run of its job. *)
Definition completed_registry : registry :=
  {[ "job-1"%string :=
       {| status := completed; progress := 100; data := Some test_document;
          error := None; created_at := "2025-09-07T00:00:00Z" |} ]}.

(** The application after the end-to-end test and a second upload, whose
    job is still pending. *)
Definition second_upload : app :=
  (upload_contract "second.pdf" "%PDF-1.4" "job-2"
     {| CONTRACTS := completed_registry;
        CONTRACT_FILES := {[ "job-1"%string := stored_path "job-1" ]};
        uploaded := {[ stored_path "job-1" := "%PDF-1.4"%string ]};
        background_tasks := [] |}).2.

(** The registry of the end-to-end test while its job is suspended. *)
Definition polled_registry : registry :=
  <["job-1"%string :=
      set_progress 40 (set_progress 10 (set_status processing new_job))]>
    uploaded_registry.

(** The replies of the data endpoint and of the listing on the registry
    of the end-to-end test. *)
Definition test_reply : ContractData.t :=
  match get_contract_data strict_dict_float strict_list_str strict_float
          completed_registry "job-1" with
  | Reply body => body
  | _ =>
    {| ContractData.contract_id := ""; ContractData.data := ∅;
       ContractData.confidence_scores := ∅; ContractData.gaps := [];
       ContractData.score := 0 |}
  end.

Definition test_listing : list ContractListItem.t :=
  match list_contracts strict_float map_to_list (Some "completed"%string)
          completed_registry with
  | Reply l => l
  | _ => []
  end.

(** ** Definitions used to state the properties of the model call *)

(** The texts of the pages, each followed by a line break. *)
Definition page_lines (texts : list string) : string :=
  foldr (λ s acc, s +:+ newline +:+ acc) ""%string texts.

(** A page that has text. *)
Definition text_page (s : string) : result (option string) := Ok (Some s).

(** [a or b or c]. *)
Definition first_truthy (a b c : value) : value :=
  if truthy a then a else if truthy b then b else c.

(** Collaborators for concrete calls: a parser that knows the empty
    object only, a repair that changes nothing, and an endpoint that
    answers with a chat completion whose content is the empty object. *)
Definition fake_json_loads (s : string) : result value :=
  if String.eqb s "{}" then Ok (VDict ∅)
  else Raise (Exn ValueError "Expecting value: line 1 column 1 (char 0)").

Definition no_repair (s : string) : result string := Ok s.

Definition fake_search_type_error (v : value) : string :=
  "expected string or bytes-like object".

Definition chat_message (content : string) : pydict :=
  {[ "role" := VStr "assistant"; "content" := VStr content ]}.

Definition chat_choice (content : string) : pydict :=
  {[ "index" := VInt 0; "message" := VDict (chat_message content) ]}.

Definition chat_body (content : string) : pydict :=
  {[ "choices" := VList [VDict (chat_choice content)] ]}.

Definition fake_post (key prompt : string) : result httpx_response :=
  Ok {| status_code := 200; json := Ok (VDict (chat_body "{}")) |}.

Definition two_pages (pdf_path : string) : result (list (result (option string))) :=
  Ok [text_page "Master Services Agreement"; text_page "Payment: Net 30"].

(** ** The scoring rules, in the words of the specification

    The definitions of this part are written from the description of the
    scoring rules and use the library's numbers only: white space is a
    table of code points, a share is the quotient of two counts, a
    rounding to decimals is the integer nearest to a rational number.
    None of them calls a function translated from the source; the
    theorems on the scoring heuristic compare the source with them. *)

(** The five scoring categories, each with the field that it reads. *)
Definition categories : list (string * string) :=
  [ ("financial_completeness"%string, "financial_details"%string);
    ("party_identification"%string, "party_identification"%string);
    ("payment_terms_clarity"%string, "payment_structure"%string);
    ("sla_definition"%string, "service_level_agreements"%string);
    ("contact_information"%string, "account_information"%string) ].

(** The code points that count as white space: the ASCII controls
    U+0009-U+000D and U+001C-U+001F, the space, and the Unicode spaces
    and line separators. *)
Definition white_space : list N :=
  [ 9; 10; 11; 12; 13; 28; 29; 30; 31; 32; 133; 160; 5760;
    8192; 8193; 8194; 8195; 8196; 8197; 8198; 8199; 8200; 8201; 8202;
    8232; 8233; 8239; 8287; 12288 ]%N.

(** The UTF-8 encoding of a code point. *)
Definition utf8 (cp : N) : string :=
  (if cp <? 128 then String (ascii_of_N cp) ""
   else if cp <? 2048 then
     String (ascii_of_N (192 + cp / 64))
       (String (ascii_of_N (128 + cp mod 64)) "")
   else if cp <? 65536 then
     String (ascii_of_N (224 + cp / 4096))
       (String (ascii_of_N (128 + (cp / 64) mod 64))
          (String (ascii_of_N (128 + cp mod 64)) ""))
   else
     String (ascii_of_N (240 + cp / 262144))
       (String (ascii_of_N (128 + (cp / 4096) mod 64))
          (String (ascii_of_N (128 + (cp / 64) mod 64))
             (String (ascii_of_N (128 + cp mod 64)) ""))))%N.

(** The bytes [s] are one white-space character. *)
Definition is_white (s : string) : bool :=
  existsb (λ cp, String.eqb s (utf8 cp)) white_space.

(** A string is empty after trimming when it is made of white-space
    characters only; a character takes one to three bytes. *)
Fixpoint all_white_space (s : string) : bool :=
  match s with
  | EmptyString => true
  | String a s1 =>
    if is_white (String a "") then all_white_space s1 else
    match s1 with
    | String b s2 =>
      if is_white (String a (String b "")) then all_white_space s2 else
      match s2 with
      | String c s3 =>
        if is_white (String a (String b (String c ""))) then all_white_space s3
        else false
      | EmptyString => false
      end
    | EmptyString => false
    end
  end.

(** A count, as an unrounded binary number. *)
Definition natural (n : nat) : spec_float :=
  match n with
  | O => S754_zero false
  | S _ => S754_finite false (Pos.of_nat n) 0
  end.

(** The float nearest to the quotient of two counts. *)
Definition quotient (n total : nat) : float :=
  SF2Prim (SFdiv prec emax (natural n) (natural total)).

(** The float nearest to an integer, when there is a finite one. *)
Definition nearest_float (z : Z) : option float :=
  match binary_normalize prec emax z 0 false with
  | S754_infinity _ => None
  | x => Some (SF2Prim x)
  end.

Definition at_most (bound x : float) : float :=
  if PrimFloat.ltb x bound then x else bound.

Definition at_least (bound x : float) : float :=
  if PrimFloat.ltb bound x then x else bound.

Definition larger (x y : float) : float :=
  if PrimFloat.ltb x y then y else x.

Definition clamped (x : float) : float := at_least 0 (at_most 1 x).

(** The rational number [m * 2^e]. *)
Definition exact_value (m : positive) (e : Z) : Q :=
  (inject_Z (Zpos m) * 2 ^ e)%Q.

(** The integer nearest to a rational number; of two that are equally
    near, the even one. *)
Definition nearest_even (q : Q) : Z :=
  let below := Qfloor q in
  match (q - inject_Z below ?= 1 # 2)%Q with
  | Lt => below
  | Gt => below + 1
  | Eq => if Z.even below then below else below + 1
  end.

(** [x] rounded to [digits] decimals: the float nearest to [k / 10^digits],
    for [k] the integer nearest to the magnitude of [x] times [10^digits];
    the sign is kept. *)
Definition round_decimals (x : float) (digits : Z) : float :=
  match Prim2SF x with
  | S754_finite negative m e =>
    match nearest_even (exact_value m e * inject_Z (10 ^ digits)) with
    | Zpos k =>
      SF2Prim (SFdiv prec emax (S754_finite negative k 0)
                 (S754_finite false (Z.to_pos (10 ^ digits)) 0))
    | _ => SF2Prim (S754_zero negative)
    end
  | _ => x
  end.

(** The confidence derived from the value of a field. *)
Definition derived_confidence (v : value) : float :=
  match v with
  | VNone => 0
  | VStr s => if all_white_space s then 0 else 0.9
  | VDict d =>
    if decide (d = ∅) then 0
    else
      let filled := length (filter (λ kv, ¬ blank kv.2) (map_to_list d)) in
      at_most 1 (quotient filled (Nat.max 1 (size d)))
  | VBool b => if b then 0.8 else 0
  | VInt z => if decide (z = 0%Z) then 0 else 0.8
  | VFloat f => if PrimFloat.eqb f 0 then 0 else 0.8
  | VList l => if decide (l = []) then 0 else 0.8
  end%float.

(** A value parsed as a float: a number is itself, a bool is 1 or 0, a
    string is read as a decimal numeral; anything else does not parse. *)
Definition as_float (float_of_str : string → option float) (v : value)
  : option float :=
  match v with
  | VFloat f => Some f
  | VInt z => nearest_float z
  | VBool b => Some (if b then 1 else 0)%float
  | VStr s => float_of_str s
  | VNone | VList _ | VDict _ => None
  end.

(** The confidence that the document supplies for a category, when its
    [confidence_scores] is a mapping with an entry for the category that
    parses. *)
Definition supplied_confidence (float_of_str : string → option float)
    (extracted : pydict) (score_key : string) : option float :=
  match extracted !! "confidence_scores" with
  | Some (VDict supplied) => supplied !! score_key ≫= as_float float_of_str
  | _ => None
  end.

(** The final score of a category. *)
Definition final_confidence (derived : float) (supplied : option float) : float :=
  let combined :=
    match supplied with
    | Some external => larger derived external
    | None => derived
    end in
  round_decimals (clamped combined) 3.

(** One term of the weighted sum: a float is multiplied as a float, an
    integer (or a bool, which counts as 1 or 0) exactly. *)
Definition weighted (v : value) (weight : Z) : option float :=
  match v with
  | VFloat f => w ← nearest_float weight; Some (f * w)%float
  | VInt z => nearest_float (z * weight)
  | VBool b => nearest_float (if b then weight else 0)
  | VNone | VStr _ | VList _ | VDict _ => None
  end.

(** The weighted score of a mapping whose five entries, a missing one
    counting as 0, are numbers. *)
Definition weighted_score (confidence_scores : pydict) : option float :=
  let entry key := default (VInt 0) (confidence_scores !! key) in
  t1 ← weighted (entry "financial_completeness") 30;
  t2 ← weighted (entry "party_identification") 25;
  t3 ← weighted (entry "payment_terms_clarity") 20;
  t4 ← weighted (entry "sla_definition") 15;
  t5 ← weighted (entry "contact_information") 10;
  Some (round_decimals (0 + t1 + t2 + t3 + t4 + t5) 2)%float.

(** ** Documents that exercise the rules

    A field with one of three values filled, one with one of two, and a
    document whose supplied confidence, a numeral in a string, beats the
    one derived from its field. *)
Definition third_filled : pydict :=
  {[ "financial_details" :=
       VDict {[ "total" := VInt 200; "tax" := VNone; "notes" := VStr "" ]};
     "payment_structure" := VStr "  ";
     "service_level_agreements" := VList [];
     "account_information" := VList [VStr "billing@acme.example"] ]}.

Definition half_filled : pydict :=
  {[ "financial_details" := VDict {[ "total" := VInt 200; "tax" := VNone ]} ]}.

Definition supplied_wins : pydict :=
  {[ "payment_structure" := VStr "Net 30";
     "confidence_scores" := VDict {[ "payment_terms_clarity" := VStr "0.95" ]} ]}.

(** * Properties *)

(** ** The builtins on concrete inputs *)

Example py_round_bankers : py_round 0.125 2 = 0.12%float.
Proof. reflexivity. Qed.

Example py_round_2_675 : py_round 2.675 2 = 2.67%float.
Proof. reflexivity. Qed.

Example py_round_0_9 : py_round 0.9 3 = 0.9%float.
Proof. reflexivity. Qed.

Example int_truediv_1_3 : int_truediv 1 3 = 0.3333333333333333%float.
Proof. reflexivity. Qed.

Example strip_spaces : strip "  Net 30 " = "Net 30"%string.
Proof. reflexivity. Qed.

Example endswith_pdf : endswith (lower "Contract.PDF") ".pdf" = true.
Proof. reflexivity. Qed.

Example decimal_float_0_6 : decimal_float_of_str "0.6" = Some 0.6%float.
Proof. reflexivity. Qed.

Example decimal_float_rejects : decimal_float_of_str "high" = None.
Proof. reflexivity. Qed.

(** ** The upload endpoint *)

Lemma append_nil_l (s : string) : "" +:+ s = s.
Proof. reflexivity. Qed.

Lemma append_cons (c : ascii) (a b : string) :
  String c a +:+ b = String c (a +:+ b).
Proof. reflexivity. Qed.





Lemma lookup_upload_other filename content contract_id a id :
  id ≠ contract_id →
  CONTRACTS (upload_contract filename content contract_id a).2 !! id
  = CONTRACTS a !! id.
Proof.
  intros Hne. unfold upload_contract.
  destruct (endswith (lower filename) ".pdf"); simpl; [|done].
  by rewrite lookup_insert_ne.
Qed.


Example upload_rejects_txt :
  (upload_contract "test.txt" "not a pdf" "job-2" empty_app).1
  = HTTPException 400 "Only PDF files are supported.".
Proof. reflexivity. Qed.

(** ** Binary64 arithmetic: bounds that rounding preserves

    The operations on floats are specified by the operations of the same
    name on [spec_float], which round the exact result to nearest, ties to
    even.  This part shows that such a rounding never crosses a
    representable bound: a product by a factor in [[0, 1]] stays below the
    other factor, a sum stays below a representable bound of the sum, and
    so does a rounding to decimals. *)

(** The number of binary digits of a mantissa. *)
Lemma digits2_pos_size (p : positive) : digits2_pos p = Pos.size p.
Proof. induction p; simpl; congruence. Qed.

Lemma digits2_pos_bounds (p : positive) :
  2 ^ (Zpos (digits2_pos p) - 1) <= Zpos p < 2 ^ Zpos (digits2_pos p).
Proof.
  rewrite digits2_pos_size.
  induction p as [p IH|p IH|].
  - simpl Pos.size. rewrite Pos2Z.inj_succ.
    replace (Z.succ (Zpos (Pos.size p)) - 1) with (Z.succ (Zpos (Pos.size p) - 1)) by lia.
    rewrite !Z.pow_succ_r by lia. lia.
  - simpl Pos.size. rewrite Pos2Z.inj_succ.
    replace (Z.succ (Zpos (Pos.size p)) - 1) with (Z.succ (Zpos (Pos.size p) - 1)) by lia.
    rewrite !Z.pow_succ_r by lia. lia.
  - simpl. lia.
Qed.

(** An invariant indexed by the number of steps survives [iter_pos]. *)
Lemma iter_pos_invariant {A} (f : A -> A) (Inv : Z -> A -> Prop) :
  (forall k s, 0 <= k -> Inv k s -> Inv (k + 1) (f s)) ->
  forall p k s, 0 <= k -> Inv k s -> Inv (k + Zpos p) (SpecFloat.iter_pos f p s).
Proof.
  intros Hstep. induction p as [p IH|p IH|]; intros k s Hk Hs; simpl.
  - replace (k + Zpos p~1) with (k + 1 + Zpos p + Zpos p) by lia.
    apply IH; [lia|]. apply IH; [lia|]. by apply Hstep.
  - replace (k + Zpos p~0) with (k + Zpos p + Zpos p) by lia.
    apply IH; [lia|]. by apply IH.
  - by apply Hstep.
Qed.

(** One more right shift. *)
Lemma shr_1_inv m k mrs :
  0 <= m -> 0 <= k -> shr_inv m k mrs -> shr_inv m (k + 1) (shr_1 mrs).
Proof.
  intros Hm Hk [Hq Hf]. destruct mrs as [m' r s]. simpl in *.
  assert (H2k : 0 < 2 ^ k) by (apply Z.pow_pos_nonneg; lia).
  assert (Hpow : 2 ^ (k + 1) = 2 ^ k * 2) by (rewrite Z.pow_add_r by lia; lia).
  assert (Hdiv : m / 2 ^ (k + 1) = m' / 2).
  { rewrite Hpow, Hq. symmetry. apply Z.div_div; lia. }
  assert (Hmod : m mod 2 ^ (k + 1) = m mod 2 ^ k + 2 ^ k * (m' mod 2)).
  { rewrite Hpow, Hq. rewrite Z.rem_mul_r by lia. reflexivity. }
  assert (Hm' : 0 <= m') by (rewrite Hq; apply Z.div_pos; lia).
  assert (Hr : 0 <= m mod 2 ^ k < 2 ^ k) by (apply Z.mod_pos_bound; lia).
  destruct m' as [|[p|p|]|p]; simpl; try lia.
  - split; [by rewrite Hdiv|]. intros Hs. rewrite Hmod. simpl (0 mod 2).
    rewrite Z.mul_0_r, Z.add_0_r. apply Hf. destruct r, s; simpl in *; done.
  - split; [rewrite Hdiv; rewrite Pos2Z.inj_xI; symmetry;
            rewrite Z.mul_comm, Z.add_comm; rewrite Z.div_add by lia; reflexivity|].
    intros _. rewrite Hmod.
    assert (Zpos p~1 mod 2 = 1).
    { rewrite Pos2Z.inj_xI, Z.add_comm, Z.mul_comm, Z.mod_add by lia. reflexivity. }
    nia.
  - split; [rewrite Hdiv; rewrite Pos2Z.inj_xO; symmetry;
            rewrite Z.mul_comm; rewrite Z.div_mul by lia; reflexivity|].
    intros Hs. rewrite Hmod.
    assert (Zpos p~0 mod 2 = 0).
    { rewrite Pos2Z.inj_xO, Z.mul_comm, Z.mod_mul by lia. reflexivity. }
    assert (m mod 2 ^ k <> 0) by (apply Hf; destruct r, s; simpl in *; done).
    nia.
  - split; [by rewrite Hdiv|]. intros _. rewrite Hmod.
    change (1 mod 2) with 1. lia.
Qed.

Lemma fexp_eq e : fexp prec emax e = Z.max (e - 53) (-1074).
Proof. reflexivity. Qed.

(** Rounding to nearest even adds at most one, and only when bits were
    lost. *)
Lemma rne_bounds mrs :
  shr_m mrs <= round_nearest_even (shr_m mrs) (loc_of_shr_record mrs) <= shr_m mrs + 1
  ∧ (round_nearest_even (shr_m mrs) (loc_of_shr_record mrs) <> shr_m mrs ->
     orb (shr_r mrs) (shr_s mrs) = true).
Proof.
  destruct mrs as [m [] []]; simpl; try destruct (Z.even m); split; try lia; done.
Qed.

(** [shr] shifts by [n] when [n] is positive and not at all otherwise. *)
Lemma shr_spec m e n :
  0 <= m ->
  let k := Z.max n 0 in
  let '(mrs, e') := shr (Build_shr_record m false false) e n in
  e' = e + k ∧ shr_inv m k mrs.
Proof.
  intros Hm. destruct n as [|p|p]; simpl;
    [change (Z.max 0 0) with 0 | change (Z.max (Zpos p) 0) with (Zpos p)
     | change (Z.max (Zneg p) 0) with 0].
  - split; [lia|]. split; simpl; [by rewrite Z.div_1_r | done].
  - split; [lia|].
    change (Z.pos p) with (0 + Z.pos p).
    apply (iter_pos_invariant shr_1 (shr_inv m)); [| lia |].
    + intros k s Hk. by apply shr_1_inv.
    + split; simpl; [by rewrite Z.div_1_r | done].
  - split; [lia|]. split; simpl; [by rewrite Z.div_1_r | done].
Qed.

Section Dyadic.
Variable K : Z.

Lemma dyadic_pos m e : 0 < m -> - K <= e -> 0 < dyadic K m e.
Proof.
  intros. unfold dyadic. apply Z.mul_pos_pos; [done|].
  apply Z.pow_pos_nonneg; lia.
Qed.

Lemma dyadic_shift m e n :
  - K <= e -> 0 <= n -> dyadic K (m * 2 ^ n) e = dyadic K m (e + n).
Proof.
  intros. unfold dyadic.
  replace (e + n + K) with (n + (e + K)) by lia.
  rewrite (Z.pow_add_r 2 n (e + K)) by lia. ring.
Qed.

(** A larger value has at least as large a magnitude. *)
Lemma dyadic_le_digits (m1 m2 : positive) e1 e2 :
  - K <= e1 -> - K <= e2 ->
  dyadic K (Zpos m1) e1 <= dyadic K (Zpos m2) e2 ->
  Zpos (digits2_pos m1) + e1 <= Zpos (digits2_pos m2) + e2.
Proof.
  intros H1 H2 Hle. unfold dyadic in Hle.
  pose proof (digits2_pos_bounds m1) as [Hlo _].
  pose proof (digits2_pos_bounds m2) as [_ Hhi].
  set (d1 := Zpos (digits2_pos m1)) in *.
  set (d2 := Zpos (digits2_pos m2)) in *.
  assert (Hd1: 0 < d1) by (unfold d1; lia).
  assert (Hd2: 0 < d2) by (unfold d2; lia).
  destruct (Z_le_gt_dec (d1 + e1) (d2 + e2)) as [|Hgt]; [done|exfalso].
  assert (Hp1 : 0 < 2 ^ (e1 + K)) by (apply Z.pow_pos_nonneg; lia).
  assert (Hp2 : 0 < 2 ^ (e2 + K)) by (apply Z.pow_pos_nonneg; lia).
  assert (Ha : 2 ^ (d1 - 1 + (e1 + K)) <= Zpos m1 * 2 ^ (e1 + K)).
  { rewrite (Z.pow_add_r 2 (d1 - 1) (e1 + K)) by lia. nia. }
  assert (Hb : Zpos m2 * 2 ^ (e2 + K) < 2 ^ (d2 + (e2 + K))).
  { rewrite (Z.pow_add_r 2 d2 (e2 + K)) by lia. nia. }
  assert (Hc : 2 ^ (d2 + (e2 + K)) <= 2 ^ (d1 - 1 + (e1 + K))).
  { apply Z.pow_le_mono_r; lia. }
  lia.
Qed.

Lemma canonical_exp (m : positive) e :
  canonical_mantissa prec emax m e = true ->
  e = Z.max (Zpos (digits2_pos m) + e - 53) (-1074).
Proof.
  unfold canonical_mantissa. rewrite fexp_eq. intros H%Z.eqb_eq. lia.
Qed.

(** Rounding to nearest never crosses a representable bound. *)
Lemma binary_round_aux_le (p : positive) ex (mc : positive) ec :
  - K <= ex -> ex <= 971 ->
  canonical_mantissa prec emax mc ec = true -> ec <= 971 -> - K <= ec ->
  dyadic K (Zpos p) ex <= dyadic K (Zpos mc) ec ->
  match binary_round_aux prec emax false (Zpos p) ex loc_Exact with
  | S754_zero _ => True
  | S754_finite false m e => - K <= e ∧ dyadic K (Zpos m) e <= dyadic K (Zpos mc) ec
  | _ => False
  end.
Proof.
  intros HKx Hex Hcan Hec HKc Hle.
  pose proof (canonical_exp _ _ Hcan) as Hcexp.
  pose proof (dyadic_le_digits _ _ _ _ HKx HKc Hle) as Hdig.
  unfold binary_round_aux, shr_fexp. simpl shr_record_of_loc.
  unfold Zdigits2 at 1. rewrite fexp_eq.
  set (n := Z.max (Zpos (digits2_pos p) + ex - 53) (-1074) - ex).
  pose proof (shr_spec (Zpos p) ex n ltac:(lia)) as Hshr.
  destruct (shr _ ex n) as [mrs e1]. destruct Hshr as [He1 [Hq Hfl]].
  pose proof (rne_bounds mrs) as [[Hlo Hhi] Hne].
  set (m1 := round_nearest_even (shr_m mrs) (loc_of_shr_record mrs)) in *.
  set (k := Z.max n 0) in *.
  assert (Hk : 0 <= k) by lia.
  assert (H2k : 0 < 2 ^ k) by (apply Z.pow_pos_nonneg; lia).
  assert (Hq0 : 0 <= shr_m mrs) by (rewrite Hq; apply Z.div_pos; lia).
  assert (HKe1 : - K <= e1) by lia.
  assert (He1le : e1 <= 971) by lia.
  (* the rounded mantissa is still below the bound *)
  assert (Hm1 : dyadic K m1 e1 <= dyadic K (Zpos mc) ec).
  { destruct (Z_le_gt_dec n 0) as [Hn|Hn].
    - assert (k = 0) as Hk0 by lia. rewrite Hk0 in *.
      rewrite Z.div_1_r in Hq. rewrite Z.mod_1_r in Hfl.
      assert (m1 = Zpos p) as ->.
      { destruct (Z.eq_dec m1 (shr_m mrs)) as [->|Hd]; [done|].
        specialize (Hne Hd). specialize (Hfl Hne). done. }
      by replace e1 with ex by lia.
    - assert (k = n) as Hkn by lia.
      assert (He1c : e1 <= ec) by lia.
      set (c' := Zpos mc * 2 ^ (ec - e1)).
      assert (Hc' : dyadic K (Zpos mc) ec = dyadic K c' e1).
      { unfold c'. rewrite dyadic_shift by lia. f_equal. lia. }
      rewrite Hc'. unfold dyadic.
      apply Z.mul_le_mono_nonneg_r; [apply Z.pow_nonneg; lia|].
      assert (Hp : Zpos p <= c' * 2 ^ k).
      { rewrite Hc' in Hle. unfold dyadic in Hle.
        replace (e1 + K) with (k + (ex + K)) in Hle by lia.
        rewrite (Z.pow_add_r 2 k (ex + K)) in Hle by lia.
        assert (0 < 2 ^ (ex + K)) by (apply Z.pow_pos_nonneg; lia).
        nia. }
      pose proof (Z.div_mod (Zpos p) (2 ^ k) ltac:(lia)) as Hdm.
      pose proof (Z.mod_pos_bound (Zpos p) (2 ^ k) H2k) as Hmb.
      destruct (Z.eq_dec m1 (shr_m mrs)) as [Heq|Hd].
      + rewrite Heq, Hq. nia.
      + specialize (Hfl (Hne Hd)). rewrite Hq in Hhi. nia. }
  assert (Hm1pos : 0 <= m1) by lia.
  destruct m1 as [|p1|p1] eqn:Em1; [| |lia].
  - (* rounded to zero *)
    simpl Zdigits2.
    pose proof (shr_spec 0 e1 (fexp prec emax (0 + e1) - e1) ltac:(lia)) as H2.
    destruct (shr _ e1 _) as [mrs2 e2]. destruct H2 as [_ [Hq2 _]].
    rewrite Z.div_0_l in Hq2 by (apply Z.pow_nonzero; lia). by rewrite Hq2.
  - simpl Zdigits2. rewrite fexp_eq.
    set (n2 := Z.max (Zpos (digits2_pos p1) + e1 - 53) (-1074) - e1).
    pose proof (shr_spec (Zpos p1) e1 n2 ltac:(lia)) as H2.
    destruct (shr _ e1 n2) as [mrs2 e2]. destruct H2 as [He2 [Hq2 _]].
    set (k2 := Z.max n2 0) in *.
    assert (H2k2 : 0 < 2 ^ k2) by (apply Z.pow_pos_nonneg; lia).
    pose proof (dyadic_le_digits _ _ _ _ HKe1 HKc Hm1) as Hdig1.
    assert (He2le : e2 <= 971) by lia.
    assert (Hval : dyadic K (shr_m mrs2) e2 <= dyadic K (Zpos p1) e1).
    { rewrite He2, <- dyadic_shift by lia. unfold dyadic.
      apply Z.mul_le_mono_nonneg_r; [apply Z.pow_nonneg; lia|].
      rewrite Hq2. rewrite Z.mul_comm. apply Z.mul_div_le. lia. }
    assert (Hq2pos : 0 <= shr_m mrs2) by (rewrite Hq2; apply Z.div_pos; lia).
    destruct (shr_m mrs2) as [|p2|p2]; [done| |lia].
    replace (emax - prec) with 971 by reflexivity.
    destruct (Z.leb_spec e2 971); [|lia].
    split; [lia|]. lia.
Qed.

End Dyadic.

Section DyadicOrder.
Variable K : Z.
Hypothesis HK : 1074 <= K.

(** A canonical mantissa has at most 53 bits, and exactly 53 above the
    smallest exponent. *)
Lemma canonical_bounds (m : positive) e :
  canonical_mantissa prec emax m e = true ->
  -1074 <= e ∧ Zpos m < 2 ^ 53 ∧ (-1074 < e -> 2 ^ 52 <= Zpos m).
Proof.
  intros Hc%canonical_exp.
  pose proof (digits2_pos_bounds m) as [Hlo Hhi].
  set (d := Zpos (digits2_pos m)) in *.
  assert (d <= 53) by lia.
  split; [lia|]. split.
  - eapply Z.lt_le_trans; [exact Hhi|]. apply Z.pow_le_mono_r; lia.
  - intros He. assert (d = 53) as Hd by lia. by rewrite Hd in Hlo.
Qed.

Lemma dyadic_lt_exp (m1 m2 : positive) e1 e2 :
  canonical_mantissa prec emax m1 e1 = true ->
  canonical_mantissa prec emax m2 e2 = true ->
  e1 < e2 -> dyadic K (Zpos m1) e1 < dyadic K (Zpos m2) e2.
Proof.
  intros [He1 [Hm1 _]]%canonical_bounds [He2 [_ Hm2]]%canonical_bounds Hlt.
  specialize (Hm2 ltac:(lia)). unfold dyadic.
  assert (Hp1 : 0 < 2 ^ (e1 + K)) by (apply Z.pow_pos_nonneg; lia).
  assert (Hp2 : 2 ^ (e2 + K) = 2 ^ (e2 - e1 - 1) * (2 * 2 ^ (e1 + K))).
  { rewrite <- Z.pow_succ_r by lia.
    rewrite <- Z.pow_add_r by lia. f_equal. lia. }
  assert (Hp3 : 1 <= 2 ^ (e2 - e1 - 1)).
  { change 1 with (2 ^ 0). apply Z.pow_le_mono_r; lia. }
  rewrite Hp2.
  change (2 ^ 53) with (2 * 2 ^ 52) in Hm1.
  set (a := 2 ^ 52) in *. nia.
Qed.

(** On canonical positive numbers, the comparison of the specification
    is the comparison of the values. *)
Lemma SFcompare_finite (m1 m2 : positive) e1 e2 :
  canonical_mantissa prec emax m1 e1 = true ->
  canonical_mantissa prec emax m2 e2 = true ->
  SFcompare (S754_finite false m1 e1) (S754_finite false m2 e2)
  = Some (dyadic K (Zpos m1) e1 ?= dyadic K (Zpos m2) e2).
Proof.
  intros Hc1 Hc2. unfold SFcompare. f_equal.
  destruct (Z.compare_spec e1 e2) as [->|Hlt|Hgt].
  - pose proof (canonical_bounds _ _ Hc2) as [He2 _].
    unfold dyadic.
    assert (0 < 2 ^ (e2 + K)) by (apply Z.pow_pos_nonneg; lia).
    change (Pos.compare_cont Eq m1 m2) with (Zpos m1 ?= Zpos m2).
    destruct (Z.compare_spec (Zpos m1) (Zpos m2)) as [Heq|Hlt|Hgt]; symmetry.
    + apply Z.compare_eq_iff. by rewrite Heq.
    + apply Z.compare_lt_iff. nia.
    + apply Z.compare_gt_iff. nia.
  - symmetry. apply Z.compare_lt_iff. by apply dyadic_lt_exp.
  - symmetry. apply Z.compare_gt_iff. by apply dyadic_lt_exp.
Qed.

Lemma valid_canonical s m e :
  valid_binary (S754_finite s m e) = true ->
  canonical_mantissa prec emax m e = true ∧ e <= 971.
Proof.
  simpl. unfold bounded. intros [H1 H2%Z.leb_le]%andb_prop. split; [done|].
  by change (emax - prec) with 971 in H2.
Qed.

Lemma sfval_pos s m e :
  valid_binary (S754_finite s m e) = true -> 0 < dyadic K (Zpos m) e.
Proof.
  intros [[He _]%canonical_bounds _]%valid_canonical.
  apply dyadic_pos; lia.
Qed.

(** [<=] on valid non-negative finite numbers is [<=] on their values. *)
Lemma SFleb_nonneg x y :
  valid_binary x = true -> valid_binary y = true ->
  nonneg_finite x = true -> nonneg_finite y = true ->
  SFleb x y = bool_decide (sfval K x <= sfval K y).
Proof.
  intros Hvx Hvy Hx Hy. unfold SFleb.
  destruct x as [sx| | |[] mx ex], y as [sy| | |[] my ey]; try done.
  - simpl. pose proof (sfval_pos _ _ _ Hvy). by rewrite bool_decide_eq_true_2 by lia.
  - simpl. pose proof (sfval_pos _ _ _ Hvx). by rewrite bool_decide_eq_false_2 by lia.
  - apply valid_canonical in Hvx as [Hcx _]. apply valid_canonical in Hvy as [Hcy _].
    rewrite SFcompare_finite by done. simpl.
    destruct (Z.compare_spec (dyadic K (Zpos mx) ex) (dyadic K (Zpos my) ey)).
    + by rewrite bool_decide_eq_true_2 by lia.
    + by rewrite bool_decide_eq_true_2 by lia.
    + by rewrite bool_decide_eq_false_2 by lia.
Qed.

End DyadicOrder.

(** A float is in [[0, c]] when it is a zero or a positive finite number
    whose value is at most that of [c]. *)
Lemma in_range_spec K x c :
  1074 <= K ->
  nonneg_finite (Prim2SF c) = true ->
  in_range x c = true <->
  nonneg_finite (Prim2SF x) = true ∧ sfval K (Prim2SF x) <= sfval K (Prim2SF c).
Proof.
  intros HK Hc. unfold in_range. rewrite !leb_spec.
  pose proof (Prim2SF_valid x) as Hvx. pose proof (Prim2SF_valid c) as Hvc.
  change (Prim2SF 0) with (S754_zero false).
  destruct (nonneg_finite (Prim2SF x)) eqn:Hx.
  - rewrite (SFleb_nonneg K HK (Prim2SF x) (Prim2SF c)) by done.
    assert (SFleb (S754_zero false) (Prim2SF x) = true) as ->.
    { by destruct (Prim2SF x) as [| | |[]]. }
    simpl. rewrite bool_decide_eq_true. tauto.
  - split; [|intros [? _]; done].
    destruct (Prim2SF x) as [| [] | |[]], (Prim2SF c) as [| | |[]]; done.
Qed.

Lemma iter_xO_pow (d m : positive) :
  Zpos (Pos.iter xO m d) = Zpos m * 2 ^ Zpos d.
Proof.
  induction d as [|d IH] using Pos.peano_ind.
  - simpl. lia.
  - rewrite Pos.iter_succ, Pos2Z.inj_xO, IH, Pos2Z.inj_succ, Z.pow_succ_r by lia.
    ring.
Qed.

(** Aligning a mantissa to a smaller exponent keeps the value. *)
Lemma shl_align_spec (m : positive) e e' :
  let '(m', e'') := shl_align m e e' in
  e'' = Z.min e e' ∧ Zpos m' = Zpos m * 2 ^ (e - e'').
Proof.
  unfold shl_align.
  destruct (e' - e) as [|d|d] eqn:Hd.
  - split; [lia|]. rewrite Z.sub_diag. simpl. lia.
  - split; [lia|]. rewrite Z.sub_diag. simpl. lia.
  - split; [lia|]. rewrite iter_xO_pow. f_equal. f_equal. lia.
Qed.

Lemma sfval_nonneg K x : 0 <= sfval K x.
Proof.
  destruct x as [| | |[] m e]; simpl; try lia.
  unfold dyadic. apply Z.mul_nonneg_nonneg; [lia|]. apply Z.pow_nonneg. lia.
Qed.

Lemma sfval_one K : 52 <= K -> sfval K (Prim2SF 1) = 2 ^ K.
Proof.
  intros HK. change (Prim2SF 1) with (S754_finite false 4503599627370496 (-52)).
  simpl. unfold dyadic. change (Zpos 4503599627370496) with (2 ^ 52).
  rewrite <- Z.pow_add_r by lia. f_equal. lia.
Qed.

(** A product with a factor in [[0, 1]] stays below the other factor. *)
Lemma mul_in_range (x w : float) mw ew :
  Prim2SF w = S754_finite false mw ew -> ew <= 0 ->
  in_range x 1 = true -> in_range (x * w) w = true.
Proof.
  intros Hw Hew Hx.
  apply (in_range_spec 1074) in Hx as [Hnx Hvx]; [|lia|done].
  rewrite sfval_one in Hvx by lia.
  pose proof (Prim2SF_valid x) as Hvalx. pose proof (Prim2SF_valid w) as Hvalw.
  rewrite Hw in Hvalw. apply valid_canonical in Hvalw as [Hcw Hew'].
  pose proof (canonical_bounds _ _ Hcw) as [Hew'' _].
  apply (in_range_spec 2148); [lia|by rewrite Hw|].
  rewrite mul_spec, Hw. unfold SF64mul.
  destruct (Prim2SF x) as [sx| | |[] mx ex]; try done.
  - simpl. split; [done|]. unfold dyadic.
    apply Z.mul_nonneg_nonneg; [lia|]. apply Z.pow_nonneg; lia.
  - apply valid_canonical in Hvalx as [Hcx Hex].
    pose proof (canonical_bounds _ _ Hcx) as [Hex' _].
    simpl in Hvx. unfold SFmul. simpl xorb.
    pose proof (binary_round_aux_le 2148 (mx * mw) (ex + ew) mw ew) as Hr.
    destruct (binary_round_aux prec emax false (Zpos (mx * mw)) (ex + ew) loc_Exact)
      as [s| | |[] m e]; simpl.
    1: { split; [done|]. unfold dyadic.
         apply Z.mul_nonneg_nonneg; [lia|]. apply Z.pow_nonneg; lia. }
    all: (lapply Hr; [clear Hr; intros Hr|lia]);
         (lapply Hr; [clear Hr; intros Hr|lia]);
         (lapply Hr; [clear Hr; intros Hr|done]);
         (lapply Hr; [clear Hr; intros Hr|lia]);
         (lapply Hr; [clear Hr; intros Hr|lia]);
         (lapply Hr; [clear Hr; intros Hr| ]); try done; try tauto.
    all: unfold dyadic in *; rewrite Pos2Z.inj_mul.
    all: replace (ex + ew + 2148) with ((ex + 1074) + (ew + 1074)) by lia.
    all: replace (ew + 2148) with (1074 + (ew + 1074)) by lia.
    all: rewrite (Z.pow_add_r 2 (ex + 1074) (ew + 1074)) by lia.
    all: rewrite (Z.pow_add_r 2 1074 (ew + 1074)) by lia.
    all: assert (0 < 2 ^ (ew + 1074)) by (apply Z.pow_pos_nonneg; lia).
    all: set (a := 2 ^ (ex + 1074)) in *; set (b := 2 ^ (ew + 1074)) in *.
    all: set (c := 2 ^ 1074) in *; nia.
Qed.

(** A sum of two bounded non-negative numbers stays below a representable
    bound of the sum of their bounds. *)
Lemma add_in_range (a b A B C : float) mc ec :
  nonneg_finite (Prim2SF A) = true -> nonneg_finite (Prim2SF B) = true ->
  Prim2SF C = S754_finite false mc ec ->
  sfval 1074 (Prim2SF A) + sfval 1074 (Prim2SF B) <= sfval 1074 (Prim2SF C) ->
  in_range a A = true -> in_range b B = true -> in_range (a + b) C = true.
Proof.
  intros HA HB HC Hsum Ha Hb.
  apply (in_range_spec 1074) in Ha as [Hna Hva]; [|lia|done].
  apply (in_range_spec 1074) in Hb as [Hnb Hvb]; [|lia|done].
  pose proof (sfval_nonneg 1074 (Prim2SF A)) as HA0.
  pose proof (sfval_nonneg 1074 (Prim2SF B)) as HB0.
  pose proof (Prim2SF_valid a) as Hvala. pose proof (Prim2SF_valid b) as Hvalb.
  pose proof (Prim2SF_valid C) as HvalC.
  apply (in_range_spec 1074); [lia|by rewrite HC|].
  rewrite HC in *. apply valid_canonical in HvalC as [HcC HeC].
  pose proof (canonical_bounds _ _ HcC) as [HeC' _].
  rewrite add_spec. unfold SF64add.
  destruct (Prim2SF a) as [sa| | |[] ma ea], (Prim2SF b) as [sb| | |[] mb eb];
    try done.
  - split; [by destruct sa, sb|]. destruct sa, sb; simpl in *; lia.
  - split; [done|]. simpl in *. lia.
  - split; [done|]. simpl in *. lia.
  - apply valid_canonical in Hvala as [Hca Hea].
    apply valid_canonical in Hvalb as [Hcb Heb].
    pose proof (canonical_bounds _ _ Hca) as [Hea' _].
    pose proof (canonical_bounds _ _ Hcb) as [Heb' _].
    unfold SFadd. simpl cond_Zopp.
    set (ez := Z.min ea eb).
    pose proof (shl_align_spec ma ea ez) as Hsa.
    pose proof (shl_align_spec mb eb ez) as Hsb.
    destruct (shl_align ma ea ez) as [ma' ea'], (shl_align mb eb ez) as [mb' eb'].
    destruct Hsa as [Hea1 Hma'], Hsb as [Heb1 Hmb'].
    simpl fst. change (Zpos ma' + Zpos mb') with (Zpos (ma' + mb')).
    unfold binary_normalize, binary_round.
    set (ef := fexp prec emax (Zpos (digits2_pos (ma' + mb')) + ez)).
    pose proof (shl_align_spec (ma' + mb') ez ef) as Hsz.
    destruct (shl_align (ma' + mb') ez ef) as [mz ez'].
    destruct Hsz as [Hez' Hmz].
    assert (Hef : -1074 <= ef) by (unfold ef; rewrite fexp_eq; lia).
    assert (Hval : dyadic 1074 (Zpos mz) ez'
                   = dyadic 1074 (Zpos ma) ea + dyadic 1074 (Zpos mb) eb).
    { rewrite Hmz, Pos2Z.inj_add, Hma', Hmb'.
      rewrite dyadic_shift by lia.
      replace (ez' + (ez - ez')) with ez by lia.
      unfold dyadic. rewrite Z.mul_add_distr_r.
      rewrite <- !Z.mul_assoc, <- !Z.pow_add_r by lia.
      f_equal; f_equal; f_equal; lia. }
    pose proof (binary_round_aux_le 1074 mz ez' mc ec) as Hr.
    simpl in Hva, Hvb, Hsum.
    destruct (binary_round_aux prec emax false (Zpos mz) ez' loc_Exact)
      as [s| | |[] m e]; simpl.
    1: { split; [done|]. lia. }
    all: (lapply Hr; [clear Hr; intros Hr|lia]);
         (lapply Hr; [clear Hr; intros Hr|lia]);
         (lapply Hr; [clear Hr; intros Hr|done]);
         (lapply Hr; [clear Hr; intros Hr|lia]);
         (lapply Hr; [clear Hr; intros Hr|lia]);
         (lapply Hr; [clear Hr; intros Hr|lia]); try done; tauto.
Qed.

(** Decimal rounding is monotone at an integer bound. *)
Lemma round_half_even_scaled_le K (m : positive) e scale c :
  0 <= K -> - K <= e -> 0 < scale -> 0 <= c ->
  dyadic K (Zpos m) e <= c * 2 ^ K ->
  0 <= round_half_even_scaled m e scale <= c * scale.
Proof.
  intros HK He Hs Hc Hle. unfold round_half_even_scaled, dyadic in *.
  destruct (Z.leb_spec 0 e) as [He0|He0].
  - rewrite (Z.pow_add_r 2 e K) in Hle by lia.
    assert (0 < 2 ^ K) by (apply Z.pow_pos_nonneg; lia).
    assert (0 < 2 ^ e) by (apply Z.pow_pos_nonneg; lia).
    split; [nia|]. apply Z.mul_le_mono_nonneg_r; [lia|]. nia.
  - set (den := 2 ^ (- e)).
    assert (Hden : 0 < den) by (apply Z.pow_pos_nonneg; lia).
    assert (HKe : 2 ^ K = 2 ^ (e + K) * den).
    { unfold den. rewrite <- Z.pow_add_r by lia. f_equal. lia. }
    assert (0 < 2 ^ (e + K)) by (apply Z.pow_pos_nonneg; lia).
    assert (Hm : Zpos m <= c * den) by (rewrite HKe in Hle; nia).
    set (num := Zpos m * scale).
    assert (Hnum : 0 <= num <= c * scale * den) by (unfold num; nia).
    pose proof (Z.div_mod num den ltac:(lia)) as Hdm.
    pose proof (Z.mod_pos_bound num den Hden) as Hmb.
    set (q := num / den) in *. set (r := num mod den) in *.
    assert (Hq0 : 0 <= q) by (apply Z.div_pos; lia).
    assert (Hq : q <= c * scale) by nia.
    assert (Hq1 : q = c * scale -> r = 0) by (intros Hqc; nia).
    destruct (Z.compare_spec (2 * r) den) as [Heq|Hlt|Hgt].
    + destruct (Z.even q); [lia|]. split; [lia|].
      destruct (Z.eq_dec q (c * scale)) as [Hqc|]; [|lia].
      specialize (Hq1 Hqc). lia.
    + lia.
    + split; [lia|].
      destruct (Z.eq_dec q (c * scale)) as [Hqc|]; [|lia].
      specialize (Hq1 Hqc). lia.
Qed.

Lemma decimal_table_ok_spec scale bound c (n : positive) :
  decimal_table_ok scale bound c = true ->
  Zpos n <= Z.of_nat bound ->
  in_range (SF2Prim (SFdiv prec emax (S754_finite false n 0) (Z2SF scale))) c = true.
Proof.
  unfold decimal_table_ok. rewrite forallb_forall. intros Hall Hn.
  specialize (Hall (Pos.to_nat n)). rewrite Pos2Nat.id in Hall.
  apply Hall. apply in_seq. lia.
Qed.

(** [round(x, ndigits)] stays in [[0, c]] for an integer bound [c], once
    the table of the decimals up to [c] is checked. *)
Lemma py_round_in_range (x c : float) (ndigits cz : Z) mc ec :
  0 <= ndigits -> 0 <= cz ->
  Prim2SF c = S754_finite false mc ec ->
  sfval 1074 (Prim2SF c) = cz * 2 ^ 1074 ->
  decimal_table_ok (10 ^ ndigits) (Z.to_nat (cz * 10 ^ ndigits)) c = true ->
  in_range x c = true -> in_range (py_round x ndigits) c = true.
Proof.
  intros Hnd Hcz Hc Hcval Htab Hx.
  pose proof Hx as Hx'.
  apply (in_range_spec 1074) in Hx' as [Hnx Hvx]; [|lia|by rewrite Hc].
  pose proof (Prim2SF_valid x) as Hvalx.
  unfold py_round.
  destruct (Prim2SF x) as [sx| | |[] m e] eqn:Ex; try done.
  apply valid_canonical in Hvalx as [Hcx _].
  pose proof (canonical_bounds _ _ Hcx) as [He _].
  rewrite Hcval in Hvx. simpl in Hvx.
  assert (Hscale : 0 < 10 ^ ndigits) by (apply Z.pow_pos_nonneg; lia).
  pose proof (round_half_even_scaled_le 1074 m e (10 ^ ndigits) cz
                ltac:(lia) ltac:(lia) Hscale Hcz Hvx) as [Hr0 Hr1].
  destruct (round_half_even_scaled m e (10 ^ ndigits)) as [|n|n]; [| |lia].
  - apply (in_range_spec 1074); [lia|by rewrite Hc|].
    change (Prim2SF (SF2Prim (S754_zero false))) with (S754_zero false).
    split; [done|]. simpl. apply sfval_nonneg.
  - apply (decimal_table_ok_spec _ _ _ _ Htab). lia.
Qed.

Lemma py_round_2_in_range x :
  in_range x 100 = true -> in_range (py_round x 2) 100 = true.
Proof.
  apply (py_round_in_range x 100 2 100 7036874417766400 (-46)); try lia.
  - reflexivity.
  - vm_compute. reflexivity.
  - vm_compute. reflexivity.
Qed.

Lemma py_round_3_in_range x :
  in_range x 1 = true -> in_range (py_round x 3) 1 = true.
Proof.
  apply (py_round_in_range x 1 3 1 4503599627370496 (-52)); try lia.
  - reflexivity.
  - vm_compute. reflexivity.
  - vm_compute. reflexivity.
Qed.

(** ** The scoring heuristic *)

Lemma not_blank_spec v : not_blank v = true ↔ ¬ blank v.
Proof.
  unfold blank. destruct v as [| | | |s|l|d]; simpl.
  - split; [done|]. intros H. exfalso. apply H. auto.
  - split; [|done]. intros _ [|[|[|]]]; discriminate.
  - split; [|done]. intros _ [|[|[|]]]; discriminate.
  - split; [|done]. intros _ [|[|[|]]]; discriminate.
  - destruct (String.eqb_spec s "") as [->|Hs]; simpl.
    + split; [done|]. intros H. exfalso. apply H. auto.
    + split; [|done]. intros _ [|[|[|]]]; congruence.
  - destruct l as [|x l].
    + split; [done|]. intros H. exfalso. apply H. auto.
    + split; [|done]. intros _ [|[|[|]]]; discriminate.
  - destruct (Nat.eqb_spec (size d) 0) as [Hd|Hd]; simpl.
    + apply map_size_empty_inv in Hd as ->.
      split; [done|]. intros H. exfalso. apply H. auto.
    + split; [|done]. intros _ [|[|[Heq|Heq]]]; try discriminate.
      injection Heq as ->. by rewrite map_size_empty in Hd.
Qed.

(** The branch of the loop body computes the derivation rule of the
    specification. *)
Lemma field_confidence_spec v :
  field_confidence v = (spec_derived v, bool_decide (spec_gap v)).
Proof.
  destruct v as [| | | |s|l|d]; simpl; try done.
  - destruct (String.eqb_spec (strip s) "") as [Hs|Hs]; simpl.
    + by rewrite decide_True.
    + by rewrite decide_False.
  - destruct (Nat.eqb_spec (size d) 0) as [Hd|Hd]; simpl.
    + apply map_size_empty_inv in Hd as ->.
      rewrite decide_True by done.
      by rewrite bool_decide_eq_true_2 by (by right).
    + assert (d ≠ ∅) as Hne by (intros ->; by rewrite map_size_empty in Hd).
      rewrite decide_False by done.
      rewrite bool_decide_eq_false_2 by (intros [|]; congruence).
      unfold count_not_blank.
      by rewrite (list_filter_iff (λ kv : string * value, not_blank kv.2 = true)
                    (λ kv, ¬ blank kv.2))
        by (intros kv; apply not_blank_spec).
Qed.

(** The confidence that the loop reads from [llm_conf] is the externally
    supplied one. *)
Lemma llm_value_spec float_of_str (extracted : pydict) score_key :
  llm_value float_of_str
    (or_empty_dict (dict_get extracted "confidence_scores")) score_key
  = external_confidence float_of_str extracted score_key.
Proof.
  unfold external_confidence, dict_get, or_empty_dict.
  destruct (extracted !! "confidence_scores") as [[| | | |s|l|c]|]; simpl;
    try done.
  - by destruct b.
  - by destruct (negb (z =? 0)).
  - by destruct (negb (PrimFloat.eqb f 0)).
  - by destruct (negb (String.eqb s "")).
  - by destruct l.
  - destruct (Nat.eqb_spec (size c) 0) as [Hc|Hc]; simpl; [|done].
    apply map_size_empty_inv in Hc as ->. by rewrite !lookup_empty.
Qed.

Section DeriveLoop.
Variable float_of_str : string → option float.
Variable extracted : pydict.
Variable llm_conf : value.

Lemma score_field_eq acc entry :
  score_field float_of_str extracted llm_conf acc entry
  = (<[entry.1 := field_score float_of_str extracted llm_conf entry]> acc.1,
     acc.2 ++ (if field_is_gap extracted entry.2 then [entry.2] else [])).
Proof.
  destruct acc as [scores gaps], entry as [sk fk].
  unfold score_field, field_score, field_is_gap. simpl.
  destruct (field_confidence (dict_get extracted fk)) as [derived []]; simpl;
    [done|by rewrite app_nil_r].
Qed.

(** The loop, for any list of categories with distinct scoring keys. *)
Lemma derive_loop_spec (l : list (string * string)) acc :
  NoDup l.*1 →
  let res := foldl (score_field float_of_str extracted llm_conf) acc l in
  (∀ entry, entry ∈ l → res.1 !! entry.1 = Some (field_score float_of_str extracted llm_conf entry))
  ∧ (∀ k, k ∉ l.*1 → res.1 !! k = acc.1 !! k)
  ∧ res.2 = acc.2 ++ filter (λ fk, field_is_gap extracted fk = true) l.*2.
Proof.
  revert acc. induction l as [|e l IH]; intros acc Hnd res; subst res.
  - simpl. split; [intros ? []%elem_of_nil|]. split; [done|]. by rewrite app_nil_r.
  - rewrite fmap_cons in Hnd. apply NoDup_cons in Hnd as [Hne Hnd].
    cbn [foldl]. rewrite score_field_eq.
    destruct (IH (<[e.1 := field_score float_of_str extracted llm_conf e]> acc.1,
                  acc.2 ++ (if field_is_gap extracted e.2 then [e.2] else [])) Hnd)
      as (Hin & Hout & Hgaps).
    split; [|split].
    + intros entry [->|Hel]%elem_of_cons; [|by apply Hin].
      rewrite Hout by done. cbn [fst]. by rewrite lookup_insert_eq.
    + intros k Hk. rewrite fmap_cons in Hk.
      apply not_elem_of_cons in Hk as [Hk1 Hk2].
      rewrite Hout by done. cbn [fst]. by rewrite lookup_insert_ne.
    + rewrite Hgaps. cbn [snd]. rewrite fmap_cons, filter_cons.
      destruct (field_is_gap extracted e.2) eqn:Hg.
      * rewrite decide_True by done. by rewrite <- app_assoc.
      * rewrite decide_False by done. by rewrite app_nil_r.
Qed.

End DeriveLoop.

Lemma mapping_NoDup : NoDup mapping.*1.
Proof. compute_done. Qed.

(** The result of [derive_confidence_and_gaps], category by category. *)
Lemma derive_confidence_and_gaps_lookup float_of_str extracted score_key field_key :
  (score_key, field_key) ∈ mapping →
  let v := dict_get extracted field_key in
  let res := derive_confidence_and_gaps float_of_str extracted in
  res.1 !! score_key
  = Some (final_score (spec_derived v)
            (external_confidence float_of_str extracted score_key))
  ∧ (field_key ∈ res.2 ↔ spec_gap v).
Proof.
  intros Hel v res. subst res. unfold derive_confidence_and_gaps.
  destruct (derive_loop_spec float_of_str extracted
              (or_empty_dict (dict_get extracted "confidence_scores"))
              mapping (∅, []) mapping_NoDup) as (Hin & _ & Hgaps).
  split.
  - specialize (Hin _ Hel). cbn [fst snd] in Hin. rewrite Hin.
    unfold field_score. cbn [fst snd].
    by rewrite field_confidence_spec, llm_value_spec.
  - rewrite Hgaps. cbn [snd]. rewrite app_nil_l, list_elem_of_filter.
    unfold field_is_gap. rewrite field_confidence_spec. cbn [snd].
    rewrite bool_decide_eq_true. subst v.
    split; [tauto|]. intros Hg. split; [done|].
    apply (list_elem_of_fmap_2 snd) in Hel. done.
Qed.

(** ** The rules of the specification on concrete inputs *)

Example white_space_only :
  all_white_space (" " +:+ utf8 9 +:+ utf8 160 +:+ utf8 8239 +:+ utf8 12288) = true
  ∧ all_white_space "" = true
  ∧ all_white_space " Net 30 " = false
  ∧ all_white_space (utf8 8203) = false.
Proof. repeat split; vm_compute; reflexivity. Qed.

Example quotient_shares :
  quotient 1 2 = 0.5%float
  ∧ quotient 1 3 = 0.3333333333333333%float
  ∧ quotient 2 3 = 0.6666666666666666%float
  ∧ quotient 3 3 = 1%float
  ∧ quotient 0 4 = 0%float.
Proof. repeat split; vm_compute; reflexivity. Qed.

Example nearest_even_ties :
  nearest_even (5 # 2) = 2 ∧ nearest_even (7 # 2) = 4
  ∧ nearest_even (7 # 4) = 2 ∧ nearest_even (9 # 4) = 2
  ∧ nearest_even 3 = 3.
Proof. repeat split; vm_compute; reflexivity. Qed.

Example round_decimals_samples :
  round_decimals 0.125 2 = 0.12%float
  ∧ round_decimals 0.375 2 = 0.38%float
  ∧ round_decimals 2.675 2 = 2.67%float
  ∧ round_decimals 9.999 2 = 10%float
  ∧ round_decimals 0.6666666666666666 3 = 0.667%float
  ∧ round_decimals (-0.125) 2 = (-0.12)%float
  ∧ round_decimals 44 2 = 44%float.
Proof. repeat split; vm_compute; reflexivity. Qed.

Example as_float_samples :
  as_float decimal_float_of_str (VStr "0.95") = Some 0.95%float
  ∧ as_float decimal_float_of_str (VStr "high") = None
  ∧ as_float decimal_float_of_str (VInt 1) = Some 1%float
  ∧ as_float decimal_float_of_str (VInt (10 ^ 400)) = None
  ∧ as_float decimal_float_of_str VNone = None.
Proof. repeat split; vm_compute; reflexivity. Qed.

(** ** The builtins of the embedding compute the rules of the specification *)

(** *** White space *)

Lemma ascii_eqb_N (a b : ascii) :
  Ascii.eqb a b = (N_of_ascii a =? N_of_ascii b)%N.
Proof.
  destruct (Ascii.eqb_spec a b) as [->|Hne].
  - by rewrite N.eqb_refl.
  - symmetry. apply N.eqb_neq. intros Heq. apply Hne.
    by rewrite <- (ascii_N_embedding a), Heq, ascii_N_embedding.
Qed.

Lemma is_white_table (s : string) :
  is_white s = existsb (String.eqb s) (utf8 <$> white_space).
Proof.
  unfold is_white. induction white_space as [|cp l IH]; [done|].
  cbn [existsb fmap list_fmap]. by rewrite IH.
Qed.

(** The table, read by the number of bytes of a character. *)
Ltac white_table :=
  rewrite is_white_table;
  let l := eval vm_compute in (utf8 <$> white_space) in
  change (utf8 <$> white_space) with l;
  cbn [existsb String.eqb];
  repeat match goal with
  | |- context [if ?b then ?c else false] =>
    change (if b then c else false) with (b && c)
  end;
  rewrite ?andb_false_r, ?andb_true_r, ?orb_false_l, ?orb_false_r;
  rewrite ?ascii_eqb_N;
  repeat match goal with
  | |- context [N_of_ascii (Ascii ?b0 ?b1 ?b2 ?b3 ?b4 ?b5 ?b6 ?b7)] =>
    let n := eval vm_compute in (N_of_ascii (Ascii b0 b1 b2 b3 b4 b5 b6 b7)) in
    change (N_of_ascii (Ascii b0 b1 b2 b3 b4 b5 b6 b7)) with n
  end.

(** Case analysis on the value of a byte, among the constants that the
    goal compares it with. *)
Ltac closed_tests :=
  repeat match goal with
  | |- context [N.eqb (Npos ?p) (Npos ?q)] =>
    let r := eval vm_compute in (N.eqb (Npos p) (Npos q)) in
    change (N.eqb (Npos p) (Npos q)) with r
  | |- context [N.leb (Npos ?p) (Npos ?q)] =>
    let r := eval vm_compute in (N.leb (Npos p) (Npos q)) in
    change (N.leb (Npos p) (Npos q)) with r
  end;
  cbn [andb orb].

Ltac byte_cases n :=
  repeat match goal with
  | |- context [N.eqb n (Npos ?k)] =>
    destruct (N.eqb_spec n (Npos k)) as [->|?]; [closed_tests; try reflexivity|]
  end;
  cbn [andb orb]; try reflexivity.

Lemma is_white_1 (a : ascii) : is_white (String a "") = ascii_space a.
Proof.
  unfold ascii_space. white_table. generalize (N_of_ascii a). intros n.
  byte_cases n;
    destruct (N.leb_spec 9 n), (N.leb_spec n 13), (N.leb_spec 28 n),
      (N.leb_spec n 32); cbn [andb orb]; try reflexivity; lia.
Qed.

Lemma is_white_2 (a b : ascii) :
  is_white (String a (String b ""))
  = ((N_of_ascii a =? 194)
     && ((N_of_ascii b =? 133) || (N_of_ascii b =? 160)))%N.
Proof.
  white_table. generalize (N_of_ascii a), (N_of_ascii b). intros n1 n2.
  byte_cases n1; byte_cases n2.
Qed.

Lemma is_white_3 (a b c : ascii) :
  is_white (String a (String b (String c "")))
  = ((N_of_ascii a =? 225) && ((N_of_ascii b =? 154) && (N_of_ascii c =? 128))
     || (N_of_ascii a =? 226)
        && ((N_of_ascii b =? 128)
            && ((128 <=? N_of_ascii c) && (N_of_ascii c <=? 138)
                || (N_of_ascii c =? 168) || (N_of_ascii c =? 169)
                || (N_of_ascii c =? 175))
            || (N_of_ascii b =? 129) && (N_of_ascii c =? 159))
     || (N_of_ascii a =? 227)
        && ((N_of_ascii b =? 128) && (N_of_ascii c =? 128)))%N.
Proof.
  white_table.
  generalize (N_of_ascii a), (N_of_ascii b), (N_of_ascii c). intros n1 n2 n3.
  byte_cases n1; byte_cases n2; byte_cases n3;
    destruct (N.leb_spec 128 n3), (N.leb_spec n3 138); cbn [andb orb];
    try reflexivity; lia.
Qed.

(** The first white-space character of a string, in the table of the
    specification, is the one that [drop_space] removes. *)
Lemma drop_space_white (a : ascii) (s1 : string) :
  drop_space (String a s1)
  = if is_white (String a "") then Some s1 else
    match s1 with
    | String b s2 =>
      if is_white (String a (String b "")) then Some s2 else
      match s2 with
      | String c s3 =>
        if is_white (String a (String b (String c ""))) then Some s3 else None
      | EmptyString => None
      end
    | EmptyString => None
    end.
Proof.
  cbn [drop_space]. rewrite is_white_1.
  destruct (ascii_space a); [done|].
  assert (Hother : N_of_ascii a ≠ 194%N → N_of_ascii a ≠ 225%N →
            N_of_ascii a ≠ 226%N → N_of_ascii a ≠ 227%N →
            match N_of_ascii a, s1 with
            | 194%N, String c1 rest1 =>
              if ((N_of_ascii c1 =? 133) || (N_of_ascii c1 =? 160))%N
              then Some rest1 else None
            | 225%N, String c1 (String c2 rest2) =>
              if ((N_of_ascii c1 =? 154) && (N_of_ascii c2 =? 128))%N
              then Some rest2 else None
            | 226%N, String c1 (String c2 rest2) =>
              let n1 := N_of_ascii c1 in
              let n2 := N_of_ascii c2 in
              if ((n1 =? 128) && ((128 <=? n2) && (n2 <=? 138) || (n2 =? 168)
                                  || (n2 =? 169) || (n2 =? 175))
                  || (n1 =? 129) && (n2 =? 159))%N
              then Some rest2 else None
            | 227%N, String c1 (String c2 rest2) =>
              if ((N_of_ascii c1 =? 128) && (N_of_ascii c2 =? 128))%N
              then Some rest2 else None
            | _, _ => None
            end = None).
  { intros H194 H225 H226 H227.
    destruct (N_of_ascii a) as [|p]; [done|].
    do 8 (try (destruct p as [p|p|]; try done; try congruence)). }
  destruct s1 as [|b s2].
  { destruct (N.eqb_spec (N_of_ascii a) 194) as [->|H194]; [done|].
    destruct (N.eqb_spec (N_of_ascii a) 225) as [->|H225]; [done|].
    destruct (N.eqb_spec (N_of_ascii a) 226) as [->|H226]; [done|].
    destruct (N.eqb_spec (N_of_ascii a) 227) as [->|H227]; [done|].
    by apply Hother. }
  rewrite is_white_2.
  destruct s2 as [|c s3].
  { destruct (N.eqb_spec (N_of_ascii a) 194) as [->|H194];
      [by destruct (_ || _)|].
    destruct (N.eqb_spec (N_of_ascii a) 225) as [->|H225]; [done|].
    destruct (N.eqb_spec (N_of_ascii a) 226) as [->|H226]; [done|].
    destruct (N.eqb_spec (N_of_ascii a) 227) as [->|H227]; [done|].
    by apply Hother. }
  rewrite is_white_3.
  destruct (N.eqb_spec (N_of_ascii a) 194) as [->|H194].
  { cbn -[N.eqb N.leb]. closed_tests. by destruct (_ || _). }
  destruct (N.eqb_spec (N_of_ascii a) 225) as [->|H225].
  { cbn -[N.eqb N.leb]. closed_tests. rewrite ?orb_false_r.
    by destruct (_ && _). }
  destruct (N.eqb_spec (N_of_ascii a) 226) as [->|H226].
  { cbn -[N.eqb N.leb]. closed_tests. rewrite ?orb_false_r.
    by destruct (_ || _). }
  destruct (N.eqb_spec (N_of_ascii a) 227) as [->|H227].
  { cbn -[N.eqb N.leb]. closed_tests. by destruct (_ && _). }
  cbn [andb orb]. by apply Hother.
Qed.

Lemma drop_space_length (s rest : string) :
  drop_space s = Some rest → (String.length rest < String.length s)%nat.
Proof.
  destruct s as [|a s1]; [done|]. rewrite drop_space_white.
  destruct (is_white _); [intros [= <-]; cbn; lia|].
  destruct s1 as [|b s2]; [done|].
  destruct (is_white _); [intros [= <-]; cbn; lia|].
  destruct s2 as [|c s3]; [done|].
  destruct (is_white _); [intros [= <-]; cbn; lia|done].
Qed.

Lemma lstrip_fuel_white (n : nat) (s : string) :
  (String.length s ≤ n)%nat →
  lstrip_fuel n s = ""%string ↔ all_white_space s = true.
Proof.
  revert s. induction n as [|n IH]; intros s Hn.
  - destruct s; [done|]. cbn in Hn. lia.
  - cbn [lstrip_fuel]. destruct s as [|a s1]; [done|].
    rewrite drop_space_white. cbn [all_white_space]. cbn in Hn.
    destruct (is_white _); [apply IH; lia|].
    destruct s1 as [|b s2]; [done|]. cbn in Hn.
    destruct (is_white _); [apply IH; lia|].
    destruct s2 as [|c s3]; [done|]. cbn in Hn.
    destruct (is_white _); [apply IH; lia|done].
Qed.

Lemma lstrip_fuel_stops (n : nat) (s : string) :
  (String.length s ≤ n)%nat → drop_space (lstrip_fuel n s) = None.
Proof.
  revert s. induction n as [|n IH]; intros s Hn.
  - destruct s; [done|]. cbn in Hn. lia.
  - cbn [lstrip_fuel]. destruct (drop_space s) as [rest|] eqn:Hdrop; [|done].
    apply IH. apply drop_space_length in Hdrop. lia.
Qed.

Lemma lstrip_fixed (s : string) : drop_space s = None → lstrip s = s.
Proof.
  intros Hdrop. unfold lstrip.
  destruct (String.length s); [done|]. cbn [lstrip_fuel]. by rewrite Hdrop.
Qed.

Lemma rstrip_empty (s : string) : rstrip s = ""%string ↔ lstrip s = ""%string.
Proof.
  destruct s as [|c rest]; [done|]. cbn [rstrip].
  by destruct (String.eqb_spec (lstrip (String c rest)) "").
Qed.

(** A string is empty after [strip] when it is made of white space only. *)
Lemma strip_white (s : string) : String.eqb (strip s) "" = all_white_space s.
Proof.
  apply eq_true_iff_eq. rewrite String.eqb_eq. unfold strip.
  rewrite rstrip_empty, lstrip_fixed by (by apply lstrip_fuel_stops).
  by apply lstrip_fuel_white.
Qed.

(** *** Shares *)

Lemma Z2SF_natural (n : nat) : Z2SF (Z.of_nat n) = natural n.
Proof.
  destruct n as [|n]; [done|].
  rewrite Nat2Z.inj_succ, <- Zpos_P_of_succ_nat.
  cbn [Z2SF natural]. by rewrite Pos.of_nat_succ.
Qed.

Lemma int_truediv_quotient (n total : nat) :
  int_truediv (Z.of_nat n) (Z.max 1 (Z.of_nat total))
  = quotient n (Nat.max 1 total).
Proof.
  unfold int_truediv, quotient.
  change 1 with (Z.of_nat 1). by rewrite <- Nat2Z.inj_max, !Z2SF_natural.
Qed.

(** *** Conversions *)

Lemma float_of_int_nearest (z : Z) :
  float_of_int z
  = match nearest_float z with
    | Some f => Ok f
    | None => Raise (Exn OverflowError "int too large to convert to float")
    end.
Proof.
  unfold float_of_int, nearest_float.
  by destruct (binary_normalize prec emax z 0 false).
Qed.

Lemma py_float_as_float float_of_str (v : value) :
  py_float float_of_str v = as_float float_of_str v.
Proof.
  destruct v as [|b|z| | | |]; try done.
  cbn. rewrite float_of_int_nearest. by destruct (nearest_float z).
Qed.

(** *** Rounding to decimals *)

Lemma nearest_even_proper (q1 q2 : Q) :
  (q1 == q2)%Q → nearest_even q1 = nearest_even q2.
Proof.
  intros Heq. unfold nearest_even. rewrite (Qfloor_comp _ _ Heq).
  assert ((q1 - inject_Z (Qfloor q2) ?= 1 # 2)%Q
          = (q2 - inject_Z (Qfloor q2) ?= 1 # 2)%Q) as ->; [|done].
  apply Qcompare_comp; [|done]. by rewrite Heq.
Qed.

Lemma nearest_even_integer (k : Z) : nearest_even (inject_Z k) = k.
Proof.
  unfold nearest_even. rewrite Qfloor_Z.
  assert ((inject_Z k - inject_Z k ?= 1 # 2)%Q = (0 ?= 1 # 2)%Q) as ->; [|done].
  apply Qcompare_comp; [|done]. apply Qplus_opp_r.
Qed.

Lemma nearest_even_fraction (num : Z) (den : positive) :
  nearest_even (num # den)
  = match 2 * (num mod Zpos den) ?= Zpos den with
    | Lt => num / Zpos den
    | Gt => num / Zpos den + 1
    | Eq => if Z.even (num / Zpos den) then num / Zpos den
            else num / Zpos den + 1
    end.
Proof.
  unfold nearest_even. cbn [Qfloor].
  assert (((num # den) - inject_Z (num / Zpos den) ?= 1 # 2)%Q
          = (2 * (num mod Zpos den) ?= Zpos den)) as ->; [|done].
  unfold Qcompare, Qminus, Qplus, Qopp, inject_Z. cbn [Qnum Qden].
  rewrite Z.mod_eq by done. f_equal; lia.
Qed.

Lemma exact_value_scaled (m : positive) (e scale : Z) :
  (exact_value m e * inject_Z scale
   == if 0 <=? e then inject_Z (Zpos m * 2 ^ e * scale)
      else (Zpos m * scale) # Z.to_pos (2 ^ (- e)))%Q.
Proof.
  unfold exact_value. destruct (Z.leb_spec 0 e) as [He|He].
  - rewrite !inject_Z_mult. by rewrite (Zpower_Qpower 2 e He).
  - assert (Hpow : 0 < 2 ^ (- e)) by (apply Z.pow_pos_nonneg; lia).
    replace e with (- - e) at 1 by lia.
    rewrite Qpower_opp, <- (Zpower_Qpower 2 (- e)) by lia.
    destruct (2 ^ (- e)) as [|d|d] eqn:Hd; try lia.
    unfold Qeq, Qmult, Qinv, inject_Z. cbn. lia.
Qed.

Lemma round_half_even_scaled_nearest (m : positive) (e scale : Z) :
  round_half_even_scaled m e scale
  = nearest_even (exact_value m e * inject_Z scale).
Proof.
  rewrite (nearest_even_proper _ _ (exact_value_scaled m e scale)).
  unfold round_half_even_scaled. destruct (0 <=? e) eqn:He.
  - by rewrite nearest_even_integer.
  - apply Z.leb_gt in He.
    assert (Hpow : 0 < 2 ^ (- e)) by (apply Z.pow_pos_nonneg; lia).
    rewrite nearest_even_fraction, Z2Pos.id by done. done.
Qed.

(** [round] is the rounding to decimals of the specification. *)
Lemma py_round_decimals (x : float) (digits : Z) :
  0 ≤ digits → py_round x digits = round_decimals x digits.
Proof.
  intros Hd. unfold py_round, round_decimals.
  destruct (Prim2SF x) as [| | |s m e]; try done.
  rewrite round_half_even_scaled_nearest.
  assert (Hpow : 0 < 10 ^ digits) by (apply Z.pow_pos_nonneg; lia).
  destruct (10 ^ digits) as [|p|p] eqn:Hp; try lia. done.
Qed.

(** ** The weighted score *)

Lemma ltb_leb (x y : float) : PrimFloat.ltb x y = true → PrimFloat.leb x y = true.
Proof.
  rewrite ltb_spec, leb_spec. unfold SFltb, SFleb.
  by destruct (SFcompare (Prim2SF x) (Prim2SF y)) as [[]|].
Qed.

(** The clamp of the source yields a number in [[0, 1]] for every float,
    NaN and the infinities included. *)
Lemma clamp01_in_range (x : float) : in_range (clamp01 x) 1 = true.
Proof.
  unfold clamp01, py_max, py_min.
  destruct (PrimFloat.ltb x 1) eqn:H1.
  - destruct (PrimFloat.ltb 0 x) eqn:H0; [|reflexivity].
    unfold in_range. by rewrite !ltb_leb.
  - reflexivity.
Qed.

Lemma final_score_in_range derived llm_val :
  in_range (final_score derived llm_val) 1 = true.
Proof. unfold final_score. apply py_round_3_in_range, clamp01_in_range. Qed.

(** The sum only reads [confidence_scores.get(key, 0)]. *)
Lemma weighted_sum_ext ws (s1 s2 : pydict) score :
  (∀ key, dict_get_default s1 key (VInt 0) = dict_get_default s2 key (VInt 0)) →
  weighted_sum ws s1 score = weighted_sum ws s2 score.
Proof.
  intros Hext. revert score. induction ws as [|[key weight] ws IH]; intros score.
  - done.
  - cbn [weighted_sum]. rewrite Hext.
    destruct (add_weighted score _ weight) as [score'|e]; [apply IH|done].
Qed.

Lemma compute_contract_score_ext (s1 s2 : pydict) :
  (∀ key, dict_get_default s1 key (VInt 0) = dict_get_default s2 key (VInt 0)) →
  compute_contract_score s1 = compute_contract_score s2.
Proof.
  intros Hext. unfold compute_contract_score.
  by rewrite (weighted_sum_ext _ s1 s2).
Qed.

(** One term of the sum keeps the running score below a representable
    bound [C] of the bound [A] so far plus the weight. *)
Lemma add_weighted_in_range score v w (A C : float) mw ew mc ec :
  let W := SF2Prim (binary_normalize prec emax w 0 false) in
  Prim2SF W = S754_finite false mw ew → ew ≤ 0 →
  float_of_int w = Ok W →
  in_range W W = true →
  nonneg_finite (Prim2SF A) = true →
  Prim2SF C = S754_finite false mc ec →
  sfval 1074 (Prim2SF A) + sfval 1074 (Prim2SF W) ≤ sfval 1074 (Prim2SF C) →
  in_unit v = true → in_range score A = true →
  ∃ score', add_weighted score v w = Ok score' ∧ in_range score' C = true.
Proof.
  intros W HW Hew Hfw HWW HA HC Hsum Hv Hs.
  assert (HnW : nonneg_finite (Prim2SF W) = true) by (by rewrite HW).
  assert (H0W : in_range 0 W = true).
  { apply (in_range_spec 1074); [lia|done|]. split; [done|].
    change (Prim2SF 0) with (S754_zero false). apply sfval_nonneg. }
  assert (Hint : ∀ z, 0 ≤ z ≤ 1 →
    ∃ score', (f ← float_of_int (z * w); Ok (score + f)%float) = Ok score'
              ∧ in_range score' C = true).
  { intros z Hz. assert (z = 0 ∨ z = 1) as [->| ->] by lia.
    - rewrite Z.mul_0_l. eexists; split; [reflexivity|].
      by apply (add_in_range score 0 A W C mc ec).
    - rewrite Z.mul_1_l, Hfw. eexists; split; [reflexivity|].
      by apply (add_in_range score W A W C mc ec). }
  destruct v as [|b|z|f| | |]; try done; cbn [add_weighted].
  - apply Hint. destruct b; simpl; lia.
  - apply Hint. simpl in Hv. lia.
  - eexists; split; [reflexivity|]. fold W.
    apply (add_in_range score (f * W) A W C mc ec); try done.
    by apply (mul_in_range f W mw ew).
Qed.

(** For confidences in [[0, 1]] the score is in [[0, 100]]. *)
Lemma compute_contract_score_range (confidence_scores : pydict) :
  (∀ key weight, (key, weight) ∈ weights →
     in_unit (dict_get_default confidence_scores key (VInt 0)) = true) →
  ∃ score, compute_contract_score confidence_scores = Ok score
           ∧ in_range score 100 = true.
Proof.
  intros Hunit. unfold compute_contract_score, weights in *.
  cbn [weighted_sum].
  assert (H0 : in_range 0 0 = true) by reflexivity.
  weighted_step add_weighted_in_range Hunit H0 0%float 30%float.
  weighted_step add_weighted_in_range Hunit Hs 30%float 55%float.
  weighted_step add_weighted_in_range Hunit Hs0 55%float 75%float.
  weighted_step add_weighted_in_range Hunit Hs1 75%float 90%float.
  weighted_step add_weighted_in_range Hunit Hs2 90%float 100%float.
  eexists; split; [reflexivity|]. by apply py_round_2_in_range.
Qed.

(** One term of the sum, as the specification computes it. *)
Lemma add_weighted_term (score : float) (v : value) (w : Z) (W : float) :
  nearest_float w = Some W →
  match weighted v w with
  | Some t => add_weighted score v w = Ok (score + t)%float
  | None => ∃ e, add_weighted score v w = Raise e
  end.
Proof.
  intros HW.
  assert (W = SF2Prim (binary_normalize prec emax w 0 false)) as HWeq.
  { unfold nearest_float in HW.
    by destruct (binary_normalize prec emax w 0 false); simplify_eq. }
  destruct v as [|b|z|f|s|l|d]; cbn [weighted add_weighted];
    try (by eexists).
  - replace (Z.b2z b * w) with (if b then w else 0) by (destruct b; cbn [Z.b2z]; lia).
    rewrite float_of_int_nearest.
    destruct (nearest_float (if b then w else 0)); [done|by eexists].
  - rewrite float_of_int_nearest.
    destruct (nearest_float (z * w)); [done|by eexists].
  - rewrite HW. cbn [mbind option_bind]. by rewrite HWeq.
Qed.

(** The score of every mapping is the weighted score of the specification;
    the call fails exactly when one of the five entries is no number. *)
Lemma compute_contract_score_weighted (confidence_scores : pydict) :
  match weighted_score confidence_scores with
  | Some score => compute_contract_score confidence_scores = Ok score
  | None => ∃ e, compute_contract_score confidence_scores = Raise e
  end.
Proof.
  unfold weighted_score, compute_contract_score, weights, dict_get_default.
  cbn [weighted_sum]. unfold dict_get_default.
  pose proof (add_weighted_term 0
    (default (VInt 0) (confidence_scores !! "financial_completeness")) 30 30
    eq_refl) as H1.
  destruct (weighted _ 30) as [t1|]; cbn [mbind option_bind];
    [rewrite H1|destruct H1 as [e ->]; by eexists].
  cbn [mbind result_bind].
  pose proof (add_weighted_term (0 + t1)
    (default (VInt 0) (confidence_scores !! "party_identification")) 25 25
    eq_refl) as H2.
  destruct (weighted _ 25) as [t2|]; cbn [mbind option_bind];
    [rewrite H2|destruct H2 as [e ->]; by eexists].
  cbn [mbind result_bind].
  pose proof (add_weighted_term (0 + t1 + t2)
    (default (VInt 0) (confidence_scores !! "payment_terms_clarity")) 20 20
    eq_refl) as H3.
  destruct (weighted _ 20) as [t3|]; cbn [mbind option_bind];
    [rewrite H3|destruct H3 as [e ->]; by eexists].
  cbn [mbind result_bind].
  pose proof (add_weighted_term (0 + t1 + t2 + t3)
    (default (VInt 0) (confidence_scores !! "sla_definition")) 15 15
    eq_refl) as H4.
  destruct (weighted _ 15) as [t4|]; cbn [mbind option_bind];
    [rewrite H4|destruct H4 as [e ->]; by eexists].
  cbn [mbind result_bind].
  pose proof (add_weighted_term (0 + t1 + t2 + t3 + t4)
    (default (VInt 0) (confidence_scores !! "contact_information")) 10 10
    eq_refl) as H5.
  destruct (weighted _ 10) as [t5|]; cbn [mbind option_bind];
    [rewrite H5|destruct H5 as [e ->]; by eexists].
  cbn [mbind result_bind]. by rewrite py_round_decimals.
Qed.

(** C2: for every mapping, the score is the weighted score of the
    specification: the five entries, a missing one counting as 0, are
    multiplied by the weights 30, 25, 20, 15 and 10 and added up from 0.0
    in that order, and the sum is rounded to 2 decimals (the call fails
    when an entry is no number); for five floats the score is the rounded
    sum of the five products; adding a missing key with the value 0 changes
    nothing; for confidences in [[0, 1]] the score is in [[0, 100]]; the
    scores 0.5, 1.0, 0.2, 0.0, 0.0 give 44.0, a lone financial completeness
    of 0.5 gives 15.0, one of 0.3333 gives 10.0 (9.999 rounded), and the
    empty mapping gives 0.0. *)
Theorem compute_contract_score_spec (confidence_scores : pydict) :
  match weighted_score confidence_scores with
  | Some score => compute_contract_score confidence_scores = Ok score
  | None => ∃ e, compute_contract_score confidence_scores = Raise e
  end
  ∧ (∀ f1 f2 f3 f4 f5 : float,
       compute_contract_score
         {[ "financial_completeness" := VFloat f1;
            "party_identification" := VFloat f2;
            "payment_terms_clarity" := VFloat f3;
            "sla_definition" := VFloat f4;
            "contact_information" := VFloat f5 ]}
       = Ok (round_decimals
               (0 + f1 * 30 + f2 * 25 + f3 * 20 + f4 * 15 + f5 * 10)%float 2))
  ∧ (∀ key, confidence_scores !! key = None →
       compute_contract_score (<[key := VInt 0]> confidence_scores)
       = compute_contract_score confidence_scores)
  ∧ (Forall (λ key, in_unit (default (VInt 0) (confidence_scores !! key)) = true)
       categories.*1 →
     ∃ score, compute_contract_score confidence_scores = Ok score
              ∧ in_range score 100 = true)
  ∧ compute_contract_score test_scores = Ok 44%float
  ∧ compute_contract_score {[ "financial_completeness" := VFloat 0.5 ]}
    = Ok 15%float
  ∧ compute_contract_score {[ "financial_completeness" := VFloat 0.3333 ]}
    = Ok 10%float
  ∧ compute_contract_score ∅ = Ok 0%float.
Proof.
  split; [apply compute_contract_score_weighted|].
  split.
  { intros f1 f2 f3 f4 f5.
    unfold compute_contract_score, weights, weighted_sum, dict_get_default.
    simplify_map_eq. cbn [mbind result_bind]. by rewrite py_round_decimals. }
  split.
  { intros key Hkey. apply compute_contract_score_ext. intros k.
    unfold dict_get_default. destruct (decide (key = k)) as [->|Hne].
    - by rewrite lookup_insert_eq, Hkey.
    - by rewrite lookup_insert_ne. }
  split.
  { intros Hunit. apply compute_contract_score_range.
    intros key weight Hel. rewrite Forall_forall in Hunit.
    apply Hunit. apply (list_elem_of_fmap_2 fst) in Hel.
    exact Hel. }
  repeat split; vm_compute; reflexivity.
Qed.

(** A mapping with a float, a bool and three missing entries: its
    confidences are in [[0, 1]], so its score is in [[0, 100]]. *)
Lemma compute_contract_score_witness :
  ∃ score,
    compute_contract_score
      {[ "financial_completeness" := VFloat 0.3333;
         "party_identification" := VBool true ]} = Ok score
    ∧ in_range score 100 = true.
Proof.
  apply (compute_contract_score_spec
           {[ "financial_completeness" := VFloat 0.3333;
              "party_identification" := VBool true ]}).
  repeat (constructor; [reflexivity|]). constructor.
Defined.

(** ** The derived confidences *)

(** The derivation that the loop body performs is the rule of the
    specification. *)
Lemma spec_derived_confidence (v : value) :
  spec_derived v = derived_confidence v.
Proof.
  destruct v as [|b|z|f|s|l|d]; cbn [spec_derived derived_confidence truthy];
    try done.
  - destruct (Z.eqb_spec z 0) as [->|Hz]; cbn [negb].
    + by rewrite decide_True.
    + by rewrite decide_False.
  - by destruct (PrimFloat.eqb f 0).
  - rewrite <- strip_white.
    destruct (String.eqb_spec (strip s) "") as [Hs|Hs].
    + by rewrite decide_True.
    + by rewrite decide_False.
  - by destruct l.
  - destruct (decide (d = ∅)); [done|].
    cbv zeta. by rewrite int_truediv_quotient.
Qed.

Lemma external_supplied float_of_str (extracted : pydict) (score_key : string) :
  external_confidence float_of_str extracted score_key
  = supplied_confidence float_of_str extracted score_key.
Proof.
  unfold external_confidence, supplied_confidence.
  destruct (extracted !! "confidence_scores") as [[| | | | | |c]|]; try done.
  destruct (c !! score_key) as [v|]; [|done].
  cbn [mbind option_bind]. apply py_float_as_float.
Qed.

Lemma final_score_confidence (derived : float) (supplied : option float) :
  final_score derived supplied = final_confidence derived supplied.
Proof.
  unfold final_score, final_confidence. by rewrite py_round_decimals.
Qed.

(** The score of a category and the gap entry of its field, in the terms
    of the specification. *)
Lemma derive_confidence_and_gaps_rule float_of_str extracted score_key field_key :
  (score_key, field_key) ∈ categories →
  let v := default VNone (extracted !! field_key) in
  let res := derive_confidence_and_gaps float_of_str extracted in
  res.1 !! score_key
  = Some (final_confidence (derived_confidence v)
            (supplied_confidence float_of_str extracted score_key))
  ∧ (field_key ∈ res.2 ↔ spec_gap v).
Proof.
  intros Hel v res.
  destruct (derive_confidence_and_gaps_lookup float_of_str extracted _ _ Hel)
    as [Hscore Hgap].
  split; [|exact Hgap].
  fold res in Hscore. rewrite Hscore.
  by rewrite final_score_confidence, spec_derived_confidence, external_supplied.
Qed.

(** C1: for each of the five categories, the confidence derived from the
    mapped field is 0.0 with a gap entry when the field is null or
    missing; 0.9 (0.0 when it is made of white space only) without a gap
    entry when it is a string; 0.0 with a gap entry when it is an empty
    mapping; the number of values that are none of null, "", [] and {},
    divided by max(1, number of keys) and clamped to at most 1.0, when it
    is another mapping; and 0.8 when truthy (a true bool, a number other
    than zero, a list with an element), else 0.0, for any other value.
    The score of the category is the final confidence computed from this
    value.  A mapping with one of three values filled scores 0.333, a
    string of white space scores 0.0 and is no gap, an empty list scores
    0.0 and a list with an element 0.8. *)
Theorem derive_confidence_and_gaps_derived (float_of_str : string → option float)
    (extracted : pydict) (score_key field_key : string) :
  (score_key, field_key) ∈ categories →
  let res := derive_confidence_and_gaps float_of_str extracted in
  (∃ derived,
    res.1 !! score_key
    = Some (final_confidence derived
              (supplied_confidence float_of_str extracted score_key))
    ∧ match default VNone (extracted !! field_key) with
      | VNone => derived = 0%float ∧ field_key ∈ res.2
      | VStr s =>
        derived = (if all_white_space s then 0 else 0.9)%float
        ∧ field_key ∉ res.2
      | VDict d =>
        if decide (d = ∅) then derived = 0%float ∧ field_key ∈ res.2
        else
          derived
          = at_most 1
              (quotient
                 (length (filter (λ kv, ¬ blank kv.2) (map_to_list d)))
                 (Nat.max 1 (size d)))
          ∧ field_key ∉ res.2
      | VBool b => derived = (if b then 0.8 else 0)%float ∧ field_key ∉ res.2
      | VInt z =>
        derived = (if decide (z = 0%Z) then 0 else 0.8)%float ∧ field_key ∉ res.2
      | VFloat f =>
        derived = (if PrimFloat.eqb f 0 then 0 else 0.8)%float
        ∧ field_key ∉ res.2
      | VList l =>
        derived = (if decide (l = []) then 0 else 0.8)%float
        ∧ field_key ∉ res.2
      end)
  ∧ derive_confidence_and_gaps float_of_str third_filled
    = ({[ "financial_completeness" := 0.333%float;
          "party_identification" := 0%float;
          "payment_terms_clarity" := 0%float;
          "sla_definition" := 0%float;
          "contact_information" := 0.8%float ]},
       [ "party_identification"%string ])
  ∧ derive_confidence_and_gaps float_of_str
      {[ "financial_details" := VDict {[ "total" := VInt 200; "tax" := VNone ]};
         "party_identification" := VStr "ACME Corp";
         "payment_structure" := VBool false;
         "service_level_agreements" := VDict ∅;
         "account_information" := VInt 7 ]}
    = ({[ "financial_completeness" := 0.5%float;
          "party_identification" := 0.9%float;
          "payment_terms_clarity" := 0%float;
          "sla_definition" := 0%float;
          "contact_information" := 0.8%float ]},
       [ "service_level_agreements"%string ]).
Proof.
  intros Hel res. split; [|split; vm_compute; reflexivity].
  destruct (derive_confidence_and_gaps_rule float_of_str extracted _ _ Hel)
    as [Hscore Hgap].
  fold res in Hscore, Hgap.
  exists (derived_confidence (default VNone (extracted !! field_key))).
  split; [done|].
  unfold spec_gap in Hgap.
  destruct (default VNone (extracted !! field_key)) as [| | | |s|l|d];
    cbn [derived_confidence].
  - split; [done|]. apply Hgap. auto.
  - split; [done|]. rewrite Hgap. intros [|]; discriminate.
  - split; [done|]. rewrite Hgap. intros [|]; discriminate.
  - split; [done|]. rewrite Hgap. intros [|]; discriminate.
  - split; [done|]. rewrite Hgap. intros [|]; discriminate.
  - split; [done|]. rewrite Hgap. intros [|]; discriminate.
  - destruct (decide (d = ∅)) as [->|Hd].
    + split; [done|]. apply Hgap. auto.
    + split; [done|]. rewrite Hgap. intros [|]; congruence.
Qed.

(** A mapping with one of its two values filled scores one half and is no
    gap. *)
Lemma derive_confidence_and_gaps_derived_witness :
  let res := derive_confidence_and_gaps decimal_float_of_str half_filled in
  ("financial_completeness"%string, "financial_details"%string) ∈ categories
  ∧ res.1 !! "financial_completeness" = Some 0.5%float
  ∧ "financial_details"%string ∉ res.2.
Proof.
  assert (Hel : ("financial_completeness"%string, "financial_details"%string)
                ∈ categories) by compute_done.
  split; [exact Hel|].
  destruct (derive_confidence_and_gaps_derived decimal_float_of_str
              half_filled _ _ Hel) as [(derived & Hscore & Hcase) _].
  change (default VNone (half_filled !! "financial_details"))
    with (VDict {[ "total" := VInt 200; "tax" := VNone ]}) in Hcase.
  cbv beta iota in Hcase.
  rewrite decide_False in Hcase by done. destruct Hcase as [-> Hgap].
  split; [|exact Hgap].
  etransitivity; [exact Hscore|]. vm_compute. reflexivity.
Defined.

(** C3: the final score of a category is the derived confidence, or the
    larger of it and the confidence that the document supplies for the
    category when there is one that parses as a float; it is then clamped
    to [[0, 1]] and rounded to 3 decimals.  For payment_structure "Net 30"
    the final value is 0.9 with a supplied 0.6, 0.95 with a supplied
    0.95, 1.0 with a supplied 1.7, and 0.9 with a supplied null; for a
    null field it is 0.123 with a supplied 0.12345, 1.0 with a supplied
    true, and 0.0 with a supplied -0.5. *)
Theorem derive_confidence_and_gaps_final (float_of_str : string → option float)
    (extracted : pydict) (score_key field_key : string) :
  (score_key, field_key) ∈ categories →
  let derived := derived_confidence (default VNone (extracted !! field_key)) in
  let combined :=
    match supplied_confidence float_of_str extracted score_key with
    | Some external => larger derived external
    | None => derived
    end in
  let supplied_clarity (field external : value) : option float :=
    (derive_confidence_and_gaps float_of_str
       {[ "payment_structure" := field;
          "confidence_scores" := VDict {[ "payment_terms_clarity" := external ]} ]}).1
    !! "payment_terms_clarity" in
  (derive_confidence_and_gaps float_of_str extracted).1 !! score_key
  = Some (round_decimals (clamped combined) 3)
  ∧ in_range (clamped combined) 1 = true
  ∧ in_range (round_decimals (clamped combined) 3) 1 = true
  ∧ supplied_clarity (VStr "Net 30") (VFloat 0.6) = Some 0.9%float
  ∧ supplied_clarity (VStr "Net 30") (VFloat 0.95) = Some 0.95%float
  ∧ supplied_clarity (VStr "Net 30") (VFloat 1.7) = Some 1%float
  ∧ supplied_clarity (VStr "Net 30") VNone = Some 0.9%float
  ∧ supplied_clarity VNone (VFloat 0.12345) = Some 0.123%float
  ∧ supplied_clarity VNone (VBool true) = Some 1%float
  ∧ supplied_clarity VNone (VFloat (-0.5)) = Some 0%float.
Proof.
  intros Hel derived combined supplied_clarity.
  destruct (derive_confidence_and_gaps_rule float_of_str extracted _ _ Hel)
    as [Hscore _].
  split; [exact Hscore|].
  split; [apply clamp01_in_range|].
  split.
  { rewrite <- py_round_decimals by done.
    apply py_round_3_in_range, clamp01_in_range. }
  repeat split; vm_compute; reflexivity.
Qed.

(** A supplied confidence that is a numeral in a string is parsed, and
    wins against the derived 0.9. *)
Lemma derive_confidence_and_gaps_final_witness :
  ("payment_terms_clarity"%string, "payment_structure"%string) ∈ categories
  ∧ (derive_confidence_and_gaps decimal_float_of_str supplied_wins).1
    !! "payment_terms_clarity" = Some 0.95%float.
Proof.
  assert (Hel : ("payment_terms_clarity"%string, "payment_structure"%string)
                ∈ categories) by compute_done.
  split; [exact Hel|].
  etransitivity;
    [exact (proj1 (derive_confidence_and_gaps_final decimal_float_of_str
                     supplied_wins _ _ Hel))|].
  vm_compute. reflexivity.
Defined.

Lemma derive_gaps_fields float_of_str extracted field_key :
  field_key ∈ (derive_confidence_and_gaps float_of_str extracted).2 →
  field_key ∈ mapping.*2.
Proof.
  unfold derive_confidence_and_gaps.
  destruct (derive_loop_spec float_of_str extracted
              (or_empty_dict (dict_get extracted "confidence_scores"))
              mapping (∅, []) mapping_NoDup) as (_ & _ & ->).
  cbn [snd]. rewrite app_nil_l, list_elem_of_filter. tauto.
Qed.

(** C10: two documents that differ only in revenue_classification get the
    same scores and the same gaps, revenue_classification is never a gap,
    and the contract score computed from the derived confidences, as well
    as everything the scoring step attaches to the document, is the same. *)
Theorem revenue_classification_noninterference
    (float_of_str : string → option float) (d1 d2 : pydict) :
  (∀ k, k ≠ "revenue_classification"%string → d1 !! k = d2 !! k) →
  derive_confidence_and_gaps float_of_str d1
  = derive_confidence_and_gaps float_of_str d2
  ∧ ("revenue_classification"%string
     ∉ (derive_confidence_and_gaps float_of_str d1).2)
  ∧ compute_contract_score
      (VFloat <$> (derive_confidence_and_gaps float_of_str d1).1)
    = compute_contract_score
        (VFloat <$> (derive_confidence_and_gaps float_of_str d2).1)
  ∧ scoring_outcome float_of_str d1 = scoring_outcome float_of_str d2.
Proof.
  intros Hsame.
  assert (Hget : ∀ k, k ≠ "revenue_classification"%string →
                      dict_get d1 k = dict_get d2 k).
  { intros k Hk. unfold dict_get. by rewrite Hsame. }
  assert (Hderive : derive_confidence_and_gaps float_of_str d1
                    = derive_confidence_and_gaps float_of_str d2).
  { unfold derive_confidence_and_gaps, mapping. cbn [foldl].
    unfold score_field.
    rewrite (Hget "confidence_scores"), (Hget "financial_details"),
      (Hget "party_identification"), (Hget "payment_structure"),
      (Hget "service_level_agreements"), (Hget "account_information") by done.
    reflexivity. }
  split; [exact Hderive|]. split.
  - intros Hin%derive_gaps_fields.
    assert (Hno : "revenue_classification"%string ∉ mapping.*2) by compute_done.
    done.
  - split; [by rewrite Hderive|].
    unfold scoring_outcome, score_document. rewrite Hderive.
    destruct (derive_confidence_and_gaps float_of_str d2) as [scores gaps].
    rewrite (Hget "confidence_scores") by done.
    destruct (as_mapping _) as [existing|e]; [|done]. cbn [mbind result_bind].
    unfold dict_get_default.
    rewrite !(lookup_insert_ne _ "confidence_scores" "gaps") by done.
    rewrite (Hsame "gaps") by done.
    destruct (compute_contract_score _) as [score|e]; [|done].
    cbn [mbind result_bind]. by simplify_map_eq.
Qed.

(** Two versions of the test document that differ in that field only. *)
Lemma revenue_classification_noninterference_witness :
  derive_confidence_and_gaps decimal_float_of_str
    (<["revenue_classification" := VStr "recurring"]> sample_extracted)
  = derive_confidence_and_gaps decimal_float_of_str sample_extracted.
Proof.
  apply revenue_classification_noninterference.
  intros k Hk. by rewrite lookup_insert_ne.
Defined.

(** ** The merge policy and the validation step *)

Section MergePolicy.
Variable implicit_null : bool.
Variable validate_dict_any : value → option pydict.
Variable validate_dict_float : value → validation (gmap string float).
Variable validate_list_str : value → option (list string).
Variable float_of_str : string → option float.

#[local] Abbreviation init := (ExtractedContract_init implicit_null validate_dict_any
                    validate_dict_float validate_list_str).
#[local] Abbreviation validate := (validate_or_raw implicit_null validate_dict_any
                        validate_dict_float validate_list_str).
#[local] Abbreviation merge := (merge_and_validate implicit_null validate_dict_any
                     validate_dict_float validate_list_str).
#[local] Abbreviation build := (build_document implicit_null validate_dict_any
                     validate_dict_float validate_list_str float_of_str).
#[local] Abbreviation derive := (derive_confidence_and_gaps float_of_str).

Lemma dict_merge_lookup (d1 d2 : pydict) key :
  dict_merge d1 d2 !! key
  = match d2 !! key with
    | Some v => Some v
    | None => d1 !! key
    end.
Proof.
  unfold dict_merge. rewrite lookup_union.
  by destruct (d2 !! key), (d1 !! key).
Qed.

(** The float conversion of the confidences overflows. *)
Lemma confidence_overflow (combined : pydict) msg :
  optional_field validate_dict_float (Valid (Some ∅))
    (combined !! "confidence_scores") = Overflow msg
  ↔ ∃ v, combined !! "confidence_scores" = Some v ∧ v ≠ VNone
         ∧ validate_dict_float v = Overflow msg.
Proof.
  unfold optional_field. split.
  - destruct (combined !! "confidence_scores") as [v|]; [|done].
    intros H. exists v. split; [done|].
    destruct v; try done;
      (split; [done|]; by destruct (validate_dict_float _) as [?| |?];
         try done; injection H as ->).
  - intros (v & -> & Hv & Hover). destruct v; try done; by rewrite Hover.
Qed.

(** The constructor of the model raises the escaped [OverflowError], or
    else nothing but [ValidationError]. *)
Lemma ExtractedContract_init_overflow combined msg :
  optional_field validate_dict_float (Valid (Some ∅))
    (combined !! "confidence_scores") = Overflow msg →
  init combined = Raise (Exn OverflowError msg).
Proof. intros H. unfold ExtractedContract_init. by rewrite H. Qed.

Lemma ExtractedContract_init_raises combined ve :
  init combined = Raise ve →
  (exn_cls ve = ValidationError
   ∧ ∀ msg, optional_field validate_dict_float (Valid (Some ∅))
              (combined !! "confidence_scores") ≠ Overflow msg)
  ∨ (∃ msg, ve = Exn OverflowError msg
            ∧ optional_field validate_dict_float (Valid (Some ∅))
                (combined !! "confidence_scores") = Overflow msg).
Proof.
  unfold ExtractedContract_init.
  destruct (optional_field validate_dict_float _ _) as [c| |msg] eqn:Hc.
  - destruct (_ ≫= _) as [validated|]; [done|]. intros [= <-]. by left.
  - destruct (_ ≫= _) as [validated|]; [done|]. intros [= <-]. by left.
  - intros [= <-]. right. by exists msg.
Qed.

Lemma validate_or_raw_eq combined :
  (∀ msg, optional_field validate_dict_float (Valid (Some ∅))
            (combined !! "confidence_scores") ≠ Overflow msg) →
  validate combined
  = Ok (match init combined with
        | Ok validated => ExtractedContract_dict validated
        | Raise _ => combined
        end).
Proof.
  intros Hno. unfold validate_or_raw.
  destruct (init combined) as [validated|ve] eqn:Hinit; [done|].
  destruct (ExtractedContract_init_raises _ _ Hinit) as [[-> _]|(msg & _ & H)];
    [done|].
  by destruct (Hno msg).
Qed.

Lemma validate_or_raw_cases combined :
  validate combined
  = match init combined with
    | Ok validated => Ok (ExtractedContract_dict validated)
    | Raise ve =>
      match exn_cls ve with
      | ValidationError => Ok combined
      | _ => Raise ve
      end
    end.
Proof. done. Qed.

(** C5, as the code has it: a rejection by the model never surfaces from
    the validation step: as long as no exception escapes from the float
    conversion of the confidences, the step returns the model's [dict()]
    when the model accepts the merged mapping and the raw merged mapping
    itself when it rejects it, and the pipeline goes on to score that
    document.  An [OverflowError] that escapes from that conversion is
    not caught by the step: it is raised by it and by the pipeline.  The
    step raises nothing else. *)
Theorem validate_or_raw_fallback (combined d1 d2 : pydict) :
  ((∀ v msg, combined !! "confidence_scores" = Some v → v ≠ VNone →
             validate_dict_float v ≠ Overflow msg) →
   validate combined
   = Ok (match init combined with
         | Ok validated => ExtractedContract_dict validated
         | Raise _ => combined
         end))
  ∧ (∀ v msg, combined !! "confidence_scores" = Some v → v ≠ VNone →
              validate_dict_float v = Overflow msg →
              validate combined = Raise (Exn OverflowError msg))
  ∧ (∀ e, validate combined = Raise e → exn_cls e = OverflowError)
  ∧ ((∀ v msg, dict_merge d1 d2 !! "confidence_scores" = Some v → v ≠ VNone →
               validate_dict_float v ≠ Overflow msg) →
     build (VDict d1) (VDict d2)
     = score_document float_of_str
         (match init (dict_merge d1 d2) with
          | Ok validated => ExtractedContract_dict validated
          | Raise _ => dict_merge d1 d2
          end))
  ∧ (∀ v msg, dict_merge d1 d2 !! "confidence_scores" = Some v → v ≠ VNone →
              validate_dict_float v = Overflow msg →
              build (VDict d1) (VDict d2) = Raise (Exn OverflowError msg)).
Proof.
  assert (Hno : ∀ c : pydict,
            (∀ v msg, c !! "confidence_scores" = Some v → v ≠ VNone →
                      validate_dict_float v ≠ Overflow msg) →
            ∀ msg, optional_field validate_dict_float (Valid (Some ∅))
                     (c !! "confidence_scores") ≠ Overflow msg).
  { intros c H msg (v & Hv & Hne & Hover)%confidence_overflow.
    by apply (H v msg). }
  assert (Hyes : ∀ (c : pydict) v msg,
            c !! "confidence_scores" = Some v → v ≠ VNone →
            validate_dict_float v = Overflow msg →
            validate c = Raise (Exn OverflowError msg)).
  { intros c v msg Hv Hne Hover. unfold validate_or_raw.
    rewrite (ExtractedContract_init_overflow c msg); [done|].
    apply confidence_overflow. by exists v. }
  split; [|split; [|split; [|split]]].
  - intros H. by apply validate_or_raw_eq, Hno.
  - apply Hyes.
  - intros e. rewrite validate_or_raw_cases.
    destruct (init combined) as [validated|ve] eqn:Hinit; [done|].
    destruct (ExtractedContract_init_raises _ _ Hinit)
      as [[-> _]|(msg & -> & _)]; [done|].
    by intros [= <-].
  - intros H. unfold build_document, merge_and_validate.
    cbn [as_mapping mbind result_bind].
    by rewrite validate_or_raw_eq by by apply Hno.
  - intros v msg Hv Hne Hover. unfold build_document, merge_and_validate.
    cbn [as_mapping mbind result_bind].
    by rewrite (Hyes _ v msg).
Qed.

Lemma ExtractedContract_dict_keys validated key :
  key ∈ category_keys → is_Some (ExtractedContract_dict validated !! key).
Proof.
  unfold category_keys, ExtractedContract_dict.
  rewrite !elem_of_cons, elem_of_nil.
  intros [->|[->|[->|[->|[->|[->|[]]]]]]]; by simplify_map_eq.
Qed.

(** C6, as the code has it: after the merge and the validation, the six
    category keys are all present (possibly null) when the model accepted
    the merged mapping; when the model rejected it the document is the
    raw union of the two group results, with the keys they supplied; and
    when an exception escaped from the validation there is no document. *)
Theorem merge_and_validate_keys (d1 d2 : pydict) :
  match init (dict_merge d1 d2) with
  | Ok _ =>
    ∃ doc, merge (VDict d1) (VDict d2) = Ok doc
           ∧ Forall (λ key, is_Some (doc !! key)) category_keys
  | Raise ve =>
    match exn_cls ve with
    | ValidationError =>
      ∃ doc, merge (VDict d1) (VDict d2) = Ok doc
             ∧ doc = dict_merge d1 d2 ∧ dom doc = dom d1 ∪ dom d2
    | _ => merge (VDict d1) (VDict d2) = Raise ve
    end
  end.
Proof.
  unfold merge_and_validate. cbn [as_mapping mbind result_bind].
  rewrite validate_or_raw_cases.
  destruct (init (dict_merge d1 d2)) as [validated|ve].
  - eexists; split; [reflexivity|].
    apply Forall_forall. intros key Hkey. by apply ExtractedContract_dict_keys.
  - destruct (exn_cls ve); try done.
    eexists; split; [reflexivity|]. split; [done|].
    unfold dict_merge. rewrite dom_union_L. apply (comm_L _).
Qed.


End MergePolicy.

(** A string where the model expects a mapping is rejected, under
    validators that let no exception escape, and the raw mapping is kept. *)
Lemma validate_or_raw_fallback_witness :
  validate_or_raw true strict_dict_any strict_dict_float strict_list_str
    {[ "payment_structure" := VStr "Net 30" ]}
  = Ok {[ "payment_structure" := VStr "Net 30" ]}.
Proof.
  etransitivity;
    [apply (proj1 (validate_or_raw_fallback true strict_dict_any
                     strict_dict_float strict_list_str decimal_float_of_str
                     {[ "payment_structure" := VStr "Net 30" ]} ∅ ∅))|].
  - intros v msg Hv. vm_compute in Hv. discriminate.
  - vm_compute. reflexivity.
Defined.


(** There the financial completeness reported by the model, 0.8, wins over
    the derived 1.0, and no field is a gap. *)
Example test_document_confidence :
  test_document !! "confidence_scores"
  = Some (VDict {[ "financial_completeness" := VFloat 0.8;
                   "party_identification" := VFloat 1;
                   "payment_terms_clarity" := VFloat 1;
                   "sla_definition" := VFloat 1;
                   "contact_information" := VFloat 1 ]})
  ∧ test_document !! "gaps" = Some (VList [])
  ∧ test_document !! "score" = Some (VFloat 94).
Proof. repeat split; vm_compute; reflexivity. Qed.

(** C6 fails as stated: a string where the model expects a mapping makes
    the validation fail, under either rule for missing keys, and the raw
    union that is kept lacks the keys that neither group supplied. *)
Lemma category_keys_present_counterexample :
  merge_and_validate true strict_dict_any strict_dict_float strict_list_str
    (VDict ∅) (VDict {[ "payment_structure" := VStr "Net 30" ]})
  = Ok {[ "payment_structure" := VStr "Net 30" ]}
  ∧ merge_and_validate false strict_dict_any strict_dict_float strict_list_str
      (VDict ∅) (VDict {[ "payment_structure" := VStr "Net 30" ]})
    = Ok {[ "payment_structure" := VStr "Net 30" ]}
  ∧ ({[ "payment_structure" := VStr "Net 30" ]} : pydict)
    !! "party_identification" = None.
Proof. repeat split; vm_compute; reflexivity. Qed.

(** C5 fails as stated: under validators that convert with [float()] as
    version 1 of the library does, a confidence that is an integer too
    large for a float makes the validation raise [OverflowError], which
    the step does not catch; the pipeline raises it instead of falling
    back to the raw mapping. *)
Lemma validation_overflow_counterexample :
  validate_or_raw true strict_dict_any coercing_dict_float strict_list_str
    {[ "confidence_scores" := VDict {[ "other" := VInt (10 ^ 400) ]} ]}
  = Raise (Exn OverflowError "int too large to convert to float")
  ∧ build_document true strict_dict_any coercing_dict_float strict_list_str
      decimal_float_of_str (VDict group1_result)
      (VDict {[ "confidence_scores" := VDict {[ "other" := VInt (10 ^ 400) ]} ]})
    = Raise (Exn OverflowError "int too large to convert to float").
Proof. split; vm_compute; reflexivity. Qed.

(** ** The job state machine *)

Lemma set_item_insert py_repr (σ : registry) tr contract_id f j :
  set_item py_repr contract_id f (<[contract_id := j]> σ, tr)
  = (Ok tt, (<[contract_id := f j]> σ,
             tr ++ [Wrote (<[contract_id := f j]> σ)])).
Proof.
  unfold set_item. by rewrite lookup_insert_eq, insert_insert_eq.
Qed.

Lemma set_item_unknown py_repr (σ : registry) tr contract_id f :
  σ !! contract_id = None →
  set_item py_repr contract_id f (σ, tr)
  = (Raise (Exn KeyError (py_repr contract_id)), (σ, tr)).
Proof. intros H. unfold set_item. by rewrite H. Qed.

Section Run.
Variable py_repr : string → string.
Variable implicit_null : bool.
Variable validate_dict_any : value → option pydict.
Variable validate_dict_float : value → validation (gmap string float).
Variable validate_list_str : value → option (list string).
Variable float_of_str : string → option float.
Variable extract_text_from_pdf : string → result string.
Variable call_groq : string → string → result value.

#[local] Abbreviation run := (process_contract py_repr implicit_null validate_dict_any validate_dict_float
  validate_list_str float_of_str extract_text_from_pdf call_groq).
#[local] Abbreviation body := (process_body py_repr implicit_null validate_dict_any validate_dict_float
  validate_list_str float_of_str extract_text_from_pdf call_groq).
#[local] Abbreviation outcome := (pipeline_result implicit_null validate_dict_any validate_dict_float
  validate_list_str float_of_str extract_text_from_pdf call_groq).
#[local] Abbreviation events := (job_events implicit_null validate_dict_any validate_dict_float
  validate_list_str float_of_str extract_text_from_pdf call_groq).

Lemma handler_run (σ : registry) tr contract_id e j :
  (set_item py_repr contract_id (set_status failed);;
   set_item py_repr contract_id (set_error (exn_str e));;
   set_item py_repr contract_id (set_progress 100)) (<[contract_id := j]> σ, tr)
  = (Ok tt,
     (<[contract_id := last_written j (failure_events e j)]> σ,
      tr ++ (lift_event σ contract_id <$> failure_events e j))).
Proof.
  unfold mbind, M_bind. rewrite !set_item_insert.
  cbn [fmap list_fmap lift_event failure_events last_written foldl].
  by rewrite <- !app_assoc.
Qed.

(** The registry-level run is the job-level run, lifted. *)
Lemma process_contract_run (σ : registry) tr contract_id file_path j :
  σ !! contract_id = Some j →
  run contract_id file_path (σ, tr)
  = (Ok tt,
     (<[contract_id := last_written j (events file_path j)]> σ,
      tr ++ (lift_event σ contract_id <$> events file_path j))).
Proof.
  intros Hj. rewrite <- (insert_id σ contract_id j Hj) at 1.
  unfold process_contract, try_except.
  unfold mbind at 1 2, M_bind at 1 2. rewrite !set_item_insert.
  unfold job_events, body_events, process_body, call, await.
  unfold mbind at 1, M_bind at 1.
  destruct (extract_text_from_pdf file_path) as [text|e].
  2: { rewrite handler_run. cbn [fmap list_fmap lift_event last_written foldl].
       by rewrite <- !app_assoc. }
  unfold mbind at 1 2, M_bind at 1 2. rewrite set_item_insert.
  unfold mbind at 1, M_bind at 1.
  destruct (call_groq text fields1) as [extracted1|e].
  2: { rewrite handler_run. cbn [fmap list_fmap lift_event last_written foldl].
       by rewrite <- !app_assoc. }
  unfold mbind at 1, M_bind at 1.
  destruct (call_groq text fields2) as [extracted2|e].
  2: { rewrite handler_run. cbn [fmap list_fmap lift_event last_written foldl].
       by rewrite <- !app_assoc. }
  unfold mbind at 1, M_bind at 1.
  destruct (build_document _ _ _ _ _ extracted1 extracted2) as [doc|e].
  2: { rewrite handler_run. cbn [fmap list_fmap lift_event last_written foldl].
       by rewrite <- !app_assoc. }
  unfold mbind, M_bind. rewrite !set_item_insert.
  cbn [fmap list_fmap lift_event success_events last_written foldl].
  by rewrite <- !app_assoc.
Qed.

End Run.

Lemma written_lift (σ : registry) contract_id evs :
  written contract_id (lift_event σ contract_id <$> evs) = jwritten evs.
Proof.
  unfold written, jwritten. induction evs as [|[j|j] evs IH]; [done| |].
  - cbn [fmap list_fmap omap list_omap lift_event].
    rewrite lookup_insert_eq. f_equal. exact IH.
  - cbn [fmap list_fmap omap list_omap lift_event]. exact IH.
Qed.

Lemma observed_lift (σ : registry) contract_id evs :
  observed contract_id (lift_event σ contract_id <$> evs) = jobserved evs.
Proof.
  unfold observed, jobserved. induction evs as [|[j|j] evs IH]; [done| |].
  - cbn [fmap list_fmap omap list_omap lift_event]. exact IH.
  - cbn [fmap list_fmap omap list_omap lift_event].
    rewrite lookup_insert_eq. f_equal. exact IH.
Qed.

Section Lifecycle.
Variable py_repr : string → string.
Variable implicit_null : bool.
Variable validate_dict_any : value → option pydict.
Variable validate_dict_float : value → validation (gmap string float).
Variable validate_list_str : value → option (list string).
Variable float_of_str : string → option float.
Variable extract_text_from_pdf : string → result string.
Variable call_groq : string → string → result value.

#[local] Abbreviation run := (process_contract py_repr implicit_null validate_dict_any validate_dict_float
  validate_list_str float_of_str extract_text_from_pdf call_groq).
#[local] Abbreviation outcome := (pipeline_result implicit_null validate_dict_any validate_dict_float
  validate_list_str float_of_str extract_text_from_pdf call_groq).
#[local] Abbreviation events := (job_events implicit_null validate_dict_any validate_dict_float
  validate_list_str float_of_str extract_text_from_pdf call_groq).

(** The run of an unknown job raises [KeyError] before its [try]. *)
Lemma process_contract_unknown (σ : registry) tr contract_id file_path :
  σ !! contract_id = None →
  (run contract_id file_path (σ, tr)).1
  = Raise (Exn KeyError (py_repr contract_id)).
Proof.
  intros H. unfold process_contract. unfold mbind at 1, M_bind at 1.
  by rewrite set_item_unknown.
Qed.

(** C7: when any step of the run raises an exception (the text
    extraction, either model call, the merge, the validation or the
    scoring), the run itself returns normally and leaves the job failed,
    with the string of the exception as its error and progress 100; its
    data, null at the start, is null in every record written on the way. *)
Theorem process_contract_failure (σ : registry) (tr : list event)
    (contract_id file_path : string) (j : Job) (e : exn) :
  σ !! contract_id = Some j →
  data j = None →
  outcome file_path = Raise e →
  ∃ σ' tr',
    run contract_id file_path (σ, tr) = (Ok tt, (σ', tr ++ tr'))
    ∧ σ' !! contract_id
      = Some {| status := failed; progress := 100; data := None;
                error := Some (exn_str e); created_at := created_at j |}
    ∧ Forall (λ j', data j' = None) (written contract_id tr').
Proof.
  intros Hj Hdata Hout.
  rewrite (process_contract_run _ _ _ _ _ _ _ _ _ _ _ _ j Hj).
  eexists _, _. split; [reflexivity|].
  rewrite lookup_insert_eq, written_lift.
  unfold pipeline_result in Hout. unfold job_events, body_events.
  destruct j as [st pr da er cr]. cbn [data] in Hdata. subst da.
  destruct (extract_text_from_pdf file_path) as [text|e1];
    cbn [mbind result_bind] in Hout.
  2: { injection Hout as ->. split; [done|]. by repeat constructor. }
  destruct (call_groq text fields1) as [x1|e1]; cbn [mbind result_bind] in Hout.
  2: { injection Hout as ->. split; [done|]. by repeat constructor. }
  destruct (call_groq text fields2) as [x2|e1]; cbn [mbind result_bind] in Hout.
  2: { injection Hout as ->. split; [done|]. by repeat constructor. }
  destruct (build_document _ _ _ _ _ x1 x2) as [doc|e1]; [done|].
  injection Hout as ->. split; [done|]. by repeat constructor.
Qed.

(** C8, as amended: the run of a job created by the upload returns
    normally; every write moves the status along pending, processing,
    completed or failed (a terminal status is never left) and never lowers
    the progress, which only takes the values 0, 10, 40 and 100; the run
    ends in a terminal status with progress 100; the record that a request
    can observe (before the run, at each await, after the run) has data
    exactly when it is completed and an error exactly when it is failed;
    after each single assignment, a completed record has data, a record
    with an error is failed, and a record with progress 100 satisfies both
    equivalences.  No other job is touched. *)
Theorem process_contract_lifecycle (σ : registry)
    (contract_id file_path : string) (j : Job) :
  σ !! contract_id = Some j →
  fresh_job j →
  ∃ σ' tr j',
    run contract_id file_path (σ, []) = (Ok tt, (σ', tr))
    ∧ σ' !! contract_id = Some j'
    ∧ chain job_step j (written contract_id tr)
    ∧ Forall (λ jk, progress jk = 0 ∨ progress jk = 10
                    ∨ progress jk = 40 ∨ progress jk = 100)
        (written contract_id tr)
    ∧ (status j' = completed ∨ status j' = failed)
    ∧ progress j' = 100
    ∧ Forall job_consistent (j :: observed contract_id tr ++ [j'])
    ∧ Forall (λ jk, (status jk = completed → data jk ≠ None)
                    ∧ (error jk ≠ None → status jk = failed)
                    ∧ (progress jk = 100 → job_consistent jk))
        (written contract_id tr)
    ∧ (∀ other, other ≠ contract_id → σ' !! other = σ !! other).
Proof.
  intros Hj (Hst & Hpr & Hda & Her).
  rewrite (process_contract_run _ _ _ _ _ _ _ _ _ _ _ _ j Hj).
  eexists _, _, _. split; [reflexivity|].
  rewrite lookup_insert_eq. split; [reflexivity|].
  rewrite app_nil_l, written_lift, observed_lift.
  destruct j as [st pr da er cr]. cbn [status progress data error] in *.
  subst st pr da er.
  unfold job_events, body_events, job_step, status_step, job_consistent.
  destruct (extract_text_from_pdf file_path) as [text|e1];
    [destruct (call_groq text fields1) as [x1|e1];
     [destruct (call_groq text fields2) as [x2|e1];
      [destruct (build_document _ _ _ _ _ x1 x2) as [doc|e1]|]|]|].
  all: cbn; rewrite ?Forall_cons, ?Forall_nil; cbn.
  all: repeat split; try lia; try done; try (intros; by auto).
  all: try (intros other Hne; by rewrite lookup_insert_ne).
  all: try (intros H; exfalso; by apply H).
Qed.

End Lifecycle.

(** A successful run stores the final document and completes the job. *)
Lemma process_contract_success py_repr implicit_null validate_dict_any
    validate_dict_float validate_list_str float_of_str extract_text_from_pdf
    call_groq (σ : registry) tr contract_id file_path j doc :
  σ !! contract_id = Some j →
  pipeline_result implicit_null validate_dict_any validate_dict_float
    validate_list_str float_of_str extract_text_from_pdf call_groq file_path
  = Ok doc →
  ∃ σ' tr',
    process_contract py_repr implicit_null validate_dict_any validate_dict_float
      validate_list_str float_of_str extract_text_from_pdf call_groq
      contract_id file_path (σ, tr)
    = (Ok tt, (σ', tr'))
    ∧ σ' !! contract_id
      = Some {| status := completed; progress := 100; data := Some doc;
                error := error j; created_at := created_at j |}.
Proof.
  intros Hj Hout.
  rewrite (process_contract_run _ _ _ _ _ _ _ _ _ _ _ _ j Hj).
  eexists _, _. split; [reflexivity|]. rewrite lookup_insert_eq.
  unfold pipeline_result in Hout. unfold job_events, body_events.
  destruct (extract_text_from_pdf file_path) as [text|e1]; [|done].
  cbn [mbind result_bind] in Hout.
  destruct (call_groq text fields1) as [x1|e1]; [|done].
  cbn [mbind result_bind] in Hout.
  destruct (call_groq text fields2) as [x2|e1]; [|done].
  cbn [mbind result_bind] in Hout.
  destruct (build_document _ _ _ _ _ x1 x2) as [d|e1]; [|done].
  by injection Hout as ->.
Qed.

(** An unreadable PDF fails the uploaded job with the parser's message. *)
Lemma process_contract_failure_witness :
  ∃ σ' tr',
    process_contract plain_repr true strict_dict_any strict_dict_float strict_list_str
      decimal_float_of_str unreadable_pdf fake_call_groq
      "job-1" "uploaded_contracts/job-1.pdf" (uploaded_registry, [])
    = (Ok tt, (σ', [] ++ tr'))
    ∧ σ' !! "job-1"
      = Some {| status := failed; progress := 100; data := None;
                error := Some "No /Root object! - Is this really a PDF?"%string;
                created_at := created_at new_job |}
    ∧ Forall (λ j', data j' = None) (written "job-1" tr').
Proof.
  apply (process_contract_failure plain_repr true strict_dict_any
           strict_dict_float strict_list_str decimal_float_of_str unreadable_pdf fake_call_groq
           uploaded_registry [] "job-1" "uploaded_contracts/job-1.pdf" new_job
           (Exn (OtherException "PDFSyntaxError")
                "No /Root object! - Is this really a PDF?")).
  - reflexivity.
  - reflexivity.
  - reflexivity.
Defined.

(** The uploaded job of the end-to-end test runs through its life cycle. *)
Lemma process_contract_lifecycle_witness :
  ∃ σ' tr j',
    process_contract plain_repr true strict_dict_any strict_dict_float strict_list_str
      decimal_float_of_str readable_pdf fake_call_groq
      "job-1" "uploaded_contracts/job-1.pdf" (uploaded_registry, [])
    = (Ok tt, (σ', tr))
    ∧ σ' !! "job-1" = Some j'
    ∧ chain job_step new_job (written "job-1" tr)
    ∧ Forall (λ jk, progress jk = 0 ∨ progress jk = 10
                    ∨ progress jk = 40 ∨ progress jk = 100)
        (written "job-1" tr)
    ∧ (status j' = completed ∨ status j' = failed)
    ∧ progress j' = 100
    ∧ Forall job_consistent (new_job :: observed "job-1" tr ++ [j'])
    ∧ Forall (λ jk, (status jk = completed → data jk ≠ None)
                    ∧ (error jk ≠ None → status jk = failed)
                    ∧ (progress jk = 100 → job_consistent jk))
        (written "job-1" tr)
    ∧ (∀ other, other ≠ "job-1"%string → σ' !! other = uploaded_registry !! other).
Proof.
  apply (process_contract_lifecycle plain_repr true strict_dict_any
           strict_dict_float strict_list_str decimal_float_of_str readable_pdf fake_call_groq
           uploaded_registry "job-1" "uploaded_contracts/job-1.pdf" new_job).
  - reflexivity.
  - by repeat split.
Defined.

(** In that run the job completes with the document of the test. *)
Example test_run_completes :
  ∃ σ' tr,
    process_contract plain_repr true strict_dict_any strict_dict_float strict_list_str
      decimal_float_of_str readable_pdf fake_call_groq
      "job-1" "uploaded_contracts/job-1.pdf" (uploaded_registry, [])
    = (Ok tt, (σ', tr))
    ∧ σ' !! "job-1"
      = Some {| status := completed; progress := 100;
                data := Some test_document; error := None;
                created_at := "2025-09-07T00:00:00Z" |}.
Proof.
  apply (process_contract_success _ _ _ _ _ _ _ _ uploaded_registry [] "job-1"
           "uploaded_contracts/job-1.pdf" new_job test_document).
  - reflexivity.
  - vm_compute. reflexivity.
Qed.

(** Between two awaits the record passes through states that no request
    can observe: on success the data is stored one assignment before the
    status becomes completed. *)
Example transient_record_after_data (doc : pydict) :
  jwritten (success_events doc (set_progress 40 (set_progress 10
              (set_status processing new_job)))) !! 0%nat
  = Some {| status := processing; progress := 40; data := Some doc;
            error := None; created_at := "2025-09-07T00:00:00Z" |}.
Proof. reflexivity. Qed.

(** C8 fails as stated.  In the run of the end-to-end test the fourth
    assignment leaves a record that has data and is still processing; in
    the run on an unreadable PDF the third assignment leaves a record
    that is failed and has no error; and in a second run of the job of the
    end-to-end test, after it has completed, the first assignment leaves
    the terminal status and the second lowers the progress from 100 to
    10. *)
Lemma lifecycle_counterexample :
  written "job-1"
    (process_contract plain_repr true strict_dict_any strict_dict_float
       strict_list_str decimal_float_of_str readable_pdf fake_call_groq
       "job-1" "uploaded_contracts/job-1.pdf" (uploaded_registry, [])).2.2
  !! 3%nat
  = Some {| status := processing; progress := 40; data := Some test_document;
            error := None; created_at := "2025-09-07T00:00:00Z" |}
  ∧ written "job-1"
      (process_contract plain_repr true strict_dict_any strict_dict_float
         strict_list_str decimal_float_of_str unreadable_pdf fake_call_groq
         "job-1" "uploaded_contracts/job-1.pdf" (uploaded_registry, [])).2.2
    !! 2%nat
    = Some {| status := failed; progress := 10; data := None;
              error := None; created_at := "2025-09-07T00:00:00Z" |}
  ∧ take 2 (written "job-1"
      (process_contract plain_repr true strict_dict_any strict_dict_float
         strict_list_str decimal_float_of_str readable_pdf fake_call_groq
         "job-1" "uploaded_contracts/job-1.pdf" (completed_registry, [])).2.2)
    = [ {| status := processing; progress := 100; data := Some test_document;
           error := None; created_at := "2025-09-07T00:00:00Z" |};
        {| status := processing; progress := 10; data := Some test_document;
           error := None; created_at := "2025-09-07T00:00:00Z" |} ].
Proof. repeat split; vm_compute; reflexivity. Qed.

(** ** More on the scoring helpers *)

Lemma derive_scores_lookup float_of_str extracted key :
  (derive_confidence_and_gaps float_of_str extracted).1 !! key
  = match list_find (λ entry, entry.1 = key) mapping with
    | Some (_, entry) =>
      Some (field_score float_of_str extracted
              (or_empty_dict (dict_get extracted "confidence_scores")) entry)
    | None => None
    end.
Proof.
  unfold derive_confidence_and_gaps.
  destruct (derive_loop_spec float_of_str extracted
              (or_empty_dict (dict_get extracted "confidence_scores"))
              mapping (∅, []) mapping_NoDup) as (Hin & Hout & _).
  destruct (list_find _ mapping) as [[i entry]|] eqn:Hfind.
  - apply list_find_Some in Hfind as (Hi & <- & _).
    apply Hin. by eapply list_elem_of_lookup_2.
  - rewrite Hout; [done|]. cbn [fst].
    intros ([k f] & -> & Hel)%list_elem_of_fmap.
    apply list_find_None in Hfind. rewrite Forall_forall in Hfind.
    by apply (Hfind _ Hel).
Qed.

(** X1: whatever the document holds, [derive_confidence_and_gaps] returns
    a score for each of the five scoring categories and for nothing else,
    and every score is a number in [[0, 1]], never a NaN. *)
Theorem derive_scores_domain (float_of_str : string → option float)
    (extracted : pydict) :
  let scores := (derive_confidence_and_gaps float_of_str extracted).1 in
  (∀ key, is_Some (scores !! key) ↔ key ∈ mapping.*1)
  ∧ size scores = 5%nat
  ∧ map_Forall (λ _ score, in_range score 1 = true) scores.
Proof.
  intros scores.
  assert (Hdom : ∀ key, is_Some (scores !! key) ↔ key ∈ mapping.*1).
  { intros key. subst scores. rewrite derive_scores_lookup.
    destruct (list_find _ mapping) as [[i entry]|] eqn:Hfind.
    - apply list_find_Some in Hfind as (Hi & <- & _). split; [|by eauto].
      intros _. apply list_elem_of_fmap. exists entry. split; [done|].
      by eapply list_elem_of_lookup_2.
    - split; [by intros [? [=]]|].
      intros ([k f] & -> & Hel)%list_elem_of_fmap.
      apply list_find_None in Hfind. rewrite Forall_forall in Hfind.
      by destruct (Hfind _ Hel). }
  split; [exact Hdom|]. split.
  - assert (Heq : dom scores = list_to_set (C := gset string) mapping.*1).
    { apply set_eq. intros key.
      by rewrite elem_of_dom, Hdom, elem_of_list_to_set. }
    rewrite <- size_dom, Heq, size_list_to_set by apply mapping_NoDup. done.
  - intros key score Hkey. subst scores.
    rewrite derive_scores_lookup in Hkey.
    destruct (list_find _ mapping) as [[i entry]|]; [|done].
    injection Hkey as <-. apply final_score_in_range.
Qed.

(** X2: the gaps that [derive_confidence_and_gaps] returns are the field
    names, in the fixed order financial_details, party_identification,
    payment_structure, service_level_agreements, account_information, of
    the fields that are null, missing or an empty mapping; no name is
    listed twice. *)
Theorem derive_gaps_order (float_of_str : string → option float)
    (extracted : pydict) :
  (derive_confidence_and_gaps float_of_str extracted).2
  = filter (λ field_key, spec_gap (dict_get extracted field_key))
      [ "financial_details"%string; "party_identification"%string;
        "payment_structure"%string; "service_level_agreements"%string;
        "account_information"%string ]
  ∧ NoDup (derive_confidence_and_gaps float_of_str extracted).2.
Proof.
  assert (Heq : (derive_confidence_and_gaps float_of_str extracted).2
    = filter (λ field_key, spec_gap (dict_get extracted field_key)) mapping.*2).
  { unfold derive_confidence_and_gaps.
    destruct (derive_loop_spec float_of_str extracted
                (or_empty_dict (dict_get extracted "confidence_scores"))
                mapping (∅, []) mapping_NoDup) as (_ & _ & ->).
    cbn [snd]. rewrite app_nil_l. apply list_filter_iff. intros fk.
    unfold field_is_gap. rewrite field_confidence_spec. cbn [snd].
    apply bool_decide_eq_true. }
  split; [exact Heq|]. rewrite Heq. apply NoDup_filter. compute_done.
Qed.

(** X3: [compute_contract_score] reads the five weighted categories only:
    setting or removing any other key of the mapping does not change its
    result, error included. *)
Theorem compute_contract_score_other_keys (confidence_scores : pydict)
    (key : string) (v : value) :
  key ∉ weights.*1 →
  compute_contract_score (<[key := v]> confidence_scores)
  = compute_contract_score confidence_scores
  ∧ compute_contract_score (delete key confidence_scores)
    = compute_contract_score confidence_scores.
Proof.
  intros Hkey.
  assert (Hws : ∀ ws (s1 s2 : pydict) score,
            (∀ k, k ∈ ws.*1 → s1 !! k = s2 !! k) →
            weighted_sum ws s1 score = weighted_sum ws s2 score).
  { induction ws as [|[k w] ws IH]; intros s1 s2 score Hext; [done|].
    cbn [weighted_sum]. unfold dict_get_default.
    rewrite (Hext k) by (rewrite fmap_cons; apply list_elem_of_here).
    destruct (add_weighted score _ w) as [score'|e]; [|done].
    cbn [mbind result_bind]. apply IH. intros k' Hk'. apply Hext.
    rewrite fmap_cons. by apply list_elem_of_further. }
  unfold compute_contract_score. split.
  - rewrite (Hws weights (<[key := v]> confidence_scores) confidence_scores);
      [done|].
    intros k Hk. rewrite lookup_insert_ne; [done|]. by intros ->.
  - rewrite (Hws weights (delete key confidence_scores) confidence_scores);
      [done|].
    intros k Hk. rewrite lookup_delete_ne; [done|]. by intros ->.
Qed.

(** A stray key next to the scores of the unit test changes nothing. *)
Lemma compute_contract_score_other_keys_witness :
  compute_contract_score (<["revenue_recognition" := VStr "n/a"]> test_scores)
  = compute_contract_score test_scores
  ∧ compute_contract_score (delete "revenue_recognition" test_scores)
    = compute_contract_score test_scores.
Proof.
  apply (compute_contract_score_other_keys test_scores "revenue_recognition"
           (VStr "n/a")).
  compute_done.
Defined.

Lemma float_of_int_raises z e :
  float_of_int z = Raise e → exn_cls e = OverflowError.
Proof.
  unfold float_of_int.
  destruct (binary_normalize prec emax z 0 false); try done. by intros [= <-].
Qed.

Lemma add_weighted_raises score v w e :
  add_weighted score v w = Raise e →
  (is_number v = false ∧ exn_cls e = TypeError)
  ∨ (is_number v = true ∧ exn_cls e = OverflowError).
Proof.
  destruct v as [|b|z|f|s|l|d]; cbn [add_weighted is_number].
  - intros [= <-]. by left.
  - destruct (float_of_int _) as [f|e'] eqn:Hf; [done|].
    cbn [mbind result_bind]. intros [= <-]. right.
    split; [done|]. by eapply float_of_int_raises.
  - destruct (float_of_int _) as [f|e'] eqn:Hf; [done|].
    cbn [mbind result_bind]. intros [= <-]. right.
    split; [done|]. by eapply float_of_int_raises.
  - done.
  - intros [= <-]. by left.
  - intros [= <-]. by left.
  - intros [= <-]. by left.
Qed.

Lemma add_weighted_number score v w score' :
  add_weighted score v w = Ok score' → is_number v = true.
Proof. by destruct v. Qed.

Lemma add_weighted_total score v w :
  w ∈ weights.*2 → is_float_or_bool v = true ∨ v = VInt 0 →
  ∃ score', add_weighted score v w = Ok score'.
Proof.
  intros Hw [Hv| ->].
  - destruct v as [|b|z|f|s|l|d]; try done; cbn [add_weighted].
    + assert (Hok : ∃ f, float_of_int (Z.b2z b * w) = Ok f).
      { cbn in Hw.
        repeat (apply elem_of_cons in Hw as [->|Hw]);
          [..|by apply elem_of_nil in Hw];
          destruct b; eexists; vm_compute; reflexivity. }
      destruct Hok as [f ->]. by eexists.
    + by eexists.
  - cbn [add_weighted]. rewrite Z.mul_0_l. by eexists.
Qed.

Lemma weighted_sum_raises ws (confidence_scores : pydict) score e :
  weighted_sum ws confidence_scores score = Raise e →
  exn_cls e = TypeError ∨ exn_cls e = OverflowError.
Proof.
  revert score. induction ws as [|[k w] ws IH]; intros score; [done|].
  cbn [weighted_sum].
  destruct (add_weighted score _ w) as [score'|e'] eqn:Hadd.
  - cbn [mbind result_bind]. apply IH.
  - cbn [mbind result_bind]. intros [= <-].
    apply add_weighted_raises in Hadd. tauto.
Qed.

Lemma compute_contract_score_raises (confidence_scores : pydict) e :
  compute_contract_score confidence_scores = Raise e →
  exn_cls e = TypeError ∨ exn_cls e = OverflowError.
Proof.
  unfold compute_contract_score.
  destruct (weighted_sum _ _ _) as [score|e'] eqn:Hsum; [done|].
  cbn [mbind result_bind]. intros [= <-]. by eapply weighted_sum_raises.
Qed.

(** X4: [compute_contract_score] succeeds whenever each of the five
    categories is missing, a float (a NaN or an infinity included) or a
    bool; when it succeeds, every category that is present is a number;
    and when it raises, the exception is a [TypeError] (a string, a list,
    null or a mapping among the five) or an [OverflowError] (an integer
    too large for a float), nothing else. *)
Theorem compute_contract_score_errors (confidence_scores : pydict) :
  ((∀ key v, key ∈ weights.*1 → confidence_scores !! key = Some v →
             is_float_or_bool v = true) →
   ∃ score, compute_contract_score confidence_scores = Ok score)
  ∧ (∀ score key v,
       compute_contract_score confidence_scores = Ok score →
       key ∈ weights.*1 → confidence_scores !! key = Some v →
       is_number v = true)
  ∧ (∀ e, compute_contract_score confidence_scores = Raise e →
          exn_cls e = TypeError ∨ exn_cls e = OverflowError).
Proof.
  split; [|split].
  - intros Hok. unfold compute_contract_score.
    assert (Hsum : ∀ ws score, ws ⊆ weights →
              ∃ score', weighted_sum ws confidence_scores score = Ok score').
    { induction ws as [|[k w] ws IH]; intros score Hsub; [by eexists|].
      cbn [weighted_sum].
      assert (Hkw : (k, w) ∈ weights) by (apply Hsub, list_elem_of_here).
      destruct (add_weighted_total score
                  (dict_get_default confidence_scores k (VInt 0)) w)
        as [score' ->].
      - apply list_elem_of_fmap. by exists (k, w).
      - unfold dict_get_default.
        destruct (confidence_scores !! k) as [v|] eqn:Hk; [|by right].
        left. apply (Hok k v); [|done].
        apply list_elem_of_fmap. by exists (k, w).
      - cbn [mbind result_bind]. apply IH. intros x Hx.
        by apply Hsub, list_elem_of_further. }
    destruct (Hsum weights 0%float) as [score ->]; [done|]. by eexists.
  - intros score key v Hscore Hkey Hv. unfold compute_contract_score in Hscore.
    assert (Hsum : ∀ ws s s', weighted_sum ws confidence_scores s = Ok s' →
              key ∈ ws.*1 → is_number v = true).
    { induction ws as [|[k w] ws IH]; intros s s' Hs Hel.
      - by apply elem_of_nil in Hel.
      - cbn [weighted_sum] in Hs.
        destruct (add_weighted s _ w) as [s1|e] eqn:Hadd; [|done].
        cbn [mbind result_bind] in Hs. rewrite fmap_cons in Hel.
        apply elem_of_cons in Hel as [Heq|Hel]; [|by eapply IH].
        cbn [fst] in Heq. subst k. unfold dict_get_default in Hadd.
        rewrite Hv in Hadd. by eapply add_weighted_number. }
    destruct (weighted_sum weights confidence_scores 0) as [s|e] eqn:Hs; [|done].
    by eapply Hsum.
  - apply compute_contract_score_raises.
Qed.

(** ** The scoring step of the pipeline *)

Lemma merged_conf_categories float_of_str (extracted existing : pydict) key :
  key ∈ weights.*1 →
  ∃ v, dict_merge
         (VFloat <$> (derive_confidence_and_gaps float_of_str extracted).1)
         existing !! key = Some v
       ∧ (existing !! key = Some v
          ∨ ∃ score, v = VFloat score ∧ in_range score 1 = true).
Proof.
  intros Hkey. rewrite dict_merge_lookup.
  destruct (existing !! key) as [v|]; [by eauto|].
  rewrite lookup_fmap, derive_scores_lookup.
  destruct (list_find _ mapping) as [[i entry]|] eqn:Hfind.
  - eexists. split; [reflexivity|]. right. eexists. split; [reflexivity|].
    apply final_score_in_range.
  - exfalso. apply list_find_None in Hfind. rewrite Forall_forall in Hfind.
    change (weights.*1) with (mapping.*1) in Hkey.
    apply list_elem_of_fmap in Hkey as ([k f] & -> & Hel).
    by apply (Hfind _ Hel).
Qed.

(** X5: a document that leaves the scoring step holds a mapping of
    confidences with an entry for each of the five categories, the float
    score that [compute_contract_score] gives for exactly that mapping,
    and a gaps entry; every other key is as it was before the step. *)
Theorem score_document_consistent (float_of_str : string → option float)
    (extracted doc : pydict) :
  score_document float_of_str extracted = Ok doc →
  ∃ conf score,
    doc !! "confidence_scores" = Some (VDict conf)
    ∧ doc !! "score" = Some (VFloat score)
    ∧ compute_contract_score conf = Ok score
    ∧ (∀ key, key ∈ weights.*1 → is_Some (conf !! key))
    ∧ is_Some (doc !! "gaps")
    ∧ (∀ key, key ∉ scoring_keys → doc !! key = extracted !! key).
Proof.
  unfold score_document. intros Hdoc.
  pose proof (merged_conf_categories float_of_str extracted) as Hcat.
  destruct (derive_confidence_and_gaps float_of_str extracted)
    as [scores gaps] eqn:Hderive.
  destruct (as_mapping _) as [existing|e]; [|done].
  cbn [mbind result_bind] in Hdoc.
  destruct (compute_contract_score _) as [score|e] eqn:Hscore; [|done].
  cbn [mbind result_bind] in Hdoc. injection Hdoc as <-.
  eexists _, score. split; [by simplify_map_eq|].
  split; [by simplify_map_eq|]. split; [exact Hscore|]. split; [|split].
  - intros key Hkey. destruct (Hcat existing key Hkey) as (v & Hv & _).
    cbn [fst] in Hv. by rewrite Hv.
  - rewrite lookup_insert_ne by done. by rewrite lookup_insert_eq.
  - intros key Hkey. unfold scoring_keys in Hkey.
    rewrite !not_elem_of_cons in Hkey. destruct Hkey as (H1 & H2 & H3 & _).
    by rewrite !lookup_insert_ne.
Qed.

(** The document of the unit test is scored. *)
Lemma score_document_consistent_witness :
  ∃ conf score,
    sample_scored !! "confidence_scores" = Some (VDict conf)
    ∧ sample_scored !! "score" = Some (VFloat score)
    ∧ compute_contract_score conf = Ok score
    ∧ (∀ key, key ∈ weights.*1 → is_Some (conf !! key))
    ∧ is_Some (sample_scored !! "gaps")
    ∧ (∀ key, key ∉ scoring_keys → sample_scored !! key = sample_extracted !! key).
Proof.
  apply (score_document_consistent decimal_float_of_str sample_extracted
           sample_scored).
  vm_compute. reflexivity.
Defined.

(** X6: the scoring step cannot fail, and yields a score in [[0, 100]],
    on every document whose confidence_scores entry is missing, null or
    otherwise falsy, or is a mapping whose values for the five categories
    are numbers in [[0, 1]]; what the other fields hold does not matter. *)
Theorem score_document_total (float_of_str : string → option float)
    (extracted existing : pydict) :
  or_empty_dict (dict_get extracted "confidence_scores") = VDict existing →
  (∀ key v, key ∈ weights.*1 → existing !! key = Some v → in_unit v = true) →
  ∃ doc score,
    score_document float_of_str extracted = Ok doc
    ∧ doc !! "score" = Some (VFloat score)
    ∧ in_range score 100 = true.
Proof.
  intros Hconf Hunit. unfold score_document.
  pose proof (merged_conf_categories float_of_str extracted existing) as Hcat.
  destruct (derive_confidence_and_gaps float_of_str extracted)
    as [scores gaps] eqn:Hderive.
  rewrite Hconf. cbn [as_mapping mbind result_bind fst] in *.
  destruct (compute_contract_score_range
              (dict_merge (VFloat <$> scores) existing)) as (score & -> & Hrange).
  { intros key weight Hkw.
    assert (Hkey : key ∈ weights.*1)
      by (apply list_elem_of_fmap; by exists (key, weight)).
    destruct (Hcat key Hkey) as (v & Hv & Hcase).
    unfold dict_get_default. rewrite Hv. cbn [default].
    destruct Hcase as [Hex|(s & -> & Hs)]; [by eapply Hunit|exact Hs]. }
  cbn [mbind result_bind]. eexists _, score. split; [reflexivity|].
  split; [by rewrite lookup_insert_eq|exact Hrange].
Qed.

(** The document of the unit test gets a score between 0 and 100. *)
Lemma score_document_total_witness :
  ∃ doc score,
    score_document decimal_float_of_str sample_extracted = Ok doc
    ∧ doc !! "score" = Some (VFloat score)
    ∧ in_range score 100 = true.
Proof.
  apply (score_document_total decimal_float_of_str sample_extracted
           {[ "payment_terms_clarity" := VFloat 0.6 ]}).
  - vm_compute. reflexivity.
  - intros key v _ Hv. apply lookup_singleton_Some in Hv as [_ <-]. reflexivity.
Defined.

(** X7: whatever the two model answers are, the steps between the second
    model call and the final writes (merge, validation, derivation and
    scoring) raise nothing but a [TypeError] or an [OverflowError]; in
    particular a rejected validation never surfaces. *)
Theorem build_document_raises
    (implicit_null : bool)
    (validate_dict_any : value → option pydict)
    (validate_dict_float : value → validation (gmap string float))
    (validate_list_str : value → option (list string))
    (float_of_str : string → option float)
    (extracted1 extracted2 : value) (e : exn) :
  build_document implicit_null validate_dict_any validate_dict_float
    validate_list_str float_of_str extracted1 extracted2 = Raise e →
  exn_cls e = TypeError ∨ exn_cls e = OverflowError.
Proof.
  assert (Hmap : ∀ v e', as_mapping v = Raise e' → exn_cls e' = TypeError).
  { intros v e'. destruct v; cbn [as_mapping]; try done; by intros [= <-]. }
  unfold build_document, merge_and_validate.
  destruct (as_mapping extracted1) as [d1|e1] eqn:H1.
  2: { cbn [mbind result_bind]. intros [= <-]. left. by eapply Hmap. }
  destruct (as_mapping extracted2) as [d2|e2] eqn:H2.
  2: { cbn [mbind result_bind]. intros [= <-]. left. by eapply Hmap. }
  cbn [mbind result_bind]. rewrite validate_or_raw_cases.
  destruct (ExtractedContract_init _ _ _ _ (dict_merge d1 d2))
    as [validated|ve] eqn:Hinit.
  2: { destruct (ExtractedContract_init_raises _ _ _ _ _ _ Hinit)
         as [[Hcls _]|(msg & -> & _)].
       - rewrite Hcls. cbn [mbind result_bind]. revert e. generalize (dict_merge d1 d2).
         intros extracted e. unfold score_document.
         destruct (derive_confidence_and_gaps float_of_str _) as [scores gaps].
         destruct (as_mapping (or_empty_dict _)) as [existing|e3] eqn:H3.
         2: { cbn [mbind result_bind]. intros [= <-]. left. by eapply Hmap. }
         cbn [mbind result_bind].
         destruct (compute_contract_score _) as [score|e4] eqn:H4; [done|].
         cbn [mbind result_bind]. intros [= <-].
         by eapply compute_contract_score_raises.
       - cbn [exn_cls mbind result_bind]. intros [= <-]. by right. }
  cbn [mbind result_bind]. unfold score_document.
  destruct (derive_confidence_and_gaps float_of_str _) as [scores gaps].
  destruct (as_mapping (or_empty_dict _)) as [existing|e3] eqn:H3.
  2: { cbn [mbind result_bind]. intros [= <-]. left. by eapply Hmap. }
  cbn [mbind result_bind].
  destruct (compute_contract_score _) as [score|e4] eqn:H4; [done|].
  cbn [mbind result_bind]. intros [= <-].
  by eapply compute_contract_score_raises.
Qed.

(** A model answer that is a list is refused by the merge. *)
Lemma build_document_raises_witness :
  exn_cls (Exn TypeError "'list' object is not a mapping") = TypeError
  ∨ exn_cls (Exn TypeError "'list' object is not a mapping") = OverflowError.
Proof.
  apply (build_document_raises true strict_dict_any strict_dict_float
           strict_list_str decimal_float_of_str (VList []) (VDict ∅)).
  reflexivity.
Defined.

(** ** The read endpoints and the jobs they report *)

Lemma upload_contract_accepts filename content contract_id a :
  endswith (lower filename) ".pdf" = true →
  upload_contract filename content contract_id a
  = (Response200 {[ "contract_id" := VStr contract_id ]},
     {| CONTRACTS := <[contract_id := new_job]> (CONTRACTS a);
        CONTRACT_FILES := <[contract_id := stored_path contract_id]> (CONTRACT_FILES a);
        uploaded := <[stored_path contract_id := content]> (uploaded a);
        background_tasks := background_tasks a
                            ++ [(contract_id, stored_path contract_id)] |}).
Proof. intros H. unfold upload_contract. by rewrite H. Qed.

Lemma suspended_lift (σ : registry) contract_id evs :
  suspended (lift_event σ contract_id <$> evs)
  = (λ j, <[contract_id := j]> σ) <$> jobserved evs.
Proof.
  unfold suspended, jobserved. induction evs as [|[j|j] evs IH]; [done| |].
  - cbn [fmap list_fmap omap list_omap lift_event]. exact IH.
  - cbn [fmap list_fmap omap list_omap lift_event]. f_equal. exact IH.
Qed.

Section Jobs.
Variable py_repr : string → string.
Variable implicit_null : bool.
Variable validate_dict_any : value → option pydict.
Variable validate_dict_float : value → validation (gmap string float).
Variable validate_list_str : value → option (list string).
Variable validate_float : value → validation float.
Variable float_of_str : string → option float.
Variable extract_text_from_pdf : string → result string.
Variable call_groq : string → string → result value.

#[local] Abbreviation run := (process_contract py_repr implicit_null validate_dict_any validate_dict_float
  validate_list_str float_of_str extract_text_from_pdf call_groq).
#[local] Abbreviation outcome := (pipeline_result implicit_null validate_dict_any validate_dict_float
  validate_list_str float_of_str extract_text_from_pdf call_groq).
#[local] Abbreviation events := (job_events implicit_null validate_dict_any validate_dict_float
  validate_list_str float_of_str extract_text_from_pdf call_groq).
#[local] Abbreviation get_data := (get_contract_data validate_dict_float
  validate_list_str validate_float).

(** The record that a run leaves, by the outcome of its pipeline. *)
Lemma last_written_events file_path j :
  last_written j (events file_path j)
  = match outcome file_path with
    | Ok doc =>
      {| status := completed; progress := 100; data := Some doc;
         error := error j; created_at := created_at j |}
    | Raise e =>
      {| status := failed; progress := 100; data := data j;
         error := Some (exn_str e); created_at := created_at j |}
    end.
Proof.
  unfold job_events, body_events, pipeline_result.
  destruct (extract_text_from_pdf file_path) as [text|e1]; [|done].
  cbn [mbind result_bind].
  destruct (call_groq text fields1) as [x1|e1]; [|done].
  cbn [mbind result_bind].
  destruct (call_groq text fields2) as [x2|e1]; [|done].
  cbn [mbind result_bind].
  by destruct (build_document _ _ _ _ _ x1 x2) as [doc|e1].
Qed.

(** The records that a run shows at its [await]s. *)
Lemma jobserved_events file_path j j' :
  j' ∈ jobserved (events file_path j) →
  j' = set_progress 40 (set_progress 10 (set_status processing j)).
Proof.
  unfold job_events, body_events.
  destruct (extract_text_from_pdf file_path) as [text|e1];
    [destruct (call_groq text fields1) as [x1|e1];
     [destruct (call_groq text fields2) as [x2|e1];
      [destruct (build_document _ _ _ _ _ x1 x2) as [doc|e1]|]|]|].
  all: cbn; rewrite ?elem_of_cons, elem_of_nil; intuition.
Qed.

(** X8: the run of a job that is not in the registry raises [KeyError]
    for its id at its first assignment, outside of the [try]; nothing is
    written, neither to the registry nor to the trace. *)
Theorem process_contract_unknown_job (σ : registry) (tr : list event)
    (contract_id file_path : string) :
  σ !! contract_id = None →
  run contract_id file_path (σ, tr)
  = (Raise (Exn KeyError (py_repr contract_id)), (σ, tr)).
Proof.
  intros H. unfold process_contract. unfold mbind at 1, M_bind at 1.
  by rewrite set_item_unknown.
Qed.

(** X9: an accepted upload stores the content under
    uploaded_contracts/<id>.pdf, records that path for the id, schedules
    the run of the job with the id and that path, and leaves the jobs and
    paths of every other id as they were; the scheduled run then finds
    its job and returns normally, whatever its collaborators do. *)
Theorem upload_contract_schedules (filename content contract_id : string)
    (a : app) :
  endswith (lower filename) ".pdf" = true →
  let a' := (upload_contract filename content contract_id a).2 in
  CONTRACT_FILES a' !! contract_id = Some (stored_path contract_id)
  ∧ uploaded a' !! stored_path contract_id = Some content
  ∧ background_tasks a'
    = background_tasks a ++ [(contract_id, stored_path contract_id)]
  ∧ (∀ other, other ≠ contract_id →
       CONTRACTS a' !! other = CONTRACTS a !! other
       ∧ CONTRACT_FILES a' !! other = CONTRACT_FILES a !! other)
  ∧ ∃ σ' tr,
      run contract_id (stored_path contract_id) (CONTRACTS a', [])
      = (Ok tt, (σ', tr)).
Proof.
  intros Hpdf a'. subst a'. rewrite upload_contract_accepts by done.
  cbn [snd CONTRACTS CONTRACT_FILES uploaded background_tasks].
  rewrite !lookup_insert_eq. repeat split; try done.
  - by rewrite lookup_insert_ne.
  - by rewrite lookup_insert_ne.
  - rewrite (process_contract_run _ _ _ _ _ _ _ _ _ _ _ _ new_job)
      by apply lookup_insert_eq.
    by eexists _, _.
Qed.

(** X10: while the run of a freshly uploaded job is suspended at one of
    its model calls, the status endpoint reports the job as processing
    with progress 40 and no error, and the data endpoint answers 400
    "Contract processing not complete."; no poll can see progress 10 or a
    half-written result. *)
Theorem poll_during_run (σ σs : registry) (contract_id file_path : string)
    (j : Job) :
  σ !! contract_id = Some j →
  fresh_job j →
  σs ∈ suspended (run contract_id file_path (σ, [])).2.2 →
  get_contract_status σs contract_id
  = Reply {| ContractStatus.contract_id := contract_id;
             ContractStatus.status := "processing";
             ContractStatus.progress := 40;
             ContractStatus.error := None |}
  ∧ get_data σs contract_id = HTTPError 400 "Contract processing not complete.".
Proof.
  intros Hj (Hst & Hpr & Hda & Her).
  rewrite (process_contract_run _ _ _ _ _ _ _ _ _ _ _ _ j Hj).
  cbn [snd]. rewrite app_nil_l, suspended_lift.
  intros (j' & -> & Hj')%list_elem_of_fmap.
  apply jobserved_events in Hj' as ->.
  unfold get_contract_status, get_contract_data.
  rewrite lookup_insert_eq. cbn. by rewrite Her.
Qed.

(** X11: after the run of a job, the status endpoint reports progress 100
    and either completed, with the error the record had before, or failed
    with the message of the exception that aborted the pipeline; for a
    failed job the data endpoint answers 400; for a completed job every
    reply of the data endpoint shows the six categories of the stored
    document, the validated form of its confidences, and the validated
    form of the score that [compute_contract_score] gives for them. *)
Theorem read_after_run (σ : registry) (contract_id file_path : string) (j : Job) :
  σ !! contract_id = Some j →
  ∃ σ' tr,
    run contract_id file_path (σ, []) = (Ok tt, (σ', tr))
    ∧ match outcome file_path with
      | Ok doc =>
        get_contract_status σ' contract_id
        = Reply {| ContractStatus.contract_id := contract_id;
                   ContractStatus.status := "completed";
                   ContractStatus.progress := 100;
                   ContractStatus.error := error j |}
        ∧ ∀ body, get_data σ' contract_id = Reply body →
            ContractData.contract_id body = contract_id
            ∧ ContractData.data body = category_view doc
            ∧ ∃ conf score,
                doc !! "confidence_scores" = Some (VDict conf)
                ∧ validate_dict_float (VDict conf)
                  = Valid (ContractData.confidence_scores body)
                ∧ compute_contract_score conf = Ok score
                ∧ validate_float (VFloat score) = Valid (ContractData.score body)
      | Raise e =>
        get_contract_status σ' contract_id
        = Reply {| ContractStatus.contract_id := contract_id;
                   ContractStatus.status := "failed";
                   ContractStatus.progress := 100;
                   ContractStatus.error := Some (exn_str e) |}
        ∧ get_data σ' contract_id
          = HTTPError 400 "Contract processing not complete."
      end.
Proof.
  intros Hj. rewrite (process_contract_run _ _ _ _ _ _ _ _ _ _ _ _ j Hj).
  eexists _, _. split; [reflexivity|].
  unfold get_contract_status, get_contract_data.
  rewrite lookup_insert_eq, last_written_events.
  destruct (outcome file_path) as [doc|e] eqn:Hout; [|done].
  split; [done|]. cbn [status data]. intros body Hbody.
  assert (Hscored : ∃ extracted, score_document float_of_str extracted = Ok doc).
  { unfold pipeline_result in Hout.
    destruct (extract_text_from_pdf file_path) as [text|e1]; [|done].
    cbn [mbind result_bind] in Hout.
    destruct (call_groq text fields1) as [x1|e1]; [|done].
    cbn [mbind result_bind] in Hout.
    destruct (call_groq text fields2) as [x2|e1]; [|done].
    cbn [mbind result_bind] in Hout. unfold build_document in Hout.
    destruct (merge_and_validate _ _ _ _ x1 x2) as [extracted|e1]; [|done].
    by exists extracted. }
  destruct Hscored as [extracted Hdoc]. unfold score_document in Hdoc.
  destruct (derive_confidence_and_gaps float_of_str extracted)
    as [scores gaps].
  destruct (as_mapping _) as [existing|e]; [|done].
  cbn [mbind result_bind] in Hdoc.
  destruct (compute_contract_score _) as [score|e] eqn:Hscore; [|done].
  cbn [mbind result_bind] in Hdoc.
  set (conf := dict_merge (VFloat <$> scores) existing) in *.
  assert (Hc : doc !! "confidence_scores" = Some (VDict conf))
    by (injection Hdoc as <-; by simplify_map_eq).
  assert (Hs : doc !! "score" = Some (VFloat score))
    by (injection Hdoc as <-; by simplify_map_eq).
  unfold dict_get_default in Hbody. rewrite Hc, Hs in Hbody.
  cbn [default from_option id required_field] in Hbody.
  destruct (validate_dict_float (VDict conf)) as [c| |m1] eqn:Hvc;
    cbn [accepted mbind option_bind] in Hbody; try done.
  destruct (required_field _ (default (VList []) (doc !! "gaps"))) as [g| |m2];
    cbn [accepted mbind option_bind] in Hbody; try done.
  destruct (validate_float (VFloat score)) as [s| |m3] eqn:Hvs;
    cbn [accepted mbind option_bind] in Hbody; try done.
  injection Hbody as <-.
  cbn. split; [done|]. split; [done|]. by exists conf, score.
Qed.

End Jobs.

(** A run with no job to write to. *)
Lemma process_contract_unknown_job_witness :
  process_contract plain_repr true strict_dict_any strict_dict_float strict_list_str
    decimal_float_of_str readable_pdf fake_call_groq
    "job-9" "uploaded_contracts/job-9.pdf" (∅, [])
  = (Raise (Exn KeyError ("'" +:+ "job-9" +:+ "'")), (∅, [])).
Proof.
  apply (process_contract_unknown_job plain_repr true strict_dict_any strict_dict_float
           strict_list_str decimal_float_of_str readable_pdf fake_call_groq
           ∅ [] "job-9" "uploaded_contracts/job-9.pdf").
  reflexivity.
Defined.

(** The upload of the end-to-end test. *)
Lemma upload_contract_schedules_witness :
  let a' := (upload_contract "sample.pdf" "%PDF-1.4" "job-1" empty_app).2 in
  CONTRACT_FILES a' !! "job-1" = Some (stored_path "job-1")
  ∧ uploaded a' !! stored_path "job-1" = Some "%PDF-1.4"%string
  ∧ background_tasks a'
    = background_tasks empty_app ++ [("job-1"%string, stored_path "job-1")]
  ∧ (∀ other, other ≠ "job-1"%string →
       CONTRACTS a' !! other = CONTRACTS empty_app !! other
       ∧ CONTRACT_FILES a' !! other = CONTRACT_FILES empty_app !! other)
  ∧ ∃ σ' tr,
      process_contract plain_repr true strict_dict_any strict_dict_float strict_list_str
        decimal_float_of_str readable_pdf fake_call_groq
        "job-1" (stored_path "job-1") (CONTRACTS a', [])
      = (Ok tt, (σ', tr)).
Proof.
  apply (upload_contract_schedules plain_repr true strict_dict_any strict_dict_float
           strict_list_str decimal_float_of_str readable_pdf fake_call_groq
           "sample.pdf" "%PDF-1.4" "job-1" empty_app).
  reflexivity.
Defined.

(** A poll during the run of the end-to-end test. *)
Lemma poll_during_run_witness :
  get_contract_status polled_registry "job-1"
  = Reply {| ContractStatus.contract_id := "job-1";
             ContractStatus.status := "processing";
             ContractStatus.progress := 40;
             ContractStatus.error := None |}
  ∧ get_contract_data strict_dict_float strict_list_str strict_float
      polled_registry "job-1"
    = HTTPError 400 "Contract processing not complete.".
Proof.
  apply (poll_during_run plain_repr true strict_dict_any strict_dict_float strict_list_str
           strict_float decimal_float_of_str readable_pdf fake_call_groq
           uploaded_registry polled_registry "job-1"
           "uploaded_contracts/job-1.pdf" new_job).
  - reflexivity.
  - by repeat split.
  - vm_compute. apply list_elem_of_here.
Defined.

(** The reads after the run of the end-to-end test. *)
Lemma read_after_run_witness :
  ∃ σ' tr,
    process_contract plain_repr true strict_dict_any strict_dict_float strict_list_str
      decimal_float_of_str readable_pdf fake_call_groq
      "job-1" "uploaded_contracts/job-1.pdf" (uploaded_registry, [])
    = (Ok tt, (σ', tr))
    ∧ match pipeline_result true strict_dict_any strict_dict_float strict_list_str
              decimal_float_of_str readable_pdf fake_call_groq
              "uploaded_contracts/job-1.pdf" with
      | Ok doc =>
        get_contract_status σ' "job-1"
        = Reply {| ContractStatus.contract_id := "job-1";
                   ContractStatus.status := "completed";
                   ContractStatus.progress := 100;
                   ContractStatus.error := error new_job |}
        ∧ ∀ body, get_contract_data strict_dict_float strict_list_str
                    strict_float σ' "job-1" = Reply body →
            ContractData.contract_id body = "job-1"%string
            ∧ ContractData.data body = category_view doc
            ∧ ∃ conf score,
                doc !! "confidence_scores" = Some (VDict conf)
                ∧ strict_dict_float (VDict conf)
                  = Valid (ContractData.confidence_scores body)
                ∧ compute_contract_score conf = Ok score
                ∧ strict_float (VFloat score) = Valid (ContractData.score body)
      | Raise e =>
        get_contract_status σ' "job-1"
        = Reply {| ContractStatus.contract_id := "job-1";
                   ContractStatus.status := "failed";
                   ContractStatus.progress := 100;
                   ContractStatus.error := Some (exn_str e) |}
        ∧ get_contract_data strict_dict_float strict_list_str strict_float
            σ' "job-1"
          = HTTPError 400 "Contract processing not complete."
      end.
Proof.
  apply (read_after_run plain_repr true strict_dict_any strict_dict_float strict_list_str
           strict_float decimal_float_of_str readable_pdf fake_call_groq
           uploaded_registry "job-1" "uploaded_contracts/job-1.pdf" new_job).
  reflexivity.
Defined.

(** ** The data endpoint *)

Lemma category_view_lookup (data : pydict) key :
  category_view data !! key
  = if bool_decide (key ∈ category_keys) then Some (dict_get data key) else None.
Proof.
  unfold category_view, category_keys. cbn [fmap list_fmap list_to_map foldr].
  case_bool_decide as Hkey.
  - repeat (apply elem_of_cons in Hkey as [->|Hkey]);
      [..|by apply elem_of_nil in Hkey]; by simplify_map_eq.
  - rewrite !not_elem_of_cons in Hkey.
    destruct Hkey as (?&?&?&?&?&?&_). by simplify_map_eq.
Qed.

(** X12: the data endpoint replies for completed jobs only, and every
    reply carries the id asked for and, as its data, exactly the six
    category keys, each with the value of the stored document or null when
    the document lacks it; no other key of the stored document is shown.
    It cannot reply when the stored document holds a null
    confidence_scores, gaps or score. *)
Theorem get_contract_data_reply
    (validate_dict_float : value → validation (gmap string float))
    (validate_list_str : value → option (list string))
    (validate_float : value → validation float)
    (σ : registry) (contract_id : string) (body : ContractData.t) :
  get_contract_data validate_dict_float validate_list_str validate_float
    σ contract_id = Reply body →
  ∃ contract doc,
    σ !! contract_id = Some contract
    ∧ status contract = completed
    ∧ data contract = Some doc
    ∧ ContractData.contract_id body = contract_id
    ∧ dom (ContractData.data body) = list_to_set category_keys
    ∧ (∀ key, key ∈ category_keys →
         ContractData.data body !! key = Some (dict_get doc key))
    ∧ doc !! "confidence_scores" ≠ Some VNone
    ∧ doc !! "gaps" ≠ Some VNone
    ∧ doc !! "score" ≠ Some VNone.
Proof.
  unfold get_contract_data. intros Hbody.
  destruct (σ !! contract_id) as [contract|]; [|done].
  destruct (status contract) eqn:Hst; try done.
  destruct (data contract) as [doc|] eqn:Hd; [|done].
  exists contract, doc. split; [done|]. split; [done|]. split; [done|].
  destruct (required_field validate_dict_float _) as [c| |m1] eqn:Hc;
    cbn [accepted mbind option_bind] in Hbody; try done.
  destruct (required_field _ (dict_get_default doc "gaps" (VList [])))
    as [g| |m2] eqn:Hg;
    cbn [accepted mbind option_bind] in Hbody; try done.
  destruct (required_field validate_float _) as [s| |m3] eqn:Hs;
    cbn [accepted mbind option_bind] in Hbody; try done.
  injection Hbody as <-. cbn [ContractData.contract_id ContractData.data].
  split; [done|]. split; [|split; [|split; [|split]]].
  - apply set_eq. intros key.
    rewrite elem_of_dom, category_view_lookup, elem_of_list_to_set.
    case_bool_decide; [by eauto|]. split; [by intros [? [=]]|done].
  - intros key Hkey. rewrite category_view_lookup.
    by rewrite bool_decide_eq_true_2.
  - intros Hnull. unfold dict_get_default in Hc. by rewrite Hnull in Hc.
  - intros Hnull. unfold dict_get_default in Hg. by rewrite Hnull in Hg.
  - intros Hnull. unfold dict_get_default in Hs. by rewrite Hnull in Hs.
Qed.

(** The reply for the completed job of the end-to-end test. *)
Lemma get_contract_data_reply_witness :
  ∃ contract doc,
    completed_registry !! "job-1" = Some contract
    ∧ status contract = completed
    ∧ data contract = Some doc
    ∧ ContractData.contract_id test_reply = "job-1"%string
    ∧ dom (ContractData.data test_reply) = list_to_set category_keys
    ∧ (∀ key, key ∈ category_keys →
         ContractData.data test_reply !! key = Some (dict_get doc key))
    ∧ doc !! "confidence_scores" ≠ Some VNone
    ∧ doc !! "gaps" ≠ Some VNone
    ∧ doc !! "score" ≠ Some VNone.
Proof.
  apply (get_contract_data_reply strict_dict_float strict_list_str strict_float
           completed_registry "job-1" test_reply).
  vm_compute. reflexivity.
Defined.

(** ** The listing *)

Lemma listed_spec status_filter c :
  listed status_filter c = true
  ↔ status_filter = None ∨ status_filter = Some ""%string
    ∨ status_filter = Some (status_name (status c)).
Proof.
  unfold listed. destruct status_filter as [s|]; [|by intuition].
  rewrite orb_true_iff, !String.eqb_eq. split.
  - intros [->| <-]; auto.
  - intros [|[[= ->]|[= ->]]]; [done|by left|by right].
Qed.

Section Listing.
Variable validate_float : value → validation float.
Variable items : registry → list (string * Job).

#[local] Abbreviation item := (list_item validate_float).
#[local] Abbreviation loop := (list_loop validate_float).
#[local] Abbreviation listing := (list_contracts validate_float items).

Lemma list_item_ok entry it :
  item entry = Ok it →
  ContractListItem.contract_id it = entry.1
  ∧ ContractListItem.status it = status_name (status entry.2)
  ∧ ContractListItem.created_at it = created_at entry.2
  ∧ (data entry.2 = None → ContractListItem.score it = None).
Proof.
  destruct entry as [cid c]. unfold list_item. cbn zeta.
  destruct (optional_field _ _ _) as [score| |msg] eqn:Hopt; try done.
  cbn [accepted]. intros [= <-]. cbn. repeat split. intros Hd.
  unfold listed_score in Hopt. rewrite Hd in Hopt. cbn in Hopt.
  by injection Hopt as <-.
Qed.

Lemma list_loop_spec status_filter entries acc l :
  loop status_filter entries acc = Ok l →
  ∃ l', l = acc ++ l'
        ∧ Forall2 (λ entry it, item entry = Ok it)
            (filter (λ entry, listed status_filter entry.2 = true) entries) l'.
Proof.
  revert acc. induction entries as [|entry rest IH]; intros acc Hl.
  - injection Hl as <-. exists []. by rewrite app_nil_r.
  - cbn [list_loop] in Hl. rewrite filter_cons.
    destruct (listed status_filter entry.2) eqn:Hlisted; cbn [negb] in Hl.
    + rewrite decide_True by done.
      destruct (item entry) as [it|e] eqn:Hitem; [|done].
      cbn [mbind result_bind] in Hl.
      destruct (IH _ Hl) as (l' & -> & Hall).
      exists (it :: l'). rewrite <- app_assoc. split; [done|].
      by constructor.
    + rewrite decide_False by done. by apply IH.
Qed.

(** X13: when the listing replies, it shows one item for each job whose
    status equals the filter (for every job when the filter is absent or
    empty) and none for any other job, in the order in which the registry
    yields its records; each item carries the id, the status and the
    creation time of its job, and no score when the job has no document. *)
Theorem list_contracts_reply (status_filter : option string) (σ : registry)
    (l : list ContractListItem.t) :
  items σ ≡ₚ map_to_list σ →
  listing status_filter σ = Reply l →
  ContractListItem.contract_id <$> l
  = (filter (λ entry, listed status_filter entry.2 = true) (items σ)).*1
  ∧ NoDup (ContractListItem.contract_id <$> l)
  ∧ (∀ cid, cid ∈ ContractListItem.contract_id <$> l
       ↔ ∃ c, σ !! cid = Some c
              ∧ (status_filter = None ∨ status_filter = Some ""%string
                 ∨ status_filter = Some (status_name (status c))))
  ∧ (∀ it, it ∈ l →
       ∃ c, σ !! ContractListItem.contract_id it = Some c
            ∧ ContractListItem.status it = status_name (status c)
            ∧ ContractListItem.created_at it = created_at c
            ∧ (data c = None → ContractListItem.score it = None)).
Proof.
  intros Hperm Hl. unfold list_contracts in Hl.
  destruct (loop status_filter (items σ) []) as [l0|e] eqn:Hloop; [|done].
  injection Hl as ->.
  apply list_loop_spec in Hloop as (l' & -> & Hall). rewrite app_nil_l.
  set (sel := filter (λ entry : string * Job, listed status_filter entry.2 = true)
                (items σ)) in *.
  assert (Hitems : ∀ cid c, (cid, c) ∈ items σ ↔ σ !! cid = Some c).
  { intros cid c. by rewrite Hperm, elem_of_map_to_list. }
  assert (Hids : ContractListItem.contract_id <$> l' = sel.*1).
  { clearbody sel. induction Hall as [|entry it sel' l'' Hit _ IH]; [done|].
    rewrite !fmap_cons, IH. f_equal. by apply list_item_ok in Hit as [-> _]. }
  split; [exact Hids|]. split; [|split].
  - rewrite Hids. subst sel.
    assert (Hnd : NoDup (items σ).*1).
    { rewrite Hperm. apply NoDup_fst_map_to_list. }
    revert Hnd. generalize (items σ). intros es.
    induction es as [|entry es IH]; [constructor|].
    rewrite fmap_cons, NoDup_cons. intros [Hne Hnd]. rewrite filter_cons.
    destruct (decide _); [|by apply IH].
    rewrite fmap_cons. apply NoDup_cons. split; [|by apply IH].
    intros (x & Hx & Hel)%list_elem_of_fmap. apply Hne.
    apply list_elem_of_fmap. exists x. split; [done|].
    by apply list_elem_of_filter in Hel as [_ ?].
  - intros cid. rewrite Hids. subst sel. split.
    + intros ([cid' c] & -> & Hel)%list_elem_of_fmap.
      apply list_elem_of_filter in Hel as [Hlisted Hel]. exists c.
      split; [by apply Hitems|]. by apply listed_spec.
    + intros (c & Hc & Hfilter). apply list_elem_of_fmap. exists (cid, c).
      split; [done|]. apply list_elem_of_filter.
      split; [by apply listed_spec|by apply Hitems].
  - intros it Hit.
    assert (Hsel : ∃ entry, entry ∈ sel ∧ item entry = Ok it).
    { clearbody sel. clear Hids. induction Hall as [|entry it' sel' l'' Hok _ IH].
      - by apply elem_of_nil in Hit.
      - apply elem_of_cons in Hit as [->|Hit].
        + exists entry. split; [apply list_elem_of_here|done].
        + destruct (IH Hit) as (entry' & Hel & Hok').
          exists entry'. split; [by apply list_elem_of_further|done]. }
    destruct Hsel as ([cid c] & Hel & Hok). subst sel.
    apply list_elem_of_filter in Hel as [_ Hel]. apply Hitems in Hel.
    apply list_item_ok in Hok as (Hid & Hst & Hcr & Hsc). cbn [fst snd] in *.
    exists c. by rewrite Hid.
Qed.

(** X14: an empty status filter lists what no filter lists, and a filter
    that is none of the four status names yields the empty list, not an
    error, whatever the registry holds. *)
Theorem list_contracts_filter_edge (σ : registry) (s : string) :
  listing (Some ""%string) σ = listing None σ
  ∧ (s ≠ ""%string → (∀ st, status_name st ≠ s) → listing (Some s) σ = Reply []).
Proof.
  split.
  - unfold list_contracts. f_equal. generalize (@nil ContractListItem.t).
    induction (items σ) as [|entry rest IH]; intros acc; [done|].
    cbn [list_loop listed String.eqb orb negb].
    destruct (item entry) as [it|e]; [|done]. cbn [mbind result_bind]. apply IH.
  - intros Hs Hst. unfold list_contracts.
    assert (Hloop : ∀ entries acc, loop (Some s) entries acc = Ok acc).
    { induction entries as [|entry rest IH]; intros acc; [done|].
      cbn [list_loop listed].
      assert (String.eqb s "" = false) as -> by (by apply String.eqb_neq).
      assert (String.eqb (status_name (status entry.2)) s = false) as ->
        by (by apply String.eqb_neq).
      cbn [orb negb]. apply IH. }
    by rewrite Hloop.
Qed.

(** X15: when the float validator accepts floats and every stored
    document has been through the scoring step, the listing never fails:
    it replies with at most one item per job, and with exactly one per
    job when there is no filter. *)
Theorem list_contracts_total (status_filter : option string) (σ : registry) :
  items σ ≡ₚ map_to_list σ →
  (∀ f, validate_float (VFloat f) = Valid f) →
  registry_scored σ →
  ∃ l, listing status_filter σ = Reply l
       ∧ (length l ≤ size σ)%nat
       ∧ (status_filter = None → length l = size σ).
Proof.
  intros Hperm Hfloat Hscored.
  assert (Hitem : ∀ entry, entry ∈ items σ → ∃ it, item entry = Ok it).
  { intros [cid c] Hel. rewrite Hperm, elem_of_map_to_list in Hel.
    specialize (Hscored cid c Hel). cbn beta in Hscored.
    unfold list_item, listed_score.
    destruct (data c) as [d|]; [|by eexists].
    destruct (truthy (VDict d)); [|by eexists].
    destruct (Hscored d eq_refl) as ((s & Hs) & _).
    unfold dict_get. rewrite Hs. cbn. rewrite Hfloat. by eexists. }
  assert (Hloop : ∀ entries acc, entries ⊆ items σ →
            ∃ l', loop status_filter entries acc = Ok (acc ++ l')
                  ∧ length l'
                    = length (filter (λ entry, listed status_filter entry.2 = true)
                                entries)).
  { induction entries as [|entry rest IH]; intros acc Hsub.
    - exists []. by rewrite app_nil_r.
    - cbn [list_loop]. rewrite filter_cons.
      assert (Hrest : rest ⊆ items σ)
        by (intros x Hx; by apply Hsub, list_elem_of_further).
      destruct (listed status_filter entry.2) eqn:Hlisted; cbn [negb].
      + rewrite decide_True by done.
        destruct (Hitem entry) as [it ->]; [apply Hsub, list_elem_of_here|].
        cbn [mbind result_bind].
        destruct (IH (acc ++ [it]) Hrest) as (l' & -> & Hlen).
        exists (it :: l'). rewrite <- app_assoc. split; [done|].
        cbn [length]. by rewrite Hlen.
      + rewrite decide_False by done. by apply IH. }
  destruct (Hloop (items σ) []) as (l & Hl & Hlen); [done|].
  unfold list_contracts. rewrite Hl, app_nil_l. exists l. split; [done|].
  assert (Hsize : length (items σ) = size σ).
  { rewrite Hperm. apply length_map_to_list. }
  rewrite Hlen, <- Hsize. split; [apply length_filter|].
  intros ->. f_equal. clear. induction (items σ) as [|entry rest IH]; [done|].
  rewrite filter_cons. cbn [listed]. rewrite decide_True by done. by f_equal.
Qed.

End Listing.

(** The listing of the completed jobs after the end-to-end test. *)
Lemma list_contracts_reply_witness :
  ContractListItem.contract_id <$> test_listing
  = (filter (λ entry, listed (Some "completed"%string) entry.2 = true)
       (map_to_list completed_registry)).*1
  ∧ NoDup (ContractListItem.contract_id <$> test_listing)
  ∧ (∀ cid, cid ∈ ContractListItem.contract_id <$> test_listing
       ↔ ∃ c, completed_registry !! cid = Some c
              ∧ (Some "completed"%string = None
                 ∨ Some "completed"%string = Some ""%string
                 ∨ Some "completed"%string = Some (status_name (status c))))
  ∧ (∀ it, it ∈ test_listing →
       ∃ c, completed_registry !! ContractListItem.contract_id it = Some c
            ∧ ContractListItem.status it = status_name (status c)
            ∧ ContractListItem.created_at it = created_at c
            ∧ (data c = None → ContractListItem.score it = None)).
Proof.
  apply (list_contracts_reply strict_float map_to_list
           (Some "completed"%string) completed_registry test_listing).
  - reflexivity.
  - vm_compute. reflexivity.
Defined.

Lemma test_document_scored : scored test_document.
Proof.
  split; [|split].
  - eexists. vm_compute. reflexivity.
  - eexists. vm_compute. reflexivity.
  - eexists. vm_compute. reflexivity.
Qed.

Lemma completed_registry_scored : registry_scored completed_registry.
Proof.
  apply map_Forall_singleton. intros d Hd. cbn [data] in Hd.
  assert (d = test_document) as -> by congruence.
  apply test_document_scored.
Qed.

(** The listing after the end-to-end test. *)
Lemma list_contracts_total_witness :
  ∃ l, list_contracts strict_float map_to_list None completed_registry = Reply l
       ∧ (length l ≤ size completed_registry)%nat
       ∧ (@None string = None → length l = size completed_registry).
Proof.
  apply (list_contracts_total strict_float map_to_list None completed_registry).
  - reflexivity.
  - reflexivity.
  - apply completed_registry_scored.
Defined.

(** ** The stored documents *)

Lemma score_document_scored float_of_str (extracted doc : pydict) :
  score_document float_of_str extracted = Ok doc → scored doc.
Proof.
  unfold score_document.
  destruct (derive_confidence_and_gaps float_of_str extracted)
    as [scores gaps].
  destruct (as_mapping _) as [existing|e]; [|done].
  cbn [mbind result_bind].
  destruct (compute_contract_score _) as [score|e]; [|done].
  cbn [mbind result_bind]. intros [= <-]. split; [|split].
  - exists score. by simplify_map_eq.
  - eexists. by simplify_map_eq.
  - rewrite lookup_insert_ne by done. by rewrite lookup_insert_eq.
Qed.

Section Invariant.
Variable py_repr : string → string.
Variable implicit_null : bool.
Variable validate_dict_any : value → option pydict.
Variable validate_dict_float : value → validation (gmap string float).
Variable validate_list_str : value → option (list string).
Variable float_of_str : string → option float.
Variable extract_text_from_pdf : string → result string.
Variable call_groq : string → string → result value.

#[local] Abbreviation run := (process_contract py_repr implicit_null validate_dict_any validate_dict_float
  validate_list_str float_of_str extract_text_from_pdf call_groq).
#[local] Abbreviation outcome := (pipeline_result implicit_null validate_dict_any validate_dict_float
  validate_list_str float_of_str extract_text_from_pdf call_groq).

Lemma pipeline_result_scored file_path doc :
  outcome file_path = Ok doc → scored doc.
Proof.
  unfold pipeline_result.
  destruct (extract_text_from_pdf file_path) as [text|e1]; [|done].
  cbn [mbind result_bind].
  destruct (call_groq text fields1) as [x1|e1]; [|done].
  cbn [mbind result_bind].
  destruct (call_groq text fields2) as [x2|e1]; [|done].
  cbn [mbind result_bind]. unfold build_document.
  destruct (merge_and_validate _ _ _ _ x1 x2) as [extracted|e1]; [|done].
  cbn [mbind result_bind]. apply score_document_scored.
Qed.

(** X16: uploads and runs keep the registry well formed: when every
    stored document holds a float score, a mapping of confidences and a
    gaps entry, this still holds after any upload, accepted or not, and
    after the run of any job, known or not, whatever its outcome. *)
Theorem registry_scored_preserved (a : app)
    (filename content contract_id run_id file_path : string) (tr : list event) :
  registry_scored (CONTRACTS a) →
  registry_scored (CONTRACTS (upload_contract filename content contract_id a).2)
  ∧ registry_scored (run run_id file_path (CONTRACTS a, tr)).2.1.
Proof.
  intros Hscored. split.
  - unfold upload_contract. destruct (endswith _ _); cbn; [|done].
    by apply map_Forall_insert_2.
  - destruct (CONTRACTS a !! run_id) as [j|] eqn:Hj.
    + rewrite (process_contract_run _ _ _ _ _ _ _ _ _ _ _ _ j Hj). cbn [fst snd].
      apply map_Forall_insert_2; [|done].
      rewrite last_written_events.
      destruct (outcome file_path) as [doc|e] eqn:Hout; cbn [data].
      * intros d [= <-]. by eapply pipeline_result_scored.
      * by apply (Hscored run_id j).
    + unfold process_contract. unfold mbind at 1, M_bind at 1.
      by rewrite set_item_unknown.
Qed.

End Invariant.

(** After the end-to-end test and a second upload, the registry holds a
    scored document and a pending job; it stays well formed when a third
    file is uploaded and when the pending job is run, and that run stores
    the scored document of the job. *)
Lemma registry_scored_preserved_witness :
  (registry_scored
     (CONTRACTS (upload_contract "third.pdf" "%PDF-1.4" "job-3" second_upload).2)
   ∧ registry_scored
       (process_contract plain_repr true strict_dict_any strict_dict_float
          strict_list_str decimal_float_of_str readable_pdf fake_call_groq
          "job-2" "uploaded_contracts/job-2.pdf" (CONTRACTS second_upload, [])).2.1)
  ∧ data <$> CONTRACTS second_upload !! "job-1" = Some (Some test_document)
  ∧ data <$> (process_contract plain_repr true strict_dict_any strict_dict_float
                strict_list_str decimal_float_of_str readable_pdf fake_call_groq
                "job-2" "uploaded_contracts/job-2.pdf"
                (CONTRACTS second_upload, [])).2.1 !! "job-2"
    = Some (Some test_document).
Proof.
  split; [|split; vm_compute; reflexivity].
  apply (registry_scored_preserved plain_repr true strict_dict_any strict_dict_float
           strict_list_str decimal_float_of_str readable_pdf fake_call_groq
           second_upload "third.pdf" "%PDF-1.4" "job-3" "job-2"
           "uploaded_contracts/job-2.pdf" []).
  change (CONTRACTS second_upload)
    with (<["job-2"%string := new_job]> completed_registry).
  apply map_Forall_insert_2; [done|]. apply completed_registry_scored.
Defined.

(** ** The download endpoint *)

Lemma string_length_app (a b : string) :
  String.length (a +:+ b) = (String.length a + String.length b)%nat.
Proof.
  induction a as [|c a IH]; [done|].
  rewrite append_cons. cbn [String.length]. by rewrite IH.
Qed.

Lemma append_suffix_inj (a b s : string) : a +:+ s = b +:+ s → a = b.
Proof.
  revert b. induction a as [|c a IH]; intros [|c' b] H.
  - done.
  - rewrite append_nil_l in H. apply (f_equal String.length) in H.
    rewrite append_cons in H. cbn [String.length] in H.
    rewrite string_length_app in H. lia.
  - rewrite append_nil_l in H. apply (f_equal String.length) in H.
    rewrite append_cons in H. cbn [String.length] in H.
    rewrite string_length_app in H. lia.
  - rewrite !append_cons in H. injection H as -> H. f_equal. by apply IH.
Qed.

Lemma stored_path_inj (id1 id2 : string) :
  stored_path id1 = stored_path id2 → id1 = id2.
Proof.
  unfold stored_path, UPLOAD_DIR. rewrite !append_cons, !append_nil_l.
  intros H. injection H as H. by apply append_suffix_inj in H.
Qed.

Lemma stored_path_truthy (contract_id : string) :
  truthy (VStr (stored_path contract_id)) = true.
Proof.
  unfold stored_path, UPLOAD_DIR. by rewrite !append_cons.
Qed.

(** X17: once a file has been uploaded under an id, the download
    endpoint serves uploaded_contracts/<id>.pdf as application/pdf under
    the name <id>.pdf, and that file holds the uploaded content; this
    stays so after a later upload under another id, accepted or not. *)
Theorem download_after_upload (filename content contract_id : string)
    (filename' content' contract_id' : string) (a : app) :
  endswith (lower filename) ".pdf" = true →
  contract_id' ≠ contract_id →
  let a1 := (upload_contract filename content contract_id a).2 in
  let a2 := (upload_contract filename' content' contract_id' a1).2 in
  let served :=
    Reply {| FileResponse.path := stored_path contract_id;
             FileResponse.media_type := "application/pdf";
             FileResponse.filename := contract_id +:+ ".pdf" |} in
  download_contract a1 contract_id = served
  ∧ uploaded a1 !! stored_path contract_id = Some content
  ∧ download_contract a2 contract_id = served
  ∧ uploaded a2 !! stored_path contract_id = Some content.
Proof.
  intros Hpdf Hne a1 a2 served.
  assert (H1 : CONTRACT_FILES a1 !! contract_id = Some (stored_path contract_id)
               ∧ uploaded a1 !! stored_path contract_id = Some content).
  { subst a1. rewrite upload_contract_accepts by done.
    cbn [snd CONTRACT_FILES uploaded]. by rewrite !lookup_insert_eq. }
  assert (H2 : CONTRACT_FILES a2 !! contract_id = Some (stored_path contract_id)
               ∧ uploaded a2 !! stored_path contract_id = Some content).
  { subst a2. unfold upload_contract.
    destruct (endswith (lower filename') ".pdf"); cbn [negb snd]; [|exact H1].
    cbn [CONTRACT_FILES uploaded].
    rewrite lookup_insert_ne by done. fold (stored_path contract_id').
    rewrite lookup_insert_ne by (intros ?%stored_path_inj; done).
    exact H1. }
  assert (Hserve : ∀ a', CONTRACT_FILES a' !! contract_id
                         = Some (stored_path contract_id)
                         ∧ uploaded a' !! stored_path contract_id = Some content →
            download_contract a' contract_id = served).
  { intros a' [Hfile Hcontent]. unfold download_contract.
    rewrite Hfile, stored_path_truthy, Hcontent.
    by rewrite bool_decide_eq_true_2 by eauto. }
  split; [by apply Hserve|]. split; [apply H1|].
  split; [by apply Hserve|apply H2].
Qed.

(** The download after the upload of the end-to-end test and a second,
    refused upload. *)
Lemma download_after_upload_witness :
  let a1 := (upload_contract "sample.pdf" "%PDF-1.4" "job-1" empty_app).2 in
  let a2 := (upload_contract "test.txt" "not a pdf" "job-2" a1).2 in
  let served :=
    Reply {| FileResponse.path := stored_path "job-1";
             FileResponse.media_type := "application/pdf";
             FileResponse.filename := "job-1" +:+ ".pdf" |} in
  download_contract a1 "job-1" = served
  ∧ uploaded a1 !! stored_path "job-1" = Some "%PDF-1.4"%string
  ∧ download_contract a2 "job-1" = served
  ∧ uploaded a2 !! stored_path "job-1" = Some "%PDF-1.4"%string.
Proof.
  apply (download_after_upload "sample.pdf" "%PDF-1.4" "job-1"
           "test.txt" "not a pdf" "job-2" empty_app).
  - reflexivity.
  - done.
Defined.

(** ** Text extraction and the model call *)

Lemma string_app_assoc (a b c : string) : (a +:+ b) +:+ c = a +:+ (b +:+ c).
Proof.
  induction a as [|x a IH]; [done|]. rewrite !append_cons. by rewrite IH.
Qed.

Lemma string_app_nil_r (a : string) : a +:+ "" = a.
Proof. induction a as [|x a IH]; [done|]. rewrite append_cons. by rewrite IH. Qed.

Lemma join_pages_texts (texts : list string) rest acc :
  join_pages ((text_page <$> texts) ++ rest) acc
  = join_pages rest (acc +:+ page_lines texts).
Proof.
  revert acc. induction texts as [|s texts IH]; intros acc.
  - cbn [fmap list_fmap Datatypes.app page_lines foldr]. by rewrite string_app_nil_r.
  - rewrite fmap_cons. cbn [Datatypes.app join_pages text_page mbind result_bind].
    rewrite IH. cbn [page_lines foldr]. fold (page_lines texts).
    by rewrite !string_app_assoc.
Qed.

Lemma join_pages_ok pages acc text :
  join_pages pages acc = Ok text →
  ∃ texts, pages = text_page <$> texts ∧ text = acc +:+ page_lines texts.
Proof.
  revert acc. induction pages as [|page pages IH]; intros acc Hjoin.
  - injection Hjoin as <-. exists []. by rewrite string_app_nil_r.
  - cbn [join_pages] in Hjoin. destruct page as [[s|]|e]; try done.
    cbn [mbind result_bind] in Hjoin.
    destruct (IH _ Hjoin) as (texts & -> & ->). exists (s :: texts).
    split; [done|]. cbn [page_lines foldr]. fold (page_lines texts).
    by rewrite !string_app_assoc.
Qed.

(** X18: [extract_text_from_pdf] returns a text exactly when the file
    opens and every page yields text, and the text is then the page texts
    in page order, each followed by a line break (the empty string for a
    file without pages); the first page that yields null instead of a
    text makes it raise a [TypeError], whatever the later pages hold. *)
Theorem extract_text_from_pdf_pages
    (open_pdf : string → result (list (result (option string))))
    (pdf_path : string) :
  (∀ text,
     extract_text_from_pdf open_pdf pdf_path = Ok text
     ↔ ∃ texts, open_pdf pdf_path = Ok (text_page <$> texts)
                ∧ text = page_lines texts)
  ∧ (∀ texts rest,
       open_pdf pdf_path = Ok ((text_page <$> texts) ++ Ok None :: rest) →
       extract_text_from_pdf open_pdf pdf_path
       = Raise (Exn TypeError
                  "unsupported operand type(s) for +: 'NoneType' and 'str'")).
Proof.
  unfold extract_text_from_pdf. split.
  - intros text. split.
    + destruct (open_pdf pdf_path) as [pages|e]; [|done].
      cbn [mbind result_bind]. intros (texts & -> & ->)%join_pages_ok.
      exists texts. by rewrite append_nil_l.
    + intros (texts & -> & ->). cbn [mbind result_bind].
      rewrite <- (app_nil_r (text_page <$> texts)), join_pages_texts.
      cbn [join_pages]. by rewrite append_nil_l.
  - intros texts rest ->. cbn [mbind result_bind].
    by rewrite join_pages_texts.
Qed.

(** ** The JSON object inside the answer *)

Lemma from_first_brace_app (pre rest : string) :
  lacks "{" pre = true →
  from_first_brace (pre +:+ String "{" rest) = Some (String "{" rest).
Proof.
  induction pre as [|c pre IH]; [done|].
  cbn [lacks]. intros [Hc Hpre]%andb_true_iff.
  rewrite append_cons. cbn [from_first_brace].
  destruct (Ascii.eqb c "{"); [done|]. by apply IH.
Qed.

Lemma upto_last_brace_none (post : string) :
  lacks "}" post = true → upto_last_brace post = None.
Proof.
  induction post as [|c post IH]; [done|].
  cbn [lacks]. intros [Hc Hpost]%andb_true_iff.
  cbn [upto_last_brace]. rewrite IH by done.
  by destruct (Ascii.eqb c "}").
Qed.

Lemma upto_last_brace_app (body post : string) :
  lacks "}" post = true →
  upto_last_brace (body +:+ String "}" post) = Some (body +:+ "}").
Proof.
  intros Hpost. induction body as [|c body IH].
  - rewrite append_nil_l. cbn [upto_last_brace].
    by rewrite upto_last_brace_none.
  - rewrite !append_cons. cbn [upto_last_brace]. by rewrite IH.
Qed.

Lemma re_search_braces_span (pre body post : string) :
  lacks "{" pre = true → lacks "}" post = true →
  re_search_braces (pre +:+ "{" +:+ body +:+ "}" +:+ post)
  = Some ("{" +:+ body +:+ "}").
Proof.
  intros Hpre Hpost. unfold re_search_braces.
  rewrite !append_cons, !append_nil_l.
  rewrite from_first_brace_app by done. cbn [mbind option_bind].
  rewrite <- append_cons. by rewrite upto_last_brace_app.
Qed.

Lemma re_search_braces_object (body : string) :
  re_search_braces ("{" +:+ body +:+ "}") = Some ("{" +:+ body +:+ "}").
Proof.
  unfold re_search_braces. rewrite (append_cons "{" "" _), append_nil_l.
  change (from_first_brace (String "{" (body +:+ "}")))
    with (Some (String "{" (body +:+ "}"))).
  cbn [mbind option_bind]. rewrite <- append_cons.
  exact (upto_last_brace_app (String "{" body) "" eq_refl).
Qed.

Lemma truthy_app_brace (s rest : string) :
  truthy (VStr (s +:+ String "{" rest)) = true.
Proof. destruct s; [by rewrite append_nil_l|by rewrite append_cons]. Qed.

Section Answer.
Variable json_loads : string → result value.
Variable repair_json : string → result string.
Variable search_type_error : value → string.

#[local] Abbreviation extract :=
  (_extract_json_from_text json_loads repair_json search_type_error).

(** X19: what surrounds the JSON object of an answer is ignored: a text
    with anything but an opening brace before the object and anything but
    a closing brace after it is parsed, and repaired when the parse
    fails, exactly as the object alone, from its first opening to its
    last closing brace. *)
Theorem extract_json_ignores_chatter (pre body post : string) :
  lacks "{" pre = true →
  lacks "}" post = true →
  extract (VStr (pre +:+ "{" +:+ body +:+ "}" +:+ post))
  = extract (VStr ("{" +:+ body +:+ "}")).
Proof.
  intros Hpre Hpost. unfold _extract_json_from_text.
  rewrite (re_search_braces_span pre body post) by done.
  rewrite re_search_braces_object. cbn [default from_option id].
  rewrite !(append_cons "{" ""), !append_nil_l.
  rewrite truthy_app_brace.
  by rewrite <- (append_nil_l (String "{" (body +:+ "}"))), truthy_app_brace.
Qed.

End Answer.

(** An answer wrapped in prose. *)
Lemma extract_json_ignores_chatter_witness :
  _extract_json_from_text fake_json_loads no_repair fake_search_type_error
    (VStr ("Here is the JSON you asked for: " +:+ "{" +:+ "" +:+ "}"
           +:+ " Let me know if you need more."))
  = _extract_json_from_text fake_json_loads no_repair fake_search_type_error
      (VStr ("{" +:+ "" +:+ "}")).
Proof.
  apply (extract_json_ignores_chatter fake_json_loads no_repair
           fake_search_type_error "Here is the JSON you asked for: " ""
           " Let me know if you need more.").
  - reflexivity.
  - reflexivity.
Defined.

(** ** The call *)

(** A text that the call selects is one of the texts of the body. *)
Lemma body_entry_found (d : pydict) (key : string) (dflt text : value) :
  dict_get_default d key dflt = text → truthy text = true →
  truthy dflt = false → text ∈ body_entry d key.
Proof.
  unfold dict_get_default, body_entry. intros <- Htext Hdflt.
  destruct (d !! key) as [v|]; cbn [default option_list] in *.
  - apply list_elem_of_singleton. done.
  - congruence.
Qed.

Lemma choice_text_found (data : pydict) (text : value) :
  choice_text (VDict data) = Ok text → truthy text = true →
  text ∈ body_texts data.
Proof.
  unfold choice_text, message_content, body_texts, py_get, dict_get_default.
  intros Hchoice Htext.
  destruct (data !! "choices") as [choices|] eqn:Hchoices;
    cbn [default from_option id mbind result_bind py_index0] in Hchoice.
  2: { injection Hchoice as <-. done. }
  destruct choices as [|b|z|f|s|l|d];
    cbn [mbind result_bind py_index0] in Hchoice.
  1-4, 7: destruct (truthy _); cbn [mbind result_bind py_index0] in Hchoice;
    [done|injection Hchoice as <-; done].
  - destruct s as [|c s]; cbn [mbind result_bind py_index0 truthy String.eqb negb]
      in Hchoice; [injection Hchoice as <-|]; done.
  - destruct l as [|choice l]; cbn [mbind result_bind py_index0 truthy] in Hchoice.
    { injection Hchoice as <-. done. }
    destruct choice as [| | | | | |choice]; try done.
    cbn [mbind result_bind] in Hchoice.
    apply elem_of_app. left.
    destruct (choice !! "message") as [message|] eqn:Hmessage;
      cbn [default from_option id mbind result_bind] in Hchoice.
    2: { injection Hchoice as <-. rewrite lookup_empty in Htext. done. }
    apply elem_of_app.
    destruct message as [| | | | | |message];
      cbn [mbind result_bind] in Hchoice.
    7: { left. injection Hchoice as Hchoice.
         by apply (body_entry_found message "content" VNone). }
    all: right; injection Hchoice as Hchoice;
      by apply (body_entry_found choice "text" VNone).
Qed.

Lemma fallback_text_found (data : pydict) (text : value) :
  fallback_text (VDict data) = Ok text → truthy text = true →
  text ∈ body_texts data.
Proof.
  unfold fallback_text, body_texts, py_get. cbn [mbind result_bind].
  intros Hfall Htext. apply elem_of_app. right.
  destruct (truthy (dict_get_default data "response" VNone)) eqn:Hresponse.
  { injection Hfall as Hfall. apply elem_of_app. left.
    by apply (body_entry_found data "response" VNone). }
  destruct (truthy (dict_get_default data "message" VNone)) eqn:Hmessage.
  { injection Hfall as Hfall. apply elem_of_app. right. apply elem_of_app. left.
    by apply (body_entry_found data "message" VNone). }
  injection Hfall as Hfall. apply elem_of_app. right. apply elem_of_app. right.
  by apply (body_entry_found data "content" VNone).
Qed.

Section Call.
Variable json_loads : string → result value.
Variable repair_json : string → result string.
Variable search_type_error : value → string.
Variable api_key : option string.
Variable post : string → string → result httpx_response.

#[local] Abbreviation extract :=
  (_extract_json_from_text json_loads repair_json search_type_error).
#[local] Abbreviation groq :=
  (call_groq json_loads repair_json search_type_error api_key post).

Lemma truthy_key (key : string) : key ≠ ""%string → truthy (VStr key) = true.
Proof. intros Hkey. cbn [truthy]. by apply negb_true_iff, String.eqb_neq. Qed.

Lemma status_ok (resp : httpx_response) :
  200 ≤ status_code resp < 300 →
  (status_code resp <? 200) || (300 <=? status_code resp) = false.
Proof.
  intros [Hlo Hhi]. apply orb_false_iff. split.
  - by apply Z.ltb_ge.
  - by apply Z.leb_gt.
Qed.

(** X20: without an API key, missing or empty, [call_groq] raises
    RuntimeError "GROQ_API_KEY not configured" and no request is sent;
    with a key, an exception of the request propagates, and an answer
    whose status is outside 200..299 raises RuntimeError "Groq API
    returned status <code>" whatever its body holds. *)
Theorem call_groq_refusals (contract_text fields : string) :
  (api_key = None ∨ api_key = Some ""%string →
   groq contract_text fields
   = Raise (Exn (OtherException "RuntimeError") "GROQ_API_KEY not configured"))
  ∧ (∀ key e,
       api_key = Some key → key ≠ ""%string →
       post key (ensure_json_prompt contract_text fields) = Raise e →
       groq contract_text fields = Raise e)
  ∧ (∀ key resp,
       api_key = Some key → key ≠ ""%string →
       post key (ensure_json_prompt contract_text fields) = Ok resp →
       status_code resp < 200 ∨ 300 ≤ status_code resp →
       groq contract_text fields
       = Raise (Exn (OtherException "RuntimeError")
                  ("Groq API returned status " +:+ pretty (status_code resp)))).
Proof.
  unfold call_groq. split; [|split].
  - by intros [->| ->].
  - intros key e -> Hkey Hpost. by rewrite truthy_key, Hpost.
  - intros key resp -> Hkey Hpost Hstatus. rewrite truthy_key, Hpost by done.
    cbn [negb mbind result_bind].
    assert ((status_code resp <? 200) || (300 <=? status_code resp) = true)
      as ->; [|done].
    apply orb_true_iff. destruct Hstatus; [left|right].
    + by apply Z.ltb_lt.
    + by apply Z.leb_le.
Qed.

(** X21: for an answer with a 2xx status whose body is a chat
    completion, that is a mapping whose choices start with a mapping that
    holds a message with a non-empty string content, [call_groq] returns
    what [_extract_json_from_text] makes of that content; the other
    choices and the other keys of the body are not consulted. *)
Theorem call_groq_chat_answer (contract_text fields key content : string)
    (resp : httpx_response) (data choice message : pydict) (others : list value) :
  api_key = Some key → key ≠ ""%string →
  post key (ensure_json_prompt contract_text fields) = Ok resp →
  200 ≤ status_code resp < 300 →
  json resp = Ok (VDict data) →
  data !! "choices" = Some (VList (VDict choice :: others)) →
  choice !! "message" = Some (VDict message) →
  message !! "content" = Some (VStr content) →
  content ≠ ""%string →
  groq contract_text fields = extract (VStr content).
Proof.
  intros -> Hkey Hpost Hstatus Hjson Hchoices Hmessage Hcontent Hne.
  unfold call_groq. rewrite truthy_key, Hpost by done.
  cbn [negb mbind result_bind]. rewrite status_ok, Hjson by done.
  cbn [mbind result_bind].
  unfold choice_text, message_content, py_get, dict_get_default.
  rewrite Hchoices. cbn [default from_option id mbind result_bind py_index0].
  rewrite Hmessage. cbn [default from_option id mbind result_bind].
  rewrite Hcontent. cbn [default from_option id mbind result_bind].
  rewrite truthy_key by done. cbn [negb mbind result_bind].
  by rewrite truthy_key.
Qed.

(** X22: for an answer with a 2xx status whose body is a mapping without
    choices, or with an empty list of them, [call_groq] falls back to the
    first truthy value among the keys response, message and content, in
    that order, and hands it to [_extract_json_from_text]; when none is
    truthy it raises ValueError "No response from LLM.". *)
Theorem call_groq_without_choices (contract_text fields key : string)
    (resp : httpx_response) (data : pydict) :
  api_key = Some key → key ≠ ""%string →
  post key (ensure_json_prompt contract_text fields) = Ok resp →
  200 ≤ status_code resp < 300 →
  json resp = Ok (VDict data) →
  data !! "choices" = None ∨ data !! "choices" = Some (VList []) →
  let text := first_truthy (dict_get data "response") (dict_get data "message")
                (dict_get data "content") in
  groq contract_text fields
  = if truthy text then extract text
    else Raise (Exn ValueError "No response from LLM.").
Proof.
  intros -> Hkey Hpost Hstatus Hjson Hchoices text. subst text.
  unfold call_groq. rewrite truthy_key, Hpost by done.
  cbn [negb mbind result_bind]. rewrite status_ok, Hjson by done.
  cbn [mbind result_bind].
  assert (Hchoice : choice_text (VDict data) = Ok VNone).
  { unfold choice_text, message_content, py_get, dict_get_default.
    by destruct Hchoices as [->| ->]. }
  rewrite Hchoice. cbn [mbind result_bind truthy negb].
  unfold fallback_text, py_get, dict_get_default, first_truthy, dict_get.
  cbn [mbind result_bind].
  destruct (truthy (default VNone (data !! "response"))) eqn:Hr;
    cbn [mbind result_bind]; [by rewrite Hr|].
  destruct (truthy (default VNone (data !! "message"))) eqn:Hm;
    cbn [mbind result_bind]; [by rewrite Hm|].
  by destruct (truthy (default VNone (data !! "content"))).
Qed.

(** X23: [call_groq] returns a value only if a non-empty API key is
    configured, the request was answered with a status in 200..299 and a
    body that is a mapping, and a non-empty string found in that body (the
    content of the message of its first choice, the text of its first
    choice, or its entry response, message or content) was parsed, or
    repaired and parsed, into that value. *)
Theorem call_groq_returns (contract_text fields : string) (v : value) :
  groq contract_text fields = Ok v →
  ∃ key resp data text,
    api_key = Some key ∧ key ≠ ""%string
    ∧ post key (ensure_json_prompt contract_text fields) = Ok resp
    ∧ 200 ≤ status_code resp < 300
    ∧ json resp = Ok (VDict data)
    ∧ text ≠ ""%string
    ∧ VStr text ∈ body_texts data
    ∧ extract (VStr text) = Ok v.
Proof.
  unfold call_groq. intros Hcall.
  destruct api_key as [key|]; [|done].
  destruct (truthy (VStr key)) eqn:Hkey; cbn [negb] in Hcall; [|done].
  destruct (post key _) as [resp|e] eqn:Hpost; [|done].
  cbn [mbind result_bind] in Hcall.
  destruct ((status_code resp <? 200) || (300 <=? status_code resp))
    eqn:Hstatus; [done|].
  apply orb_false_iff in Hstatus as [Hlo%Z.ltb_ge Hhi%Z.leb_gt].
  destruct (json resp) as [body|e] eqn:Hjson; [|done].
  cbn [mbind result_bind] in Hcall.
  assert (Hdict : ∃ data, body = VDict data).
  { destruct body as [| | | | | |data]; try done. by exists data. }
  destruct Hdict as [data ->].
  destruct (choice_text (VDict data)) as [text1|e] eqn:Hchoice; [|done].
  cbn [mbind result_bind] in Hcall.
  destruct (if negb (truthy text1) then fallback_text (VDict data) else Ok text1)
    as [text2|e] eqn:Hsel; [|done].
  cbn [mbind result_bind] in Hcall.
  destruct (truthy text2) eqn:Htext; cbn [negb] in Hcall; [|done].
  assert (Hfound : text2 ∈ body_texts data).
  { destruct (truthy text1) eqn:Htext1; cbn [negb] in Hsel.
    - injection Hsel as <-. by apply choice_text_found.
    - by apply fallback_text_found. }
  assert (Hstr : ∃ s, text2 = VStr s).
  { unfold _extract_json_from_text in Hcall. rewrite Htext in Hcall.
    cbn [negb] in Hcall. destruct text2 as [| | | |s| |]; try done.
    by exists s. }
  destruct Hstr as [s ->]. exists key, resp, data, s.
  split; [done|]. split.
  { intros ->. by cbn in Hkey. }
  split; [done|]. split; [done|]. split; [done|]. split; [|done].
  intros ->. by cbn in Htext.
Qed.

End Call.

(** A chat completion whose content is the empty object. *)
Lemma call_groq_chat_answer_witness :
  call_groq fake_json_loads no_repair fake_search_type_error
    (Some "gsk-test"%string) fake_post "fake text" fields1
  = _extract_json_from_text fake_json_loads no_repair fake_search_type_error
      (VStr "{}").
Proof.
  apply (call_groq_chat_answer fake_json_loads no_repair fake_search_type_error
           (Some "gsk-test"%string) fake_post "fake text" fields1 "gsk-test" "{}"
           {| status_code := 200; json := Ok (VDict (chat_body "{}")) |}
           (chat_body "{}") (chat_choice "{}") (chat_message "{}") []).
  - reflexivity.
  - done.
  - reflexivity.
  - cbn [status_code]. lia.
  - reflexivity.
  - reflexivity.
  - reflexivity.
  - reflexivity.
  - done.
Defined.

(** An answer in the shape of an older completion endpoint. *)
Lemma call_groq_without_choices_witness :
  let text := first_truthy (dict_get {[ "response" := VStr "{}" ]} "response")
                (dict_get {[ "response" := VStr "{}" ]} "message")
                (dict_get {[ "response" := VStr "{}" ]} "content") in
  call_groq fake_json_loads no_repair fake_search_type_error
    (Some "gsk-test"%string)
    (λ _ _, Ok {| status_code := 200;
                  json := Ok (VDict {[ "response" := VStr "{}" ]}) |})
    "fake text" fields1
  = if truthy text
    then _extract_json_from_text fake_json_loads no_repair
           fake_search_type_error text
    else Raise (Exn ValueError "No response from LLM.").
Proof.
  apply (call_groq_without_choices fake_json_loads no_repair
           fake_search_type_error (Some "gsk-test"%string)
           (λ _ _, Ok {| status_code := 200;
                         json := Ok (VDict {[ "response" := VStr "{}" ]}) |})
           "fake text" fields1 "gsk-test"
           {| status_code := 200;
              json := Ok (VDict {[ "response" := VStr "{}" ]}) |}
           {[ "response" := VStr "{}" ]}).
  - reflexivity.
  - done.
  - reflexivity.
  - cbn [status_code]. lia.
  - reflexivity.
  - left. reflexivity.
Defined.

(** The call of the chat endpoint that answers with the empty object. *)
Lemma call_groq_returns_witness :
  ∃ key resp data text,
    Some "gsk-test"%string = Some key ∧ key ≠ ""%string
    ∧ fake_post key (ensure_json_prompt "fake text" fields1) = Ok resp
    ∧ 200 ≤ status_code resp < 300
    ∧ json resp = Ok (VDict data)
    ∧ text ≠ ""%string
    ∧ VStr text ∈ body_texts data
    ∧ _extract_json_from_text fake_json_loads no_repair fake_search_type_error
        (VStr text) = Ok (VDict ∅).
Proof.
  apply (call_groq_returns fake_json_loads no_repair fake_search_type_error
           (Some "gsk-test"%string) fake_post "fake text" fields1 (VDict ∅)).
  reflexivity.
Defined.

(** ** The run of a job with these collaborators *)

(** X24: when no API key is configured, the run of a job whose PDF text
    can be extracted ends with the job failed, progress 100, its data
    untouched and the error "GROQ_API_KEY not configured"; the run itself
    returns normally. *)
Theorem job_fails_without_key
    (py_repr : string → string) (implicit_null : bool)
    (validate_dict_any : value → option pydict)
    (validate_dict_float : value → validation (gmap string float))
    (validate_list_str : value → option (list string))
    (float_of_str : string → option float)
    (open_pdf : string → result (list (result (option string))))
    (json_loads : string → result value)
    (repair_json : string → result string)
    (search_type_error : value → string)
    (api_key : option string)
    (post : string → string → result httpx_response)
    (σ : registry) (contract_id file_path : string) (j : Job)
    (texts : list string) :
  api_key = None ∨ api_key = Some ""%string →
  σ !! contract_id = Some j →
  open_pdf file_path = Ok (text_page <$> texts) →
  ∃ σ' tr,
    process_contract py_repr implicit_null validate_dict_any validate_dict_float
      validate_list_str float_of_str (extract_text_from_pdf open_pdf)
      (call_groq json_loads repair_json search_type_error api_key post)
      contract_id file_path (σ, [])
    = (Ok tt, (σ', tr))
    ∧ σ' !! contract_id
      = Some {| status := failed; progress := 100; data := data j;
                error := Some "GROQ_API_KEY not configured"%string;
                created_at := created_at j |}.
Proof.
  intros Hkey Hj Hpdf.
  rewrite (process_contract_run _ _ _ _ _ _ _ _ _ _ _ _ j Hj).
  eexists _, _. split; [reflexivity|].
  rewrite lookup_insert_eq, last_written_events. f_equal.
  unfold pipeline_result, extract_text_from_pdf. rewrite Hpdf.
  cbn [mbind result_bind].
  rewrite <- (app_nil_r (text_page <$> texts)), join_pages_texts.
  cbn [join_pages mbind result_bind].
  unfold call_groq. by destruct Hkey as [->| ->].
Qed.

(** The job of the end-to-end test, run without a key. *)
Lemma job_fails_without_key_witness :
  ∃ σ' tr,
    process_contract plain_repr true strict_dict_any strict_dict_float strict_list_str
      decimal_float_of_str (extract_text_from_pdf two_pages)
      (call_groq fake_json_loads no_repair fake_search_type_error None fake_post)
      "job-1" "uploaded_contracts/job-1.pdf" (uploaded_registry, [])
    = (Ok tt, (σ', tr))
    ∧ σ' !! "job-1"
      = Some {| status := failed; progress := 100; data := data new_job;
                error := Some "GROQ_API_KEY not configured"%string;
                created_at := created_at new_job |}.
Proof.
  apply (job_fails_without_key plain_repr true strict_dict_any
           strict_dict_float strict_list_str decimal_float_of_str two_pages fake_json_loads
           no_repair fake_search_type_error None fake_post uploaded_registry
           "job-1" "uploaded_contracts/job-1.pdf" new_job
           [ "Master Services Agreement"%string; "Payment: Net 30"%string ]).
  - by left.
  - reflexivity.
  - reflexivity.
Defined.
